(** * extract_data.py: input check, querying loop, outlier filter, resampler

    A shallow embedding of [src/extract_data.py].  The script is a straight
    line of pandas/numpy calls; each stage is embedded as a function on
    lists, in the order of the script:

    - [Cli]       section 1 of the script, the checks on dates and times;
    - [Symbols]   section 1, the symbols queried instead of GOOG, LBTYA and
                  FOX and the dictionary of suffix conditions;
    - [Query]     section 2, the querying loop and the narrowing of
                  [date_list];
    - [NObs]      section 2, the table of the number of observations;
    - [Outlier]   section 3, the rolling trimmed mean / standard deviation
                  and the search over the (k, y) grid;
    - [Aggregate] section 4, the aggregation of simultaneous trades;
    - [Resample]  section 4, the 2-second grid, the join and the gap
                  filling.

    Left out: the debug settings, the text of the SQL query (the connection
    is a function of the date, the symbol, the times and the attempt), the
    ratio of NaN and the choice among [freq_list] (it has one frequency),
    the plots and the export.

    Numbers.  Python integers are [Z].  A float64 is modelled by an exact
    rational in canonical form ([Qc], so that numeric equality is Leibniz
    equality, as it is for floats), and a float that may be NaN by
    [option Qc] with [None] for NaN: every comparison with NaN is false and
    every operation on NaN is NaN.  Rounding is not modelled. *)

From Stdlib Require Import ZArith QArith Qcanon Qcabs Qround String Ascii OrderedTypeEx.
From stdpp Require Import base numbers list sorting strings gmap.

Set Default Proof Using "Type".

(** ** Python values shared by the stages *)

Module Py.

(** What a run of a block of the script can end in: it falls through with
    a value, it raises, or it calls [exit()].  [exit()] with no argument
    raises [SystemExit(None)]: the interpreter leaves with status 0. *)
Inductive exn := IndexError | KeyError.

Inductive result (A : Type) :=
| Ok (a : A)
| Raise (e : exn)
| Exit (message : string) (status : Z).
Arguments Ok {A} a.
Arguments Raise {A} e.
Arguments Exit {A} message status.

Definition bind {A B} (m : result A) (f : A → result B) : result B :=
  match m with
  | Ok a => f a
  | Raise e => Raise e
  | Exit msg st => Exit msg st
  end.

(** The block falls through. *)
Definition returns {A} (r : result A) : Prop := ∃ a, r = Ok a.
#[export] Instance returns_dec {A} (r : result A) : Decision (returns r).
Proof.
  destruct r as [a| |]; [left; by exists a|right; by intros [? ?]..].
Defined.

(** The line feed with which the messages of the script start. *)
Definition nl : string := String (ascii_of_nat 10) EmptyString.

(** [print(msg); exit()] *)
Definition exit {A} (msg : string) : result A := Exit msg 0.

(** String comparison of Python ([<], [>] on [str]): lexicographic on
    code points. *)
Definition str_lt (a b : string) : bool := String.ltb a b.
Definition str_gt (a b : string) : bool := String.ltb b a.

(** [int(x)] on a float: truncation toward zero. *)
Definition int (x : Qc) : Z := Z.quot (Qnum x) (Zpos (Qden x)).

(** [range(a, b)] *)
Definition range (a b : Z) : list Z :=
  (λ i : nat, (a + Z.of_nat i)%Z) <$> seq 0 (Z.to_nat (b - a)).

(** A float that may be NaN. *)
Abbreviation float := (option Qc).
Abbreviation nan := (@None Qc).

End Py.

Export Py.

(** The monad operations in stdpp's interface: [x ← m; k] runs [m] and, when
    it falls through, goes on with [k]. *)
#[export] Instance result_ret : MRet result := @Ok.
#[export] Instance result_bind : MBind result := λ A B f m, Py.bind m f.

(** ** Section 1 of the script: the checks on the command line *)

Module Cli.

Definition min_start_date : string := "2003-09-10".
Definition max_end_date : string := "2020-03-31".
Definition min_start_time : string := "09:30:00".
Definition max_end_time : string := "16:00:00".

Record args := {
  symbol_list : list string;
  start_date : string;
  end_date : string;
  start_time : string;
  end_time : string
}.

Definition err_dates_order : string :=
  nl +:+ "*** ERROR: Invalid start and end dates: chose a start date before the end date.".
Definition err_start_date : string :=
  nl +:+ "*** ERROR: Invalid start date: choose a date after " +:+ min_start_date +:+ ".".
Definition err_end_date : string :=
  nl +:+ "*** ERROR: Invalid end date: choose a date before " +:+ max_end_date +:+ ".".
Definition err_dates_range : string :=
  nl +:+ "*** ERROR: Invalid start and end dates: choose dates between "
    +:+ min_start_date +:+ " and " +:+ max_end_date +:+ ".".

Definition err_times_order : string :=
  nl +:+ "*** ERROR: Invalid start and end times: chose a start time before the end time.".
Definition err_start_time : string :=
  nl +:+ "*** ERROR: Invalid start time: choose a time after " +:+ min_start_time +:+ ".".
Definition err_end_time : string :=
  nl +:+ "*** ERROR: Invalid end time: choose a time before " +:+ max_end_time +:+ ".".
Definition err_times_range : string :=
  nl +:+ "*** ERROR: Invalid start and end times: choose times between "
    +:+ min_start_time +:+ " and " +:+ max_end_time +:+ ".".

(** Lines 131-149. *)
Definition check_dates (a : args) : result unit :=
  if str_gt (start_date a) (end_date a) then exit err_dates_order
  else if str_lt (start_date a) min_start_date && str_lt (end_date a) max_end_date
    then exit err_start_date
  else if str_gt (start_date a) min_start_date && str_gt (end_date a) max_end_date
    then exit err_end_date
  else if str_lt (start_date a) min_start_date && str_gt (end_date a) max_end_date
    then exit err_dates_range
  else Ok ().

(** Lines 159-177. *)
Definition check_times (a : args) : result unit :=
  if str_gt (start_time a) (end_time a) then exit err_times_order
  else if str_lt (start_time a) min_start_time && str_lt (end_time a) max_end_time
    then exit err_start_time
  else if str_gt (start_time a) min_start_time && str_gt (end_time a) max_end_time
    then exit err_end_time
  else if str_lt (start_time a) min_start_time && str_gt (end_time a) max_end_time
    then exit err_times_range
  else Ok ().

End Cli.

(** ** Section 1 of the script: the symbols queried instead of others *)

Module Symbols.

Definition unwanted_symbols : list string := ["GOOG"; "LBTYA"; "FOX"].
Definition wanted_symbols : list string := ["GOOG"; "LBTY"; "FOXA"].

(** The suffix shown in the warning and the condition on [sym_suffix]. *)
Definition wanted_symbols_suffix : gmap string (string * string) :=
  <["GOOG" := ("L", "='L'")]>
    (<["LBTY" := ("K", "='K'")]> (<["FOXA" := (EmptyString, "is null")]> ∅)).

(** [l[i]] and [d[k]]. *)
Definition item {A} (l : list A) (i : nat) : result A :=
  match l !! i with Some a => Ok a | None => Raise IndexError end.

Definition key {A} (d : gmap string A) (k : string) : result A :=
  match d !! k with Some a => Ok a | None => Raise KeyError end.

(** [l.index(x)]: the first position of [x]; it is called under the guard
    [x in l] only. *)
Definition index (x : string) (l : list string) : nat :=
  default 0 (fst <$> list_find (λ y, y = x) l).

(** Line 115: [{symbol: "is null" for symbol in symbol_list if symbol not
    in unwanted_symbols}]. *)
Definition suffix_query_init (symbol_list : list string) : gmap string string :=
  foldl (λ d symbol,
           if bool_decide (symbol ∉ unwanted_symbols) then <[symbol := "is null"]> d
           else d)
        ∅ symbol_list.

(** The loop of lines 117-126 over [enumerate(unwanted_symbols)]; the
    list is updated in place. *)
Fixpoint substitute (todo : list (nat * string)) (symbol_list : list string)
    (suffix_query : gmap string string)
  : result (list string * gmap string string) :=
  match todo with
  | [] => Ok (symbol_list, suffix_query)
  | (pos, unwanted_symbol) :: rest =>
      if bool_decide (unwanted_symbol ∈ symbol_list) then
        wanted_symbol ← item wanted_symbols pos;
        suffix ← key wanted_symbols_suffix wanted_symbol;
        substitute rest
          (<[index unwanted_symbol symbol_list := wanted_symbol]> symbol_list)
          (<[wanted_symbol := suffix.2]> suffix_query)
      else substitute rest symbol_list suffix_query
  end.

(** Lines 109-126: the symbols to query and the condition on the suffix of
    each. *)
Definition normalise (symbol_list : list string)
  : result (list string * gmap string string) :=
  substitute (imap pair unwanted_symbols) symbol_list (suffix_query_init symbol_list).

End Symbols.

(** ** Section 2 of the script: the querying loop *)

Module Query.

(** A row of the queried frame, with the columns the later stages read.
    [date] is kept in the format of [date_list] ('YYYYMMDD'), on which
    [pd.to_datetime] is injective; [time_m] is the time of day in
    nanoseconds since midnight. *)
Record trade := {
  date : string;
  time_m : Z;
  sym_root : string;
  size : Z;
  price : Qc
}.

(** The wrds connection [db]: the tables of a library, and the outcome of
    the [attempt]-th execution of the query for one symbol and date
    ([None] when [raw_sql] raises). *)
Record database := {
  list_tables : string → list string;
  raw_sql : string → string → string → string → nat → option (list trade)
}.

Inductive db_call :=
| ListTables (library : string)
| RawSql (date symbol : string).

Section loop.
Context (db : database) (start_time end_time : string).

(** [query_sql] (lines 187-228): at most [max_attempts] executions. *)
Definition max_attempts : nat := 2.

Fixpoint query_attempts (date_ symbol_ : string) (attempts : list nat)
  : option (list trade) * bool * list db_call :=
  match attempts with
  | [] => (None, false, [])
  | attempt :: rest =>
      match raw_sql db date_ symbol_ start_time end_time attempt with
      | Some queried_trades => (Some queried_trades, true, [RawSql date_ symbol_])
      | None =>
          let '(r, ok, calls) := query_attempts date_ symbol_ rest in
          (r, ok, RawSql date_ symbol_ :: calls)
      end
  end.

Definition query_sql (date_ symbol_ : string) :=
  query_attempts date_ symbol_ (seq 0 max_attempts).

(** The variables the loop of lines 274-327 updates. *)
Record state := {
  output : list trade;
  remove_dates : list string;
  warning_queried_trades : list string;
  warning_query_sql : list string;
  warning_ctm_date : list string;
  calls : list db_call
}.

Definition init : state :=
  {| output := []; remove_dates := []; warning_queried_trades := [];
     warning_query_sql := []; warning_ctm_date := []; calls := [] |}.

Definition log (cs : list db_call) (st : state) : state :=
  {| output := output st; remove_dates := remove_dates st;
     warning_queried_trades := warning_queried_trades st;
     warning_query_sql := warning_query_sql st;
     warning_ctm_date := warning_ctm_date st;
     calls := calls st ++ cs |}.

(** [output = output.append(queried_trades)] *)
Definition append_trades (rows : list trade) (st : state) : state :=
  {| output := output st ++ rows; remove_dates := remove_dates st;
     warning_queried_trades := warning_queried_trades st;
     warning_query_sql := warning_query_sql st;
     warning_ctm_date := warning_ctm_date st;
     calls := calls st |}.

(** Lines 307-308. *)
Definition no_trades (symbol date : string) (st : state) : state :=
  {| output := output st; remove_dates := remove_dates st ++ [date];
     warning_queried_trades := warning_queried_trades st ++ [symbol +:+ "+" +:+ date];
     warning_query_sql := warning_query_sql st;
     warning_ctm_date := warning_ctm_date st;
     calls := calls st |}.

(** Line 313. *)
Definition query_failed (symbol date : string) (st : state) : state :=
  {| output := output st; remove_dates := remove_dates st;
     warning_queried_trades := warning_queried_trades st;
     warning_query_sql := warning_query_sql st ++ [symbol +:+ "+" +:+ date];
     warning_ctm_date := warning_ctm_date st;
     calls := calls st |}.

(** Lines 319-320. *)
Definition no_table (date : string) (st : state) : state :=
  {| output := output st; remove_dates := remove_dates st ++ [date];
     warning_queried_trades := warning_queried_trades st;
     warning_query_sql := warning_query_sql st;
     warning_ctm_date := warning_ctm_date st ++ [date];
     calls := calls st |}.

(** The body of the loop over [date_list] (lines 285-320). *)
Definition visit (symbol : string) (st : state) (date : string) : state :=
  let library := "taqm_" +:+ String.substring 0 4 date in
  let all_tables := list_tables db library in
  let st := log [ListTables library] st in
  if bool_decide ("ctm_" +:+ date ∈ all_tables) then
    let '(queried_trades, success_query_sql, issued) := query_sql date symbol in
    let st := log issued st in
    match queried_trades, success_query_sql with
    | Some rows, true =>
        if bool_decide (0 < length rows) then append_trades rows st
        else no_trades symbol date st
    | _, _ => query_failed symbol date st
    end
  else no_table date st.

Definition err_no_dates : string :=
  nl +:+ "*** ERROR: Could not find any table in the table list or at least one symbol did not trade for each date.".

(** Line 322: [[d for d in date_list if d not in list(set(remove_dates))]]. *)
Definition narrow (date_list removed : list string) : list string :=
  filter (λ d, d ∉ removed) date_list.

(** The loop over [symbol_list] (lines 274-327).  What is left of the
    run when [exit()] is called is the state reached and the emptied
    [date_list]. *)
Fixpoint symbols_loop (symbols : list string) (st : state) (date_list : list string)
  : result unit * state * list string :=
  match symbols with
  | [] => (Ok (), st, date_list)
  | symbol :: rest =>
      let st := foldl (visit symbol) st date_list in
      let date_list := narrow date_list (remove_dates st) in
      if bool_decide (length date_list = 0) then (exit err_no_dates, st, date_list)
      else symbols_loop rest st date_list
  end.

(** Line 329: the rows whose date is still in [date_list]. *)
Definition keep_dates (rows : list trade) (date_list : list string) : list trade :=
  filter (λ r, date r ∈ date_list) rows.

(** The symbol did not trade on the date: the table of the date is
    there, the query succeeds and returns no row (the branch of lines
    302-308). *)
Definition did_not_trade (symbol date : string) : Prop :=
  "ctm_" +:+ date ∈ list_tables db ("taqm_" +:+ String.substring 0 4 date)
  ∧ ∃ issued, query_sql date symbol = (Some [], true, issued).

(** The table of the date is in the list of its library (line 290). *)
Definition has_table (date : string) : Prop :=
  "ctm_" +:+ date ∈ list_tables db ("taqm_" +:+ String.substring 0 4 date).

#[global] Instance has_table_dec date : Decision (has_table date).
Proof. unfold has_table. apply _. Defined.

(** The executions of the query among the calls, as (date, symbol). *)
Definition raw_calls (cs : list db_call) : list (string * string) :=
  omap (λ c, match c with RawSql d s => Some (d, s) | ListTables _ => None end) cs.

(** Lines 264-329: the queried frame and the final [date_list]. *)
Definition extract (symbols date_list : list string)
  : result (list trade * list string) * list db_call :=
  let '(r, st, date_list) := symbols_loop symbols init date_list in
  (_ ← r; mret (keep_dates (output st) date_list, date_list), calls st).

End loop.

End Query.

(** ** Section 2 of the script: the table of the number of observations *)

Module NObs.
Import Query.

(** [pd.to_datetime(date_).strftime('%Y-%m-%d')] on a 'YYYYMMDD' string. *)
Definition day (date_ : string) : string :=
  String.substring 0 4 date_ +:+ "-" +:+ String.substring 4 2 date_
    +:+ "-" +:+ String.substring 6 2 date_.

(** The globals [count_2], [min_n_obs] and [max_n_obs] ([None] until the
    first call), and the cells of the row of the symbol in [n_obs_table]
    that hold the days (NaN until they are written); the cells
    ['min_n_obs'] and ['max_n_obs'] are written together with the globals
    and hold their values. *)
Record state := {
  count_2 : Z;
  min_n_obs : option Z;
  min_n_obs_day : option string;
  max_n_obs : option Z;
  max_n_obs_day : option string
}.

(** Lines 276-281: the start of the loop body for a symbol. *)
Definition init : state :=
  {| count_2 := 0; min_n_obs := None; min_n_obs_day := None;
     max_n_obs := None; max_n_obs_day := None |}.

(** [n_obs] (lines 233-259) on a frame of [obs] rows; a comparison of
    [obs] with [None] would raise [TypeError], which is the [None] here. *)
Definition n_obs (obs : Z) (date_ : string) (st : state) : option state :=
  let count_2 := (count_2 st + 1)%Z in
  if bool_decide (count_2 = 1)%Z then
    Some {| count_2 := count_2;
            min_n_obs := Some obs; min_n_obs_day := Some (day date_);
            max_n_obs := Some obs; max_n_obs_day := Some (day date_) |}
  else
    lowest ← min_n_obs st;
    if bool_decide (obs < lowest)%Z then
      Some {| count_2 := count_2;
              min_n_obs := Some obs; min_n_obs_day := Some (day date_);
              max_n_obs := max_n_obs st; max_n_obs_day := max_n_obs_day st |}
    else
      highest ← max_n_obs st;
      if bool_decide (obs > highest)%Z then
        Some {| count_2 := count_2;
                min_n_obs := min_n_obs st; min_n_obs_day := min_n_obs_day st;
                max_n_obs := Some obs; max_n_obs_day := Some (day date_) |}
      else
        Some {| count_2 := count_2;
                min_n_obs := min_n_obs st; min_n_obs_day := min_n_obs_day st;
                max_n_obs := max_n_obs st; max_n_obs_day := max_n_obs_day st |}.

(** What a sequence of calls leaves: the least and the greatest number of
    rows seen, each with the day on which it was first seen. *)
Definition extremes (observed : list (Z * string)) (st : state) : Prop :=
  ∃ i j lowest highest d_min d_max,
    count_2 st = Z.of_nat (length observed)
    ∧ min_n_obs st = Some lowest ∧ min_n_obs_day st = Some (day d_min)
    ∧ observed !! i = Some (lowest, d_min)
    ∧ max_n_obs st = Some highest ∧ max_n_obs_day st = Some (day d_max)
    ∧ observed !! j = Some (highest, d_max)
    ∧ ∀ n obs d, observed !! n = Some (obs, d) →
        (lowest ≤ obs ≤ highest)%Z
        ∧ (n < i → (lowest < obs)%Z) ∧ (n < j → (obs < highest)%Z).

Section loop.
Context (db : database) (start_time end_time : string).

(** The calls of [n_obs] in the loop over [date_list] for a symbol (line
    305): one for each date whose table is listed and whose query succeeds
    with at least one row. *)
Definition observations (symbol : string) (date_list : list string)
  : list (Z * string) :=
  omap (λ date,
          if bool_decide (has_table db date) then
            match query_sql db start_time end_time date symbol with
            | (Some rows, true, _) =>
                if bool_decide (0 < length rows) then Some (Z.of_nat (length rows), date)
                else None
            | _ => None
            end
          else None) date_list.

Definition calls (observed : list (Z * string)) : option state :=
  foldl (λ st c, st ≫= n_obs c.1 c.2) (Some init) observed.

(** The state after the dates of a symbol. *)
Definition row (symbol : string) (date_list : list string) : option state :=
  calls (observations symbol date_list).

End loop.

End NObs.

(** ** The numpy and pandas operations the script calls *)

Module Np.

Definition of_Z (z : Z) : Qc := Q2Qc (inject_Z z).
Definition of_nat (n : nat) : Qc := of_Z (Z.of_nat n).

(** [slice(b, e).indices(n)] for a step of 1: a negative bound counts from
    the end, and both bounds are clipped to the sequence. *)
Definition clip (n : nat) (i : Z) : nat :=
  Z.to_nat (if bool_decide (i < 0)%Z then Z.max (i + Z.of_nat n) 0
            else Z.min i (Z.of_nat n)).

(** [a[b:e]] *)
Definition slice {A} (a : list A) (b e : Z) : list A :=
  let lo := clip (length a) b in
  let hi := clip (length a) e in
  take (hi - lo) (drop lo a).

(** [a[b:e] = v] with a scalar [v]. *)
Definition fill {A} (a : list A) (b e : Z) (v : A) : list A :=
  let lo := clip (length a) b in
  let hi := clip (length a) e in
  take lo a ++ replicate (hi - lo) v ++ drop (lo + (hi - lo)) a.

(** A position [i] of a sequence of length [n], counted from the end when
    negative; out of [-n, n) it is [IndexError]. *)
Definition position (n : nat) (i : Z) : result nat :=
  if bool_decide (- Z.of_nat n ≤ i < Z.of_nat n)%Z
  then Ok (Z.to_nat (if bool_decide (i < 0)%Z then i + Z.of_nat n else i))
  else Raise IndexError.

(** [a[i]] on an array, [s.iloc[i]] on a Series. *)
Definition getitem {A} (a : list A) (i : Z) : result A :=
  p ← position (length a) i;
  match a !! p with Some x => Ok x | None => Raise IndexError end.

(** [a[i] = v] *)
Definition setitem {A} (a : list A) (i : Z) (v : A) : result (list A) :=
  p ← position (length a) i;
  mret (<[p := v]> a).

(** [s[i]] on a Series whose index is 0, ..., n-1 (each query returns a
    frame with a fresh [RangeIndex], and [append] keeps it): an integer
    key is a label, a label that is absent is [KeyError]. *)
Definition loc {A} (s : list A) (i : Z) : result A :=
  if bool_decide (0 ≤ i)%Z then
    match s !! Z.to_nat i with Some x => Ok x | None => Raise KeyError end
  else Raise KeyError.

(** [np.sort], [ndarray.sort]. *)
Definition sort (a : list Qc) : list Qc := merge_sort Qcle a.

(** [np.searchsorted(a, v)] (side 'left'): the bisection of numpy's
    [binsearch], which halves [min_idx, max_idx) until it is empty. *)
Fixpoint binsearch (fuel : nat) (a : list Qc) (v : Qc) (min_idx max_idx : nat) : nat :=
  match fuel with
  | 0 => min_idx
  | S fuel =>
      if bool_decide (min_idx < max_idx) then
        let mid_idx := min_idx + (max_idx - min_idx) / 2 in
        match a !! mid_idx with
        | Some mid_val =>
            if bool_decide (mid_val < v)%Qc
            then binsearch fuel a v (mid_idx + 1) max_idx
            else binsearch fuel a v min_idx mid_idx
        | None => min_idx
        end
      else min_idx
  end.

Definition searchsorted (a : list Qc) (v : Qc) : nat :=
  binsearch (length a) a v 0 (length a).

Definition sum (a : list Qc) : Qc := foldr Qcplus 0%Qc a.

(** [a.mean()]: NaN on an empty array. *)
Definition mean (a : list Qc) : float :=
  match a with
  | [] => nan
  | _ => Some (sum a / of_nat (length a))%Qc
  end.

Section std.
(** The floating-point square root. *)
Context (sqrt : Qc → Qc).

(** [a.std()]: [sqrt(mean(abs(a - a.mean())**2))]. *)
Definition std (a : list Qc) : float :=
  m ← mean a;
  v ← mean ((λ x, Qcabs (x - m) * Qcabs (x - m))%Qc <$> a);
  Some (sqrt v).
End std.

(** Arithmetic and comparisons in the presence of NaN. *)
Definition sub (x y : float) : float := a ← x; b ← y; Some (a - b)%Qc.
Definition add (x y : float) : float := a ← x; b ← y; Some (a + b)%Qc.
Definition mul (x y : float) : float := a ← x; b ← y; Some (a * b)%Qc.
Definition abs (x : float) : float := Qcabs <$> x.
Definition lt (x y : float) : bool :=
  match x, y with
  | Some a, Some b => bool_decide (a < b)%Qc
  | _, _ => false
  end.
Definition gt (x y : float) : bool := lt y x.

(** [np.arange(start, stop, step)]: [ceil((stop - start) / step)] values. *)
Definition arange (start stop step : Qc) : list Qc :=
  (λ i : nat, (start + of_nat i * step)%Qc)
    <$> seq 0 (Z.to_nat (Qceiling ((stop - start) / step)%Qc)).

(** [np.array([k_grid.ravel(), y_grid.ravel()]).T] for
    [k_grid, y_grid = np.meshgrid(k_list, y_list)]: the rows of the mesh
    are indexed by [y_list], its columns by [k_list], and [ravel] reads it
    row by row. *)
Definition meshgrid_ravel (k_list y_list : list Qc) : list (Qc * Qc) :=
  y ← y_list; k ← k_list; [(k, y)].

End Np.

(** ** Section 3 of the script: the outlier filter *)

Module Outlier.
Import Np.
Export Query.

Definition delta : Qc := Q2Qc (1 # 10).

(** [np.arange(41, 121, 20)] and [np.arange(0.02, 0.08, 0.02)]; in
    [ky_array] both columns are floats. *)
Definition k_list : list Qc := arange (of_Z 41) (of_Z 121) (of_Z 20).
Definition y_list : list Qc := arange (Q2Qc (2 # 100)) (Q2Qc (8 # 100)) (Q2Qc (2 # 100)).
Definition ky_array : list (Qc * Qc) := meshgrid_ravel k_list y_list.

Definition perc_b (k : Qc) : Z := int (k * delta)%Qc.
Definition perc_t (k : Qc) : Z := int (k * (1 - delta) + 1)%Qc.
Definition center_beg (k : Qc) : Z := int ((k - 1) / of_Z 2)%Qc.

(** Lines 421-423: the price that leaves the window is looked up by
    bisection and overwritten with the price that enters, and the window
    is sorted again. *)
Definition advance (price_sym_day : list Qc) (center_beg i : Z) (window : list Qc)
  : result (list Qc) :=
  leaving ← loc price_sym_day (i - center_beg);
  let idx_drop := searchsorted window leaving in
  entering ← loc price_sym_day (i + center_beg + 1);
  window ← setitem window (Z.of_nat idx_drop) entering;
  mret (sort window).

(** The loop of lines 414-423 over [positions], storing at each
    position what [stat] reads off the window. *)
Fixpoint rolling {B} (stat : list Qc → B) (price_sym_day : list Qc)
    (center_beg center_end : Z) (positions : list Z) (window : list Qc)
    (rolled : list B)
  : result (list B) :=
  match positions with
  | [] => Ok rolled
  | i :: positions =>
      rolled ← setitem rolled i (stat window);
      window ← (if bool_decide (i < center_end - 1)%Z
                 then advance price_sym_day center_beg i window
                 else Ok window);
      rolling stat price_sym_day center_beg center_end positions window rolled
  end.

(** Lines 428-429 (and 430-431): the positions before [center_beg] take
    the value at [center_beg], those from [center_end] on the value at
    [center_end - 1]. *)
Definition clamp (center_beg center_end : Z) (s : list float) : result (list float) :=
  first ← getitem s center_beg;
  let s := fill s 0 center_beg first in
  last ← getitem s (center_end - 1);
  mret (fill s center_end (Z.of_nat (length s)) last).

Definition count_true (m : list bool) : Z := Z.of_nat (length (filter Is_true m)).

Section filter.
Context (sqrt : Qc → Qc).

(** [window[perc_b:perc_t].mean()] and [.std()] (lines 416-417). *)
Definition stats (k : Qc) (window : list Qc) : float * float :=
  let trimmed := slice window (perc_b k) (perc_t k) in
  (mean trimmed, std sqrt trimmed).

(** The two conditions of lines 433-434. *)
Definition left_con (price_sym_day : list Qc) (price_sym_day_mean : list float)
  : list float :=
  zip_with (λ p m, abs (sub (Some p) m)) price_sym_day price_sym_day_mean.
Definition right_con (y : Qc) (price_sym_day_std : list float) : list float :=
  (λ s, add (mul (Some (of_Z 3)) s) (Some y)) <$> price_sym_day_std.

(** The rolling statistics of one day, clamped at both ends (lines
    407-431). *)
Definition rolling_stats (k : Qc) (price_sym_day : list Qc)
  : result (list float * list float) :=
  let center_beg := center_beg k in
  let center_end := (Z.of_nat (length price_sym_day) - center_beg)%Z in
  let window := sort (slice price_sym_day 0 (int k)) in
  rolled ← rolling (stats k) price_sym_day center_beg center_end
             (range center_beg center_end) window
             (replicate (length price_sym_day) (nan, nan));
  price_sym_day_mean ← clamp center_beg center_end (rolled.*1);
  price_sym_day_std ← clamp center_beg center_end (rolled.*2);
  mret (price_sym_day_mean, price_sym_day_std).

(** The body of the loop over [date_list] (lines 405-437): the number of
    outliers of the day and its [left_con < right_con] series. *)
Definition filter_day (k y : Qc) (price_sym_day : list Qc) : result (Z * list bool) :=
  '(price_sym_day_mean, price_sym_day_std) ← rolling_stats k price_sym_day;
  let left_con := left_con price_sym_day price_sym_day_mean in
  let right_con := right_con y price_sym_day_std in
  mret (count_true (zip_with gt left_con right_con), zip_with lt left_con right_con).

(** The loop over [date_list] for one grid point (lines 403-437). *)
Fixpoint dates_loop (k y : Qc) (days : list (list Qc))
    (outlier_num_sym : Z) (not_outlier_sym : list bool) : result (Z * list bool) :=
  match days with
  | [] => Ok (outlier_num_sym, not_outlier_sym)
  | price_sym_day :: days =>
      '(n, inliers) ← filter_day k y price_sym_day;
      dates_loop k y days (outlier_num_sym + n) (not_outlier_sym ++ inliers)
  end.

(** The row of [outlier_frame] of the symbol, with [not_outlier_sym_f]. *)
Record choice := {
  out_num : Z;
  k_chosen : Qc;
  y_chosen : Qc;
  not_outlier_sym_f : list bool
}.

(** The loop over [ky_array] (lines 394-451).  The row is empty ([None])
    until the first grid point fills it; against an empty row the
    comparison of line 446 is a comparison with NaN. *)
Fixpoint grid_loop (days : list (list Qc)) (grid : list (Qc * Qc))
    (count : Z) (row : option choice) : result (option choice) :=
  match grid with
  | [] => Ok row
  | (k, y) :: grid =>
      let count := (count + 1)%Z in
      '(outlier_num_sym, not_outlier_sym) ← dates_loop k y days 0 [];
      let candidate :=
        {| out_num := outlier_num_sym; k_chosen := k; y_chosen := y;
           not_outlier_sym_f := not_outlier_sym |} in
      let row :=
        if bool_decide (count = 1)%Z then Some candidate
        else match row with
             | Some best =>
                 if bool_decide (outlier_num_sym > out_num best)%Z
                 then Some candidate else Some best
             | None => None
             end in
      grid_loop days grid count row
  end.

(** What the loop over the grid maintains: the row holds the first of the
    grid points seen so far whose number of outliers over [days] is the
    greatest. *)
Definition first_maximum (days : list (list Qc)) (seen : list (Qc * Qc))
    (i : nat) (c : choice) : Prop :=
  seen !! i = Some (k_chosen c, y_chosen c)
  ∧ dates_loop (k_chosen c) (y_chosen c) days 0 [] = Ok (out_num c, not_outlier_sym_f c)
  ∧ ∀ j ky n m, seen !! j = Some ky → dates_loop ky.1 ky.2 days 0 [] = Ok (n, m) →
      (n ≤ out_num c)%Z ∧ (j < i → (n < out_num c)%Z).

Definition row_invariant (days : list (list Qc)) (seen : list (Qc * Qc))
    (row : option choice) : Prop :=
  match row with
  | None => seen = []
  | Some c => ∃ i, first_maximum days seen i c
  end.

(** [price_sym_day] of line 405. *)
Definition price_sym_day (output : list trade) (symbol date_ : string) : list Qc :=
  price <$> filter (λ r, sym_root r = symbol ∧ date r = date_) output.

(** The search for one symbol over a grid. *)
Definition search (grid : list (Qc * Qc)) (output : list trade)
    (date_list : list string) (symbol : string) : result (option choice) :=
  grid_loop (price_sym_day output symbol <$> date_list) grid 0 None.

(** The loop over [symbol_list] (lines 390-453). *)
Fixpoint symbols_loop (output : list trade) (date_list symbols : list string)
    (outlier_frame : list choice) (not_outlier_series : list bool)
  : result (list choice * list bool) :=
  match symbols with
  | [] => Ok (outlier_frame, not_outlier_series)
  | symbol :: symbols =>
      row ← search ky_array output date_list symbol;
      match row with
      | Some best =>
          symbols_loop output date_list symbols (outlier_frame ++ [best])
            (not_outlier_series ++ not_outlier_sym_f best)
      | None => symbols_loop output date_list symbols outlier_frame not_outlier_series
      end
  end.
(* [ky_array] is not empty: the search always fills the row. *)

(** [output[not_outlier_series]] (line 455): the mask is in the order of
    the frame, symbol by symbol and date by date. *)
Definition mask {A} (rows : list A) (keep : list bool) : list A :=
  (filter (λ rb, Is_true rb.2) (zip rows keep)).*1.

Definition output_filtered (output : list trade) (date_list symbols : list string)
  : result (list trade) :=
  '(_, not_outlier_series) ← symbols_loop output date_list symbols [] [];
  mret (mask output not_outlier_series).

End filter.

End Outlier.

(** ** Section 4 of the script: the aggregation of simultaneous trades *)

Module Aggregate.
Import Np.
Export Query.

(** The key of [groupby(['sym_root', 'date', 'time_m'])]. *)
Definition group_key (r : trade) : string * string * Z := (sym_root r, date r, time_m r).

(** The order in which [groupby] sorts the keys: by symbol, then by date,
    then by time.  On dates written 'YYYYMMDD' the order of the strings is
    the order of the days. *)
Definition key_lt (a b : string * string * Z) : Prop :=
  str_lt a.1.1 b.1.1 = true
  ∨ a.1.1 = b.1.1
    ∧ (str_lt a.1.2 b.1.2 = true ∨ a.1.2 = b.1.2 ∧ (a.2 < b.2)%Z).
Definition key_le (a b : string * string * Z) : Prop := key_lt a b ∨ a = b.

#[export] Instance key_lt_dec a b : Decision (key_lt a b).
Proof. unfold key_lt. apply _. Defined.
#[export] Instance key_le_dec a b : Decision (key_le a b).
Proof. unfold key_le. apply _. Defined.

(** The keys of the groups, each once, in increasing order. *)
Definition keys (output_filtered : list trade) : list (string * string * Z) :=
  merge_sort key_le (remove_dups (group_key <$> output_filtered)).

Definition group (output_filtered : list trade) (k : string * string * Z) : list trade :=
  filter (λ r, group_key r = k) output_filtered.

(** [.median()] of a group: the middle value of the sorted prices, or the
    mean of the two middle values; NaN on no value. *)
Definition median (a : list Qc) : float :=
  let sorted := sort a in
  let n := length sorted in
  if bool_decide (n = 0) then nan
  else if Nat.odd n then sorted !! (n / 2)
  else x ← sorted !! (n / 2 - 1); y ← sorted !! (n / 2); Some ((x + y) / of_Z 2)%Qc.

(** Lines 479-481: a row per group, with the median of its prices and the
    sum of its sizes. *)
Definition output_aggregate (output_filtered : list trade) : list trade :=
  omap (λ k,
          price_median ← median (price <$> group output_filtered k);
          let volume_sum := foldr Z.add 0%Z (size <$> group output_filtered k) in
          Some {| date := k.1.2; time_m := k.2; sym_root := k.1.1;
                  size := volume_sum; price := price_median |})
       (keys output_filtered).

(** [df_sym_day] of line 514. *)
Definition df_sym_day (output_aggregate : list trade) (symbol date_ : string)
  : list trade :=
  filter (λ r, sym_root r = symbol ∧ date r = date_) output_aggregate.

End Aggregate.

(** ** Section 4 of the script: resampling on the grid and gap filling *)

Module Resample.
Import Np.

(** Times of day are in nanoseconds since midnight; ['2S'] is two seconds. *)
Definition second : Z := 1000000000.
Definition freq_list : list Z := [2 * second]%Z.

(** [pd.date_range(start, end, freq)]: [start], [start + freq], ... up to
    [end_] included. *)
Definition date_range (start end_ freq : Z) : list Z :=
  (λ i : nat, (start + Z.of_nat i * freq)%Z)
    <$> seq 0 (Z.to_nat ((end_ - start) / freq + 1)).

(** The edges of the bins of [resample(freq, closed='right')]
    ([_adjust_dates_anchored]): the bins are anchored at midnight, the
    first edge is the multiple of [freq] strictly before the first
    timestamp and the last edge the multiple at or after the last one. *)
Definition bin_edges (first last freq : Z) : Z * Z :=
  let foffset := (first mod freq)%Z in
  let loffset := (last mod freq)%Z in
  (if bool_decide (foffset > 0)%Z then first - foffset else first - freq,
   if bool_decide (loffset > 0)%Z then last + (freq - loffset) else last)%Z.

(** A row belongs to the bin labelled [label] (its right edge, which the
    bin contains). *)
Definition in_bin (freq label : Z) (r : Query.trade) : Prop :=
  (label - freq < Query.time_m r ≤ label)%Z.
#[export] Instance in_bin_dec freq label r : Decision (in_bin freq label r).
Proof. unfold in_bin. apply _. Defined.

(** The label of the bin of a row at time [t]. *)
Definition bin_label (freq t : Z) : Z := (bin_edges t t freq).2.

Definition minimum (zs : list Z) : Z := foldr Z.min (default 0%Z (head zs)) zs.
Definition maximum (zs : list Z) : Z := foldr Z.max (default 0%Z (head zs)) zs.

(** The labels of the bins of [resample(freq, label='right',
    closed='right')]: the edges after the first, from the bin of the first
    row to the bin of the last row; an empty frame has no bin. *)
Definition labels (freq : Z) (df_sym_day : list Query.trade) : list Z :=
  match df_sym_day with
  | [] => []
  | _ =>
      let times := Query.time_m <$> df_sym_day in
      let '(lo, hi) := bin_edges (minimum times) (maximum times) freq in
      date_range (lo + freq) hi freq
  end.

(** Lines 517-519: per bin the last price ([.last()], NaN on an empty bin)
    and the summed size ([.sum()], 0 on an empty bin). *)
Definition price_last (freq label : Z) (df_sym_day : list Query.trade) : float :=
  last (Query.price <$> filter (in_bin freq label) df_sym_day).
Definition volume_sum (freq label : Z) (df_sym_day : list Query.trade) : Z :=
  foldr Z.add 0%Z (Query.size <$> filter (in_bin freq label) df_sym_day).

Definition resample (freq : Z) (df_sym_day : list Query.trade)
  : list (Z * (float * Z)) :=
  (λ label, (label, (price_last freq label df_sym_day, volume_sum freq label df_sym_day)))
    <$> labels freq df_sym_day.

(** A row of [df_resampled]: its index, and the two columns; a NaN in
    [size] is [None]. *)
Record row := {
  index : Z;
  price : float;
  size : option Z
}.

(** [df_extended_index.join(df_sym_day_resampled)] (line 525): a left join
    on the index. *)
Definition join (index_extended : list Z) (resampled : list (Z * (float * Z)))
  : list row :=
  (λ t,
     match list_find (λ b, b.1 = t) resampled with
     | Some (_, (_, (p, v))) => {| index := t; price := p; size := Some v |}
     | None => {| index := t; price := nan; size := None |}
     end) <$> index_extended.

(** What the join puts at the grid timestamp [t]: the row of the bin
    labelled [t] when there is one, NaN in both columns otherwise. *)
Definition joined (freq : Z) (df_sym_day : list Query.trade) (t : Z) : row :=
  if bool_decide (t ∈ labels freq df_sym_day)
  then {| index := t; price := price_last freq t df_sym_day;
          size := Some (volume_sum freq t df_sym_day) |}
  else {| index := t; price := nan; size := None |}.

(** [np.interp(x, xp, fp)] on increasing [xp]: constant outside the
    points, linear between two of them. *)
Fixpoint interp (x : Z) (points : list (Z * Qc)) : Qc :=
  match points with
  | [] => 0%Qc
  | (x0, f0) :: rest =>
      match rest with
      | [] => f0
      | (x1, f1) :: _ =>
          if bool_decide (x ≤ x0)%Z then f0
          else if bool_decide (x < x1)%Z
            then ((f1 - f0) / (of_Z x1 - of_Z x0) * (of_Z x - of_Z x0) + f0)%Qc
          else interp x rest
      end
  end.

(** The positions and values that are not NaN. *)
Definition valid (y : list float) : list (Z * Qc) :=
  omap (λ iv : nat * float, (λ v, (Z.of_nat iv.1, v)) <$> iv.2) (imap pair y).

(** [Series.interpolate(method='linear')] ([limit_direction='forward'],
    no limit): the NaN before the first valid value are kept, the others
    are read off [np.interp] over the positions. *)
Definition interpolate (y : list float) : list float :=
  match valid y with
  | [] => y
  | ((first_valid, _) :: _) as points =>
      imap (λ (i : nat) (v : float),
              match v with
              | Some _ => v
              | None =>
                  if bool_decide (Z.of_nat i < first_valid)%Z then nan
                  else Some (interp (Z.of_nat i) points)
              end) y
  end.

(** [Series.fillna(method='bfill')]: a NaN takes the next valid value. *)
Fixpoint bfill (y : list float) : list float :=
  match y with
  | [] => []
  | v :: rest =>
      let filled := bfill rest in
      match v with
      | Some _ => v :: filled
      | None => default nan (head filled) :: filled
      end
  end.

(** Lines 531-532. *)
Definition gap_fill (y : list float) : list float := bfill (interpolate y).

(** The body of the loop over [date_list] (lines 514-535), for the columns
    [price] and [size]. *)
Definition resample_day (freq start_time end_time : Z) (df_sym_day : list Query.trade)
  : list row :=
  let df_sym_day_resampled := resample freq df_sym_day in
  let index_extended := date_range start_time end_time freq in
  let df_resampled := join index_extended df_sym_day_resampled in
  zip_with (λ r p, {| index := index r; price := p; size := size r |})
    df_resampled (gap_fill (price <$> df_resampled)).

End Resample.

(** ** Sections 1 and 2 in sequence *)

Module Main.
Import Cli.

Section run.
(** [calendar] stands for the NASDAQ schedule of
    [pandas_market_calendars] (lines 151-154): the sessions between two
    dates, as 'YYYYMMDD' strings. *)
Context (calendar : string → string → list string) (db : Query.database).

(** Lines 131-329: the date check, the calendar, the time check, the
    queries; with the calls made on [db]. *)
Definition run (a : args)
  : result (list Query.trade * list string) * list Query.db_call :=
  match check_dates a with
  | Ok _ =>
      let date_list := calendar (start_date a) (end_date a) in
      match check_times a with
      | Ok _ => Query.extract db (start_time a) (end_time a) (symbol_list a) date_list
      | Raise e => (Raise e, [])
      | Exit msg status => (Exit msg status, [])
      end
  | Raise e => (Raise e, [])
  | Exit msg status => (Exit msg status, [])
  end.
End run.

End Main.

(** ** Inputs on which the script is evaluated below *)

Module Sample.
Import Query.

Definition trade_at (d s : string) (t : Z) (p : Qc) (v : Z) : trade :=
  {| date := d; time_m := t; sym_root := s; size := v; price := p |}.

(** Two sessions; AAPL trades on both, TSLA only on the first. *)
Definition sessions (start_date end_date : string) : list string :=
  ["20190328"; "20190329"].

Definition tables (library : string) : list string :=
  ["ctm_20190328"; "ctm_20190329"].

Definition rows (date_ symbol_ start_time end_time : string) (attempt : nat)
  : option (list trade) :=
  if bool_decide (symbol_ = "AAPL") then
    Some [trade_at date_ symbol_ (34200 * Resample.second) (Np.of_Z 188) 100;
          trade_at date_ symbol_ (34201 * Resample.second) (Np.of_Z 189) 50]
  else if bool_decide (date_ = "20190328") then
    Some [trade_at date_ symbol_ (34200 * Resample.second) (Np.of_Z 278) 10]
  else Some [].

Definition db : database := {| list_tables := tables; raw_sql := rows |}.

(** A square root to evaluate runs with: the root rounded down to nine
    decimals, exact on 0. *)
Definition sqrt (q : Qc) : Qc :=
  Q2Qc (Z.sqrt (Qfloor (q * Np.of_Z (10 ^ 18))%Qc) # 10 ^ 9).

Definition cents (z : Z) : Qc := Q2Qc (z # 100).

(** One trade of AAPL at 09:30:02, and one at 09:30:04. *)
Definition trade_0930_02 : trade :=
  trade_at "20190328" "AAPL" (34202 * Resample.second) (cents 18800) 100.
Definition trade_0930_04 : trade :=
  trade_at "20190328" "AAPL" (34204 * Resample.second) (cents 18810) 40.

Definition trade_0930_08 : trade :=
  trade_at "20190328" "AAPL" (34208 * Resample.second) (cents 18820) 30.

(** A day of five trades of AAPL. *)
Definition five_trades : list trade :=
  (λ t : Z, trade_at "20190328" "AAPL" (34200 * Resample.second + t) (cents 18800) 100)
    <$> [0; 1; 2; 3; 4]%Z.

(** A day of 120 trades of AAPL at 100.00, but for one at 100.03 and one at
    150.00. *)
Definition spiked_day : list trade :=
  (λ t : Z, trade_at "20190328" "AAPL" (34200 * Resample.second + t)
              (if bool_decide (t = 30)%Z then cents 10003
               else if bool_decide (t = 70)%Z then cents 15000 else cents 10000) 100)
    <$> Py.range 0 120.

(** A connection that lacks the table of 2019-03-29 and on which the
    query for TSLA raises at each execution. *)
Definition tables_gap (library : string) : list string := ["ctm_20190328"].

Definition rows_down (date_ symbol_ start_time end_time : string) (attempt : nat)
  : option (list trade) :=
  if bool_decide (symbol_ = "TSLA") then None
  else rows date_ symbol_ start_time end_time attempt.

Definition db_gap : database := {| list_tables := tables_gap; raw_sql := rows_down |}.

(** Trades of TSLA and AAPL, three of AAPL at 09:30:02. *)
Definition simultaneous : list trade :=
  [trade_at "20190328" "TSLA" (34204 * Resample.second) (cents 27800) 10;
   trade_at "20190328" "AAPL" (34202 * Resample.second) (cents 18840) 30;
   trade_at "20190328" "AAPL" (34202 * Resample.second) (cents 18800) 100;
   trade_0930_08;
   trade_at "20190328" "AAPL" (34202 * Resample.second) (cents 18810) 40].

(** A connection on which every symbol has 52 trades on each date, one of
    them at 100.50 and the others at 100.00. *)
Definition busy_day (d s : string) : list trade :=
  (λ t : Z, trade_at d s (34200 * Resample.second + t)
              (if bool_decide (t = 30)%Z then cents 10050 else cents 10000) 100)
    <$> Py.range 0 52.

Definition db_busy : database :=
  {| list_tables := tables; raw_sql := λ d s _ _ _, Some (busy_day d s) |}.

Definition request (sd ed st et : string) : Cli.args :=
  {| Cli.symbol_list := ["AAPL"; "TSLA"]; Cli.start_date := sd; Cli.end_date := ed;
     Cli.start_time := st; Cli.end_time := et |}.

End Sample.

(** * Properties *)

(** ** The checks on the command line *)

(** Membership in a list that is written out. *)
Ltac in_list :=
  repeat first [apply list_elem_of_here | apply list_elem_of_further].

Section cli_facts.
Import Cli.

Lemma str_lt_gt a b : str_lt a b = true → str_gt a b = false.
Proof.
  unfold str_lt, str_gt, String.ltb. rewrite (String.compare_antisym a b).
  by destruct (String.compare b a).
Qed.

Lemma str_trichotomy a b : str_lt a b = false → a ≠ b → str_gt a b = true.
Proof.
  unfold str_lt, str_gt, String.ltb. intros Hlt Hne.
  rewrite (String.compare_antisym b a).
  destruct (String.compare a b) eqn:E; simpl in *; try done.
  by apply String.compare_eq_iff in E.
Qed.

Lemma start_before_min_rejected a :
  str_lt (start_date a) min_start_date = true →
  end_date a ≠ max_end_date →
  ∃ msg, msg ∈ [err_dates_order; err_start_date; err_dates_range]
         ∧ check_dates a = Exit msg 0.
Proof.
  intros Hs He. unfold check_dates.
  destruct (str_gt (start_date a) (end_date a)).
  { eexists; split; [|done]. in_list. }
  rewrite Hs, (str_lt_gt _ _ Hs). simpl.
  destruct (str_lt (end_date a) max_end_date) eqn:E.
  { eexists; split; [|done]. in_list. }
  rewrite (str_trichotomy _ _ E He).
  eexists; split; [|done]. in_list.
Qed.

Lemma end_after_max_rejected a :
  str_gt (end_date a) max_end_date = true →
  start_date a ≠ min_start_date →
  ∃ msg, msg ∈ [err_dates_order; err_end_date; err_dates_range]
         ∧ check_dates a = Exit msg 0.
Proof.
  intros He Hs. unfold check_dates.
  destruct (str_gt (start_date a) (end_date a)).
  { eexists; split; [|done]. in_list. }
  rewrite He.
  assert (str_lt (end_date a) max_end_date = false) as ->.
  { destruct (str_lt (end_date a) max_end_date) eqn:E; [|done].
    apply str_lt_gt in E. congruence. }
  rewrite andb_false_r, !andb_true_r.
  destruct (str_gt (start_date a) min_start_date) eqn:E.
  { eexists; split; [|done]. in_list. }
  assert (str_lt (start_date a) min_start_date = true) as ->.
  { destruct (str_lt (start_date a) min_start_date) eqn:E'; [done|].
    rewrite (str_trichotomy _ _ E' Hs) in E. done. }
  eexists; split; [|done]. in_list.
Qed.

End cli_facts.

(** C9, as the script has it.  A request is turned down, with the message of
    its case and before any call on the database, when the start date is
    after the end date, when the start date is before 2003-09-10 (unless the
    end date is exactly 2020-03-31), when the end date is after 2020-03-31
    (unless the start date is exactly 2003-09-10), and when the dates pass
    and the start time is after the end time.  The eight messages are
    pairwise distinct.  The script leaves through [exit()]: the status is
    0. *)
Theorem C9_invalid_request_rejected
    (calendar : string → string → list string) (db : Query.database) (a : Cli.args) :
  (str_gt (Cli.start_date a) (Cli.end_date a) = true →
     Main.run calendar db a = (Exit Cli.err_dates_order 0, []))
  ∧ (str_lt (Cli.start_date a) Cli.min_start_date = true →
     Cli.end_date a ≠ Cli.max_end_date →
     ∃ msg, msg ∈ [Cli.err_dates_order; Cli.err_start_date; Cli.err_dates_range]
            ∧ Main.run calendar db a = (Exit msg 0, []))
  ∧ (str_gt (Cli.end_date a) Cli.max_end_date = true →
     Cli.start_date a ≠ Cli.min_start_date →
     ∃ msg, msg ∈ [Cli.err_dates_order; Cli.err_end_date; Cli.err_dates_range]
            ∧ Main.run calendar db a = (Exit msg 0, []))
  ∧ (Cli.check_dates a = Ok () →
     str_gt (Cli.start_time a) (Cli.end_time a) = true →
     Main.run calendar db a = (Exit Cli.err_times_order 0, []))
  ∧ NoDup [Cli.err_dates_order; Cli.err_start_date; Cli.err_end_date;
           Cli.err_dates_range; Cli.err_times_order; Cli.err_start_time;
           Cli.err_end_time; Cli.err_times_range].
Proof.
  repeat split.
  - intros H. unfold Main.run, Cli.check_dates. by rewrite H.
  - intros Hs He. destruct (start_before_min_rejected a Hs He) as (msg & Hin & Hc).
    exists msg. split; [done|]. unfold Main.run. by rewrite Hc.
  - intros He Hs. destruct (end_after_max_rejected a He Hs) as (msg & Hin & Hc).
    exists msg. split; [done|]. unfold Main.run. by rewrite Hc.
  - intros Hd Ht. unfold Main.run. rewrite Hd. unfold Cli.check_times. by rewrite Ht.
  - apply (bool_decide_unpack _). by vm_compute.
Qed.

(** C9 at four requests: dates in the wrong order, a start date before the
    range, an end date after the range, times in the wrong order. *)
Lemma C9_invalid_request_rejected_witness :
  Main.run Sample.sessions Sample.db
    (Sample.request "2019-04-02" "2019-03-28" "09:30:00" "16:00:00")
    = (Exit Cli.err_dates_order 0, [])
  ∧ (∃ msg, Main.run Sample.sessions Sample.db
              (Sample.request "2001-01-02" "2019-03-28" "09:30:00" "16:00:00")
            = (Exit msg 0, []))
  ∧ (∃ msg, Main.run Sample.sessions Sample.db
              (Sample.request "2019-03-28" "2021-01-04" "09:30:00" "16:00:00")
            = (Exit msg 0, []))
  ∧ Main.run Sample.sessions Sample.db
      (Sample.request "2019-03-28" "2019-04-02" "10:00:00" "09:45:00")
    = (Exit Cli.err_times_order 0, []).
Proof.
  pose proof (C9_invalid_request_rejected Sample.sessions Sample.db
                (Sample.request "2019-04-02" "2019-03-28" "09:30:00" "16:00:00")) as (H1 & _).
  pose proof (C9_invalid_request_rejected Sample.sessions Sample.db
                (Sample.request "2001-01-02" "2019-03-28" "09:30:00" "16:00:00")) as (_ & H2 & _).
  pose proof (C9_invalid_request_rejected Sample.sessions Sample.db
                (Sample.request "2019-03-28" "2021-01-04" "09:30:00" "16:00:00")) as (_ & _ & H3 & _).
  pose proof (C9_invalid_request_rejected Sample.sessions Sample.db
                (Sample.request "2019-03-28" "2019-04-02" "10:00:00" "09:45:00")) as (_ & _ & _ & H4 & _).
  split; [apply H1; reflexivity|].
  split; [destruct H2 as (msg & _ & E); [reflexivity|discriminate|by exists msg]|].
  split; [destruct H3 as (msg & _ & E); [reflexivity|discriminate|by exists msg]|].
  apply H4; reflexivity.
Defined.

(** C9 as stated fails twice.  A request with the dates in the wrong order
    leaves with status 0, not with a status other than 0; and a request
    from 2003-09-10 to 2021-01-04, whose end is outside the range, passes
    the date check. *)
Lemma C9_counterexample :
  (Main.run Sample.sessions Sample.db
     (Sample.request "2019-04-02" "2019-03-28" "09:30:00" "16:00:00")).1
    = Exit Cli.err_dates_order 0
  ∧ Cli.check_dates (Sample.request "2003-09-10" "2021-01-04" "09:30:00" "16:00:00")
    = Ok ().
Proof. split; reflexivity. Qed.

(** ** The narrowing of [date_list] *)

Section query_facts.
Import Query.
Context (db : database) (start_time end_time : string).

#[local] Abbreviation visit := (visit db start_time end_time).
#[local] Abbreviation query_sql := (query_sql db start_time end_time).
#[local] Abbreviation symbols_loop := (symbols_loop db start_time end_time).
#[local] Abbreviation did_not_trade := (did_not_trade db start_time end_time).

Lemma remove_dates_visit symbol st date :
  ∀ d, d ∈ remove_dates st → d ∈ remove_dates (visit symbol st date).
Proof.
  intros d Hd. unfold visit.
  case_bool_decide; [|simpl; apply elem_of_app; by left].
  destruct (query_sql date symbol) as [[[rows|] []] issued]; simpl; try done.
  case_bool_decide; simpl; [done|]. apply elem_of_app; by left.
Qed.

Lemma remove_dates_foldl symbol dates :
  ∀ st d, d ∈ remove_dates st → d ∈ remove_dates (foldl (visit symbol) st dates).
Proof.
  induction dates as [|date dates IH]; intros st d Hd; simpl; [done|].
  apply IH. by apply remove_dates_visit.
Qed.

Lemma did_not_trade_visit symbol st date :
  did_not_trade symbol date → date ∈ remove_dates (visit symbol st date).
Proof.
  intros [Htable [issued Hq]]. unfold visit.
  rewrite bool_decide_true by done. rewrite Hq. simpl.
  apply elem_of_app. right. in_list.
Qed.

Lemma did_not_trade_foldl symbol dates :
  ∀ st date, did_not_trade symbol date → date ∈ dates →
    date ∈ remove_dates (foldl (visit symbol) st dates).
Proof.
  induction dates as [|d dates IH]; intros st date Hz Hin; simpl.
  { by apply elem_of_nil in Hin. }
  apply elem_of_cons in Hin as [->|Hin].
  - apply remove_dates_foldl. by apply did_not_trade_visit.
  - by apply IH.
Qed.

Lemma narrow_subseteq date_list removed d :
  d ∈ narrow date_list removed → d ∈ date_list ∧ d ∉ removed.
Proof. unfold narrow. rewrite list_elem_of_filter. tauto. Qed.

(** The loop over the symbols only ever shrinks [date_list]. *)
Lemma symbols_loop_shrinks symbols :
  ∀ st date_list d,
    d ∈ (symbols_loop symbols st date_list).2 → d ∈ date_list.
Proof.
  induction symbols as [|symbol symbols IH]; intros st date_list d; simpl; [done|].
  case_bool_decide; simpl.
  - intros Hd. by apply narrow_subseteq in Hd as [? _].
  - intros Hd. apply IH in Hd. by apply narrow_subseteq in Hd as [? _].
Qed.

(** A date on which one of the symbols did not trade is not in the
    [date_list] the loop ends with. *)
Lemma symbols_loop_drops symbols :
  ∀ st date_list symbol date,
    symbol ∈ symbols → did_not_trade symbol date →
    date ∉ (symbols_loop symbols st date_list).2.
Proof.
  induction symbols as [|s symbols IH]; intros st date_list symbol date Hs Hz.
  { by apply elem_of_nil in Hs. }
  simpl. apply elem_of_cons in Hs as [->|Hs].
  - assert (date ∉ narrow date_list
                     (remove_dates (foldl (visit s) st date_list))) as Hout.
    { intros Hin. apply narrow_subseteq in Hin as [Hin Hnot].
      apply Hnot. by apply did_not_trade_foldl. }
    case_bool_decide; simpl; [done|].
    intros Hin. by apply symbols_loop_shrinks in Hin.
  - case_bool_decide; simpl; [|by eapply IH].
    match goal with H : length ?l = 0 |- _ => apply nil_length_inv in H; rewrite H end.
    apply not_elem_of_nil.
Qed.

(** The loop falls through or leaves through [exit()] with the message of
    line 326; it never raises. *)
Lemma symbols_loop_ends symbols :
  ∀ st date_list,
    (symbols_loop symbols st date_list).1.1 = Ok ()
    ∨ (symbols_loop symbols st date_list).1.1 = Exit err_no_dates 0.
Proof.
  induction symbols as [|s symbols IH]; intros st date_list; simpl; [by left|].
  case_bool_decide; simpl; [by right|]. apply IH.
Qed.

End query_facts.

(** C8.  When a symbol of the run did not trade on a date, the querying
    stage either stops the run with the message of line 326 (no date is
    left), or returns a date list without that date and a frame all of whose
    rows, whatever their symbol, have their date in the returned list. *)
Theorem C8_date_narrowing (db : Query.database) (start_time end_time : string)
    (symbols date_list : list string) (symbol date : string) :
  symbol ∈ symbols →
  Query.did_not_trade db start_time end_time symbol date →
  match (Query.extract db start_time end_time symbols date_list).1 with
  | Ok (output, final_dates) =>
      (date ∉ final_dates)
      ∧ (∀ d, d ∈ final_dates → d ∈ date_list)
      ∧ ∀ r, r ∈ output → Query.date r ∈ final_dates ∧ Query.date r ≠ date
  | Exit msg status => msg = Query.err_no_dates ∧ status = 0%Z
  | Raise _ => False
  end.
Proof.
  intros Hs Hz. unfold Query.extract.
  pose proof (symbols_loop_drops db start_time end_time symbols Query.init
                date_list symbol date Hs Hz) as Hdrop.
  pose proof (symbols_loop_shrinks db start_time end_time symbols Query.init
                date_list) as Hshrink.
  destruct (symbols_loop_ends db start_time end_time symbols Query.init date_list)
    as [Hok|Hexit];
    destruct (Query.symbols_loop db start_time end_time symbols Query.init date_list)
      as [[r st] final_dates]; simpl in *; subst r; simpl; [|done].
  split; [done|]. split; [done|].
  intros r Hr. unfold Query.keep_dates in Hr.
  apply list_elem_of_filter in Hr as [Hr _]. split; [done|].
  intros E. apply Hdrop. by rewrite <- E.
Qed.

(** C8 on the sample database: TSLA did not trade on 2019-03-29; the run
    keeps 2019-03-28 only, and the rows of AAPL of 2019-03-29, queried
    before TSLA, are gone. *)
Lemma C8_date_narrowing_witness :
  (Query.extract Sample.db "09:30:00" "16:00:00" ["AAPL"; "TSLA"]
     ["20190328"; "20190329"]).1
  = Ok ([Sample.trade_at "20190328" "AAPL" (34200 * Resample.second) (Np.of_Z 188) 100;
         Sample.trade_at "20190328" "AAPL" (34201 * Resample.second) (Np.of_Z 189) 50;
         Sample.trade_at "20190328" "TSLA" (34200 * Resample.second) (Np.of_Z 278) 10],
        ["20190328"])
  ∧ match (Query.extract Sample.db "09:30:00" "16:00:00" ["AAPL"; "TSLA"]
             ["20190328"; "20190329"]).1 with
    | Ok (output, final_dates) =>
        ("20190329" ∉ final_dates)
        ∧ (∀ d, d ∈ final_dates → d ∈ ["20190328"; "20190329"])
        ∧ ∀ r, r ∈ output → Query.date r ∈ final_dates ∧ Query.date r ≠ "20190329"
    | Exit msg status => msg = Query.err_no_dates ∧ status = 0%Z
    | Raise _ => False
    end.
Proof.
  split; [reflexivity|].
  apply (C8_date_narrowing Sample.db "09:30:00" "16:00:00" ["AAPL"; "TSLA"]
           ["20190328"; "20190329"] "TSLA" "20190329").
  - in_list.
  - split; [in_list|]. eexists. reflexivity.
Defined.

(** ** The outlier filter on short days *)

Section short_days.
Import Np Outlier.
Context (sqrt : Qc → Qc).

Lemma range_empty a b : (b ≤ a)%Z → range a b = [].
Proof. intros H. unfold range. by replace (Z.to_nat (b - a)) with 0 by lia. Qed.

Lemma position_out n i : (Z.of_nat n ≤ i)%Z → position n i = Raise IndexError.
Proof. intros H. unfold position. rewrite bool_decide_false; [done|lia]. Qed.

Lemma position_in n i :
  (0 ≤ i < Z.of_nat n)%Z → position n i = Ok (Z.to_nat i).
Proof.
  intros H. unfold position. rewrite bool_decide_true by lia.
  by rewrite bool_decide_false by lia.
Qed.

(** With no more trades than [center_beg], the loop of line 414 does not
    run and line 428 reads [iloc[center_beg]] out of bounds. *)
Lemma short_day_raises k y (prices : list Qc) :
  (0 ≤ center_beg k)%Z →
  (Z.of_nat (length prices) ≤ center_beg k)%Z →
  filter_day sqrt k y prices = Raise IndexError.
Proof.
  intros Hk Hn. unfold filter_day, rolling_stats.
  rewrite range_empty by lia. simpl.
  assert (∀ s : list float, length s = length prices →
            clamp (center_beg k) (Z.of_nat (length prices) - center_beg k) s
            = Raise IndexError) as Hclamp.
  { intros s Hs. unfold clamp, getitem. rewrite position_out by lia. done. }
  by rewrite !Hclamp by (by rewrite length_fmap, length_replicate).
Qed.

Lemma clip_le n i : clip n i ≤ n.
Proof. unfold clip. case_bool_decide; lia. Qed.

(** With more trades than [center_beg] but no more than twice as many, the
    loop does not run either; the statistics stay NaN at every position, no
    trade is counted as an outlier and no trade passes [left_con <
    right_con]. *)
Lemma clamp_nan cb ce n :
  (0 ≤ cb < Z.of_nat n)%Z → (1 ≤ ce ≤ Z.of_nat n)%Z →
  clamp cb ce (replicate n nan) = Ok (replicate n nan).
Proof.
  intros Hcb Hce. unfold clamp, getitem.
  rewrite length_replicate, position_in by lia. simpl.
  rewrite lookup_replicate_2 by lia. simpl.
  assert (∀ b e, fill (replicate n nan) b e nan = replicate n nan) as Hfill.
  { intros b e. unfold fill. rewrite length_replicate.
    rewrite take_replicate, drop_replicate, <- !replicate_add. f_equal.
    pose proof (clip_le n b). pose proof (clip_le n e). lia. }
  rewrite Hfill, length_replicate, position_in by lia. simpl.
  rewrite lookup_replicate_2 by lia. simpl. by rewrite Hfill.
Qed.

Lemma thin_day_all_nan k y (prices : list Qc) :
  (center_beg k < Z.of_nat (length prices) ≤ 2 * center_beg k)%Z →
  filter_day sqrt k y prices = Ok (0%Z, replicate (length prices) false).
Proof.
  intros Hn. unfold filter_day, rolling_stats.
  rewrite range_empty by lia. simpl.
  rewrite !fmap_replicate. simpl.
  rewrite !clamp_nan by lia. simpl.
  unfold left_con, right_con. rewrite fmap_replicate. simpl.
  assert (∀ (f : float → float → bool) (ps : list Qc) n,
            n = length ps →
            (∀ x, f x nan = false) →
            zip_with f (zip_with (λ p m, abs (sub (Some p) m)) ps (replicate n nan))
              (replicate n nan) = replicate n false) as Hzip.
  { intros f ps. induction ps as [|p ps IH]; intros n -> Hf; [done|].
    cbn [length replicate zip_with]. rewrite Hf. f_equal. by apply IH. }
  rewrite !Hzip by (done || by intros []). f_equal. f_equal.
  unfold count_true. generalize (length prices). intros n.
  induction n as [|n IH]; simpl; [done|].
  rewrite filter_cons_False; [done|]. by intros [].
Qed.

End short_days.

Section search_facts.
Import Np Outlier.
Context (sqrt : Qc → Qc).

Lemma grid_center_beg : Forall (λ ky : Qc * Qc, (20 ≤ center_beg ky.1)%Z) ky_array.
Proof. apply (bool_decide_unpack _). by vm_compute. Qed.

Lemma dates_loop_raises k y days :
  ∀ n m, Exists (λ d, ∀ r, filter_day sqrt k y d ≠ Ok r) days →
         ∀ r, dates_loop sqrt k y days n m ≠ Ok r.
Proof.
  induction days as [|d days IH]; intros n m Hex r; [by apply Exists_nil in Hex|].
  simpl. apply Exists_cons in Hex as [Hd|Hex].
  - destruct (filter_day sqrt k y d) as [[]| |] eqn:E; simpl; try done.
    by destruct (Hd _ eq_refl).
  - destruct (filter_day sqrt k y d) as [[]| |]; simpl; try done. by apply IH.
Qed.

Lemma grid_loop_raises days k y grid count row :
  (∀ r, dates_loop sqrt k y days 0 [] ≠ Ok r) →
  ∀ r, grid_loop sqrt days ((k, y) :: grid) count row ≠ Ok r.
Proof.
  intros H r. simpl.
  destruct (dates_loop sqrt k y days 0 []) as [[]| |] eqn:E; simpl; try done.
  by destruct (H _ eq_refl).
Qed.

(** The comparisons of lines 436 and 437 are both false exactly when the
    two sides are equal numbers; they are never both true. *)
Lemma neither_iff_equal (l r : Qc) :
  gt (Some l) (Some r) = false ∧ lt (Some l) (Some r) = false ↔ l = r.
Proof.
  unfold gt, lt. rewrite !bool_decide_eq_false. split.
  - intros [H1 H2]. apply Qcle_antisym; by apply Qcnot_lt_le.
  - intros ->. split; intros H; apply (Qcle_not_lt _ _ (Qcle_refl _) H).
Qed.

End search_facts.

(** C7 is not what the script does.  On a day on which the symbol has at
    most 20 trades, [filter_day] raises [IndexError] at every point of the
    grid, and the search for the symbol does not return. *)
Theorem C7_short_day_index_error (sqrt : Qc → Qc) (output : list Query.trade)
    (date_list : list string) (symbol date : string) :
  date ∈ date_list →
  length (Outlier.price_sym_day output symbol date) ≤ 20 →
  (∀ k y, (k, y) ∈ Outlier.ky_array →
     Outlier.filter_day sqrt k y (Outlier.price_sym_day output symbol date)
     = Raise IndexError)
  ∧ ∀ r, Outlier.search sqrt Outlier.ky_array output date_list symbol ≠ Ok r.
Proof.
  intros Hd Hn.
  assert (∀ k y, (k, y) ∈ Outlier.ky_array →
            Outlier.filter_day sqrt k y (Outlier.price_sym_day output symbol date)
            = Raise IndexError) as Hday.
  { intros k y Hky.
    pose proof (proj1 (Forall_forall _ _) grid_center_beg _ Hky) as Hk. simpl in Hk.
    apply short_day_raises; lia. }
  split; [done|].
  unfold Outlier.search.
  destruct Outlier.ky_array as [|[k y] grid] eqn:E; [done|].
  apply grid_loop_raises. apply dates_loop_raises.
  apply Exists_exists. exists (Outlier.price_sym_day output symbol date). split.
  - apply list_elem_of_fmap. by exists date.
  - intros r. rewrite Hday; [done|]. rewrite <- E. rewrite E. by left.
Qed.

(** C7 on a day of five trades of AAPL. *)
Lemma C7_short_day_index_error_witness :
  Outlier.filter_day Sample.sqrt (Np.of_Z 41) (Sample.cents 2)
    (Outlier.price_sym_day Sample.five_trades "AAPL" "20190328") = Raise IndexError
  ∧ ∀ r, Outlier.search Sample.sqrt Outlier.ky_array Sample.five_trades ["20190328"] "AAPL"
         ≠ Ok r.
Proof.
  destruct (C7_short_day_index_error Sample.sqrt Sample.five_trades ["20190328"]
              "AAPL" "20190328") as [Hday Hsearch].
  - in_list.
  - vm_compute. lia.
  - split; [|done]. apply Hday. apply (bool_decide_unpack _). by vm_compute.
Defined.

(** C2 is not what the script does.  With k = 41 and y = 0.02, on a day of
    forty trades at 100.00 and a last one at 100.02, the last trade has
    [left_con] equal to [right_con]: it is not counted as an outlier and it
    does not pass line 437 either.  On a day of twenty-one trades at 100.00
    the statistics are NaN: no trade is counted, none passes. *)
Theorem C2_boundary_trade_neither :
  Outlier.filter_day Sample.sqrt (Np.of_Z 41) (Sample.cents 2)
    (replicate 40 (Sample.cents 10000) ++ [Sample.cents 10002])
  = Ok (0%Z, replicate 40 true ++ [false])
  ∧ Outlier.mask (replicate 40 (Sample.cents 10000) ++ [Sample.cents 10002])
      (replicate 40 true ++ [false]) = replicate 40 (Sample.cents 10000)
  ∧ Outlier.filter_day Sample.sqrt (Np.of_Z 41) (Sample.cents 2)
      (replicate 21 (Sample.cents 10000))
    = Ok (0%Z, replicate 21 false)
  ∧ Outlier.mask (replicate 21 (Sample.cents 10000)) (replicate 21 false) = [].
Proof. repeat split; by vm_compute. Qed.

(** ** The search over the grid *)

Section grid_facts.
Import Np Outlier.
Context (sqrt : Qc → Qc) (days : list (list Qc)).

#[local] Abbreviation total ky := (dates_loop sqrt ky.1 ky.2 days 0 []).

#[local] Abbreviation first_maximum := (first_maximum sqrt days).
#[local] Abbreviation row_invariant := (row_invariant sqrt days).

Lemma grid_loop_invariant grid :
  ∀ seen row,
    row_invariant seen row →
    Forall (λ ky, returns (total ky)) grid →
    ∃ row', grid_loop sqrt days grid (Z.of_nat (length seen)) row = Ok row'
            ∧ row_invariant (seen ++ grid) row'.
Proof.
  induction grid as [|[k y] grid IH]; intros seen row Hinv Hret.
  { exists row. by rewrite app_nil_r. }
  apply Forall_cons in Hret as [[[n m] Hky] Hret]. simpl in Hky.
  cbn [grid_loop]. rewrite Hky. cbn [mbind result_bind Py.bind].
  replace (Z.of_nat (length seen) + 1)%Z with (Z.of_nat (length (seen ++ [(k, y)])))
    by (rewrite length_app; simpl; lia).
  replace (seen ++ (k, y) :: grid) with ((seen ++ [(k, y)]) ++ grid)
    by by rewrite <- app_assoc.
  apply IH; [|done]. clear IH Hret.
  case_bool_decide as Hcount.
  - (* the first grid point seeds the row *)
    destruct seen as [|? seen]; [|rewrite length_app in Hcount; simpl in Hcount; lia].
    exists 0. split; [done|]. split; [done|].
    intros j ky n' m' Hj Hev. split; [|lia].
    destruct j; simplify_eq/=. rewrite Hky in Hev. simplify_eq/=. lia.
  - destruct row as [best|]; simpl in Hinv;
      [|subst seen; simpl in Hcount; lia].
    destruct Hinv as (i & Hi & Hbest & Hmax).
    pose proof (lookup_lt_Some _ _ _ Hi) as Hlt.
    case_bool_decide as Hgt.
    + (* strictly more outliers: the row is replaced *)
      exists (length seen). split; [|split; [done|]].
      { simpl. by rewrite lookup_app_r, Nat.sub_diag by lia. }
      intros j ky n' m' Hj Hev. simpl.
      destruct (decide (j < length seen)) as [Hjl|Hjl].
      * rewrite lookup_app_l in Hj by done.
        destruct (Hmax j ky n' m' Hj Hev). lia.
      * rewrite lookup_app_r in Hj by lia.
        destruct (j - length seen) eqn:E; simplify_eq/=.
        rewrite Hky in Hev. simplify_eq/=. lia.
    + (* otherwise the row is kept *)
      exists i. split; [|split; [done|]].
      { by rewrite lookup_app_l. }
      intros j ky n' m' Hj Hev.
      destruct (decide (j < length seen)) as [Hjl|Hjl].
      * rewrite lookup_app_l in Hj by done. by destruct (Hmax j ky n' m' Hj Hev).
      * rewrite lookup_app_r in Hj by lia.
        destruct (j - length seen) eqn:E; simplify_eq/=.
        rewrite Hky in Hev. simplify_eq/=. lia.
Qed.

(** There is one first maximum at most. *)
Lemma first_maximum_unique grid i i' c c' :
  first_maximum grid i c → first_maximum grid i' c' → i = i'.
Proof.
  intros (Hi & Hc & Hmax) (Hi' & Hc' & Hmax').
  destruct (Hmax _ _ _ _ Hi' Hc') as [Hle Hlt].
  destruct (Hmax' _ _ _ _ Hi Hc) as [Hle' Hlt'].
  destruct (Nat.lt_trichotomy i i') as [H|[H|H]]; [|done|].
  - apply Hlt' in H. lia.
  - apply Hlt in H. lia.
Qed.

End grid_facts.

(** C5.  When every grid point can be evaluated on the days of the symbol,
    the search returns a row, and the row is the first maximum of the grid:
    its number of outliers is the greatest over the grid, every grid point
    before it has strictly fewer, and its mask is the one of its grid
    point.  The first maximum is unique, so the choice and the mask are
    determined by the input. *)
Theorem C5_first_maximum_chosen (sqrt : Qc → Qc) (grid : list (Qc * Qc))
    (output : list Query.trade) (date_list : list string) (symbol : string) :
  grid ≠ [] →
  Forall (λ ky, returns (Outlier.dates_loop sqrt ky.1 ky.2
                           (Outlier.price_sym_day output symbol <$> date_list) 0 []))
    grid →
  ∃ c i,
    Outlier.search sqrt grid output date_list symbol = Ok (Some c)
    ∧ Outlier.first_maximum sqrt
        (Outlier.price_sym_day output symbol <$> date_list) grid i c
    ∧ ∀ i' c',
        Outlier.first_maximum sqrt
          (Outlier.price_sym_day output symbol <$> date_list) grid i' c' →
        i' = i
        ∧ Outlier.k_chosen c' = Outlier.k_chosen c
        ∧ Outlier.y_chosen c' = Outlier.y_chosen c
        ∧ Outlier.out_num c' = Outlier.out_num c
        ∧ Outlier.not_outlier_sym_f c' = Outlier.not_outlier_sym_f c.
Proof.
  intros Hne Hret. unfold Outlier.search.
  destruct (grid_loop_invariant sqrt _ grid [] None eq_refl Hret)
    as (row & Hrun & Hinv).
  simpl in Hrun, Hinv. destruct row as [c|]; [|done].
  destruct Hinv as [i Hi]. exists c, i. split; [done|]. split; [done|].
  intros i' c' Hi'.
  pose proof (first_maximum_unique _ _ _ _ _ _ _ Hi' Hi) as ->.
  destruct Hi as (Hl & Hc & _), Hi' as (Hl' & Hc' & _).
  rewrite Hl in Hl'. injection Hl' as Hk Hy. rewrite <- Hk, <- Hy in Hc'.
  rewrite Hc in Hc'. injection Hc' as Hn Hm. done.
Qed.

(** C5 on the day of 120 trades: the twelve grid points can be evaluated. *)
Lemma C5_first_maximum_chosen_witness :
  ∃ c i,
    Outlier.search Sample.sqrt Outlier.ky_array Sample.spiked_day ["20190328"] "AAPL"
    = Ok (Some c)
    ∧ Outlier.first_maximum Sample.sqrt
        (Outlier.price_sym_day Sample.spiked_day "AAPL" <$> ["20190328"])
        Outlier.ky_array i c
    ∧ ∀ i' c',
        Outlier.first_maximum Sample.sqrt
          (Outlier.price_sym_day Sample.spiked_day "AAPL" <$> ["20190328"])
          Outlier.ky_array i' c' →
        i' = i
        ∧ Outlier.k_chosen c' = Outlier.k_chosen c
        ∧ Outlier.y_chosen c' = Outlier.y_chosen c
        ∧ Outlier.out_num c' = Outlier.out_num c
        ∧ Outlier.not_outlier_sym_f c' = Outlier.not_outlier_sym_f c.
Proof.
  apply (C5_first_maximum_chosen Sample.sqrt Outlier.ky_array Sample.spiked_day
           ["20190328"] "AAPL").
  - apply (bool_decide_unpack _). by vm_compute.
  - apply (bool_decide_unpack _). by vm_compute.
Defined.

(** On that day the four window sizes tie at y = 0.02 with two outliers, and
    the points at y = 0.04 and 0.06 find one: the search keeps the first
    point, k = 41 and y = 0.02. *)
Example search_spiked_day :
  (λ ky, match Outlier.dates_loop Sample.sqrt ky.1 ky.2
                 (Outlier.price_sym_day Sample.spiked_day "AAPL" <$> ["20190328"]) 0 []
         with Ok (n, _) => Some n | _ => None end) <$> Outlier.ky_array
  = Some <$> [2; 2; 2; 2; 1; 1; 1; 1; 1; 1; 1; 1]%Z
  ∧ match Outlier.search Sample.sqrt Outlier.ky_array Sample.spiked_day
            ["20190328"] "AAPL" with
    | Ok (Some c) =>
        Some (Outlier.out_num c, this (Outlier.k_chosen c), this (Outlier.y_chosen c))
    | _ => None
    end = Some (2%Z, 41 # 1, 1 # 50).
Proof. split; by vm_compute. Qed.

(** ** The sliding window *)

Section window_facts.
Import Np Outlier.

Lemma sort_sorted (a : list Qc) : StronglySorted Qcle (sort a).
Proof. apply StronglySorted_merge_sort; apply _. Qed.

Lemma sort_permutation (a : list Qc) : sort a ≡ₚ a.
Proof. apply merge_sort_Permutation. Qed.

Lemma sort_unique (a b : list Qc) : a ≡ₚ b → sort a = sort b.
Proof.
  intros H. apply (StronglySorted_unique Qcle); try apply sort_sorted.
  by rewrite !sort_permutation.
Qed.

Lemma sorted_lookup (a : list Qc) :
  StronglySorted Qcle a →
  ∀ i j x y, i ≤ j → a !! i = Some x → a !! j = Some y → (x ≤ y)%Qc.
Proof.
  induction 1 as [|z a Hs IH Hall]; intros i j x y Hij Hi Hj; [done|].
  destruct i as [|i], j as [|j]; simplify_eq/=; try lia.
  - apply Qcle_refl.
  - eapply Forall_forall; [exact Hall|]. by eapply list_elem_of_lookup_2.
  - eapply IH; [|done..]. lia.
Qed.

(** The bisection on a sorted array returns the leftmost insertion point. *)
Lemma binsearch_spec (a : list Qc) (v : Qc) :
  StronglySorted Qcle a →
  ∀ fuel min_idx max_idx,
    max_idx ≤ length a → min_idx ≤ max_idx → max_idx - min_idx ≤ fuel →
    (∀ j x, j < min_idx → a !! j = Some x → (x < v)%Qc) →
    (∀ j x, max_idx ≤ j → a !! j = Some x → (v ≤ x)%Qc) →
    (∀ j x, j < binsearch fuel a v min_idx max_idx → a !! j = Some x → (x < v)%Qc)
    ∧ (∀ j x, binsearch fuel a v min_idx max_idx ≤ j → a !! j = Some x → (v ≤ x)%Qc).
Proof.
  intros Hs. induction fuel as [|fuel IH]; intros lo hi Hhi Hlo Hfuel Hbelow Habove.
  { simpl. replace hi with lo in * by lia. done. }
  cbn [binsearch]. case_bool_decide as Hlt; [|replace hi with lo in * by lia; done].
  set (mid := lo + (hi - lo) / 2).
  assert (lo ≤ mid < hi) as Hmid.
  { unfold mid. pose proof (Nat.Div0.div_le_upper_bound (hi - lo) 2 (hi - lo)).
    assert ((hi - lo) / 2 < hi - lo); [|lia].
    apply Nat.div_lt; lia. }
  destruct (lookup_lt_is_Some_2 a mid) as [mid_val Hval]; [lia|].
  rewrite Hval. case_bool_decide as Hcmp.
  - apply IH; try lia; [|done].
    intros j x Hj Hx. eapply Qcle_lt_trans; [|exact Hcmp].
    eapply (sorted_lookup a Hs j mid); [lia|done..].
  - apply IH; try lia; [done|].
    intros j x Hj Hx. eapply Qcle_trans; [apply Qcnot_lt_le, Hcmp|].
    eapply (sorted_lookup a Hs mid j); [lia|done..].
Qed.

(** In a sorted array that holds [v], [searchsorted] finds [v]. *)
Lemma searchsorted_lookup (a : list Qc) (v : Qc) :
  StronglySorted Qcle a → v ∈ a → a !! searchsorted a v = Some v.
Proof.
  intros Hs Hin. apply list_elem_of_lookup in Hin as [p Hp].
  destruct (binsearch_spec a v Hs (length a) 0 (length a)) as [Hbelow Habove];
    try lia.
  { intros j x Hj Hx. apply lookup_lt_Some in Hx. lia. }
  fold (searchsorted a v) in Hbelow, Habove.
  assert (searchsorted a v ≤ p) as Hle.
  { destruct (decide (searchsorted a v ≤ p)); [done|].
    destruct (Qclt_not_eq _ _ (Hbelow p v ltac:(lia) Hp)). done. }
  destruct (lookup_lt_is_Some_2 a (searchsorted a v)) as [x Hx].
  { apply lookup_lt_Some in Hp. lia. }
  rewrite Hx. f_equal. apply Qcle_antisym.
  - eapply (sorted_lookup a Hs _ p); done.
  - by apply (Habove (searchsorted a v)).
Qed.

End window_facts.

Section rolling_facts.
Import Np Outlier.

Lemma slice_take_drop {A} (a : list A) (b e : Z) :
  (0 ≤ b ≤ e)%Z → (e ≤ Z.of_nat (length a))%Z →
  slice a b e = take (Z.to_nat (e - b)) (drop (Z.to_nat b) a).
Proof.
  intros Hb He. unfold slice, clip.
  rewrite !bool_decide_false by lia.
  rewrite !Z.min_l by lia. f_equal. lia.
Qed.

Lemma setitem_in {A} (a : list A) (i : nat) (v : A) :
  i < length a → setitem a (Z.of_nat i) v = Ok (<[i := v]> a).
Proof.
  intros H. unfold setitem. rewrite position_in by lia. simpl.
  by rewrite Nat2Z.id.
Qed.

Lemma loc_in {A} (s : list A) (i : nat) (x : A) :
  s !! i = Some x → loc s (Z.of_nat i) = Ok x.
Proof.
  intros H. unfold loc. rewrite bool_decide_true by lia.
  by rewrite Nat2Z.id, H.
Qed.

(** One step of the window: from the sorted prices at positions [b, b + w)
    to the sorted prices at positions [b + 1, b + w + 1). *)
Lemma advance_window (prices : list Qc) (b w : nat) (leaving entering : Qc) :
  0 < w →
  prices !! b = Some leaving →
  prices !! (b + w) = Some entering →
  setitem (sort (take w (drop b prices)))
    (Z.of_nat (searchsorted (sort (take w (drop b prices))) leaving)) entering
    ≫= (λ window, mret (sort window))
  = Ok (sort (take w (drop (S b) prices))).
Proof.
  intros Hw Hl He. destruct w as [|w]; [lia|].
  set (window := sort (take (S w) (drop b prices))).
  assert (take (S w) (drop b prices) = leaving :: take w (drop (S b) prices)) as Hold.
  { by rewrite (drop_S _ _ _ Hl). }
  assert (take (S w) (drop (S b) prices) = take w (drop (S b) prices) ++ [entering])
    as Hnew.
  { apply take_S_r. rewrite lookup_drop. rewrite <- He. f_equal. lia. }
  assert (leaving ∈ window) as Hin.
  { unfold window. rewrite sort_permutation, Hold. by left. }
  pose proof (searchsorted_lookup window leaving (sort_sorted _) Hin) as Hidx.
  pose proof (lookup_lt_Some _ _ _ Hidx) as Hlt.
  rewrite setitem_in by done. simpl. f_equal.
  apply sort_unique. rewrite Hnew.
  rewrite insert_take_drop by done.
  rewrite <- Permutation_middle, <- Permutation_cons_append. apply perm_skip.
  apply (Permutation_cons_inv (a := leaving)).
  etrans; [apply Permutation_middle|].
  rewrite (take_drop_middle _ _ _ Hidx).
  unfold window. by rewrite sort_permutation, Hold.
Qed.

Lemma advance_spec (prices : list Qc) (c i : nat) :
  c ≤ i → i + c + 1 < length prices →
  advance prices (Z.of_nat c) (Z.of_nat i)
    (sort (take (2 * c + 1) (drop (i - c) prices)))
  = Ok (sort (take (2 * c + 1) (drop (S i - c) prices))).
Proof.
  intros Hc Hn. unfold advance.
  destruct (lookup_lt_is_Some_2 prices (i - c)) as [leaving Hl]; [lia|].
  destruct (lookup_lt_is_Some_2 prices (i - c + (2 * c + 1))) as [entering He]; [lia|].
  replace (Z.of_nat i - Z.of_nat c)%Z with (Z.of_nat (i - c)) by lia.
  rewrite (loc_in _ _ _ Hl). cbn [mbind result_bind Py.bind].
  replace (Z.of_nat i + Z.of_nat c + 1)%Z with (Z.of_nat (i - c + (2 * c + 1))) by lia.
  rewrite (loc_in _ _ _ He). cbn [mbind result_bind Py.bind].
  replace (S i - c) with (S (i - c)) by lia.
  by apply advance_window; [lia|..].
Qed.

(** The loop from position [i] on, entered with the sorted window of [i]. *)
Lemma rolling_from {B} (stat : list Qc → B) (prices : list Qc) (c : nat) :
  ∀ m i rolled,
    i + m + c = length prices → c ≤ i → length rolled = length prices →
    rolling stat prices (Z.of_nat c) (Z.of_nat (length prices) - Z.of_nat c)
      ((λ j : nat, Z.of_nat (i + j)) <$> seq 0 m)
      (sort (take (2 * c + 1) (drop (i - c) prices))) rolled
    = Ok (take i rolled
          ++ ((λ j, stat (sort (take (2 * c + 1) (drop (j - c) prices)))) <$> seq i m)
          ++ drop (i + m) rolled).
Proof.
  induction m as [|m IH]; intros i rolled Hn Hc Hlen.
  { simpl. by rewrite Nat.add_0_r, take_drop. }
  cbn [seq fmap list_fmap rolling]. rewrite Nat.add_0_r.
  rewrite setitem_in by lia. cbn [mbind result_bind Py.bind].
  rewrite <- fmap_S_seq, <- list_fmap_compose.
  destruct m as [|m].
  - rewrite bool_decide_false by lia. simpl.
    rewrite insert_take_drop by lia. by replace (i + 1) with (S i) by lia.
  - rewrite bool_decide_true by lia.
    rewrite advance_spec by lia. cbn [mbind result_bind Py.bind].
    erewrite (list_fmap_ext _ (λ j : nat, Z.of_nat (S i + j)));
      [|intros ? j ?; simpl; f_equal; lia].
    rewrite IH; [|lia|lia|by rewrite length_insert].
    f_equal. rewrite (take_S_r _ _ (stat (sort (take (2 * c + 1) (drop (i - c) prices))))).
    2:{ apply list_lookup_insert_eq. lia. }
    rewrite take_insert_ge by lia. rewrite drop_insert_lt by lia.
    rewrite <- app_assoc. replace (S i + S m) with (i + S (S m)) by lia. done.
Qed.

(** The loop of lines 414-423 for an odd window size [2c + 1] on a day of at
    least that many trades: it does not raise, and the statistic stored at
    position [i] is read off the sorted slice of the prices at positions
    [i - c, i + c]. *)
Lemma rolling_sorted_slices {B} (stat : list Qc → B) (b0 : B) (prices : list Qc)
    (c : nat) :
  2 * c + 1 ≤ length prices →
  rolling stat prices (Z.of_nat c) (Z.of_nat (length prices) - Z.of_nat c)
    (range (Z.of_nat c) (Z.of_nat (length prices) - Z.of_nat c))
    (sort (slice prices 0 (Z.of_nat (2 * c + 1))))
    (replicate (length prices) b0)
  = Ok (replicate c b0
        ++ ((λ i : Z, stat (sort (slice prices (i - Z.of_nat c)
                                    (i - Z.of_nat c + Z.of_nat (2 * c + 1)))))
              <$> range (Z.of_nat c) (Z.of_nat (length prices) - Z.of_nat c))
        ++ replicate c b0).
Proof.
  intros Hn.
  assert (range (Z.of_nat c) (Z.of_nat (length prices) - Z.of_nat c)
          = (λ j : nat, Z.of_nat (c + j)) <$> seq 0 (length prices - 2 * c)) as Hrange.
  { unfold range.
    replace (Z.to_nat (Z.of_nat (length prices) - Z.of_nat c - Z.of_nat c))
      with (length prices - 2 * c) by lia.
    apply list_fmap_ext. intros ? j ?. lia. }
  pose proof (rolling_from stat prices c (length prices - 2 * c) c
                (replicate (length prices) b0)) as Hroll.
  rewrite Nat.sub_diag, drop_0 in Hroll.
  rewrite Hrange, slice_take_drop by lia.
  replace (Z.to_nat (Z.of_nat (2 * c + 1) - 0)) with (2 * c + 1) by lia.
  change (Z.to_nat 0) with 0. rewrite drop_0.
  rewrite Hroll; [|lia|lia|by rewrite length_replicate].
  rewrite take_replicate, drop_replicate.
  replace (c `min` length prices) with c by lia.
  replace (length prices - (c + (length prices - 2 * c))) with c by lia.
  do 2 f_equal. rewrite <- list_fmap_compose. f_equal.
  assert (seq c (length prices - 2 * c)
          = Nat.add c <$> seq 0 (length prices - 2 * c)) as ->
    by (by rewrite fmap_add_seq, Nat.add_0_r).
  rewrite <- list_fmap_compose.
  apply list_fmap_ext. intros ? j Hj. simpl.
  apply lookup_seq in Hj as [-> Hj].
  rewrite slice_take_drop by lia. do 2 f_equal. f_equal; [lia|f_equal; lia].
Qed.

End rolling_facts.

Lemma k_list_odd :
  Forall (λ k, (0 ≤ Outlier.center_beg k)%Z
               ∧ Py.int k = (2 * Outlier.center_beg k + 1)%Z) Outlier.k_list.
Proof. apply (bool_decide_unpack _). by vm_compute. Qed.

(** C6.  For a window size [k] of the grid and a day of at least [k]
    trades, the loop of lines 414-423 does not raise, and what it stores at
    each position [i] of [center_beg, center_end) is read off the sorted
    slice of the [k] prices centred at [i]: the window kept by bisection,
    overwriting and re-sorting is the window sorted from scratch.  (With
    the identity for [stat] the stored value is the window itself; the
    script stores the trimmed mean and standard deviation.) *)
Theorem C6_window_is_sorted_slice {B} (stat : list Qc → B) (b0 : B) (k : Qc)
    (prices : list Qc) :
  k ∈ Outlier.k_list →
  (Py.int k ≤ Z.of_nat (length prices))%Z →
  Outlier.rolling stat prices (Outlier.center_beg k)
    (Z.of_nat (length prices) - Outlier.center_beg k)
    (range (Outlier.center_beg k) (Z.of_nat (length prices) - Outlier.center_beg k))
    (Np.sort (Np.slice prices 0 (Py.int k)))
    (replicate (length prices) b0)
  = Ok (replicate (Z.to_nat (Outlier.center_beg k)) b0
        ++ ((λ i : Z, stat (Np.sort (Np.slice prices (i - Outlier.center_beg k)
                                       (i - Outlier.center_beg k + Py.int k))))
              <$> range (Outlier.center_beg k)
                    (Z.of_nat (length prices) - Outlier.center_beg k))
        ++ replicate (Z.to_nat (Outlier.center_beg k)) b0).
Proof.
  intros Hk Hn.
  destruct (proj1 (Forall_forall _ _) k_list_odd _ Hk) as [Hc Hodd].
  rewrite Hodd in *.
  rewrite <- (Z2Nat.id (Outlier.center_beg k)) by done.
  replace (2 * Z.of_nat (Z.to_nat (Outlier.center_beg k)) + 1)%Z
    with (Z.of_nat (2 * Z.to_nat (Outlier.center_beg k) + 1)) by lia.
  rewrite Nat2Z.id.
  apply rolling_sorted_slices. lia.
Qed.

(** C6 on the prices of the day of 120 trades, with k = 41. *)
Lemma C6_window_is_sorted_slice_witness :
  let k := Np.of_Z 41 in
  let prices := Query.price <$> Sample.spiked_day in
  Outlier.rolling id prices (Outlier.center_beg k)
    (Z.of_nat (length prices) - Outlier.center_beg k)
    (range (Outlier.center_beg k) (Z.of_nat (length prices) - Outlier.center_beg k))
    (Np.sort (Np.slice prices 0 (Py.int k)))
    (replicate (length prices) [])
  = Ok (replicate (Z.to_nat (Outlier.center_beg k)) []
        ++ ((λ i : Z, id (Np.sort (Np.slice prices (i - Outlier.center_beg k)
                                     (i - Outlier.center_beg k + Py.int k))))
              <$> range (Outlier.center_beg k)
                    (Z.of_nat (length prices) - Outlier.center_beg k))
        ++ replicate (Z.to_nat (Outlier.center_beg k)) []).
Proof.
  intros k prices. apply (C6_window_is_sorted_slice id [] k prices).
  - apply (bool_decide_unpack _). by vm_compute.
  - vm_compute. discriminate.
Defined.

(** ** Gap filling *)

Section gap_fill_facts.
Import Np Resample.

Lemma length_bfill (y : list float) : length (bfill y) = length y.
Proof. induction y as [|[v|] y IH]; simpl; by rewrite ?IH. Qed.

Lemma length_interpolate (y : list float) : length (interpolate y) = length y.
Proof. unfold interpolate. destruct (valid y) as [|[] ?]; by rewrite ?length_imap. Qed.

Lemma length_gap_fill (y : list float) : length (gap_fill y) = length y.
Proof. unfold gap_fill. by rewrite length_bfill, length_interpolate. Qed.

(** Back-fill keeps the values that are there. *)
Lemma bfill_valid (y : list float) :
  ∀ i v, y !! i = Some (Some v) → bfill y !! i = Some (Some v).
Proof.
  induction y as [|w y IH]; intros i v Hi; [done|].
  destruct i as [|i]; simpl in *.
  - simplify_eq. done.
  - destruct w; simpl; by apply IH.
Qed.

(** Back-fill leaves no NaN before a value that is there. *)
Lemma bfill_before (y : list float) :
  ∀ i j v, y !! j = Some (Some v) → i ≤ j → ∃ p, bfill y !! i = Some (Some p).
Proof.
  induction y as [|w y IH]; intros i j v Hj Hij; [done|].
  destruct i as [|i].
  - destruct w as [p|]; simpl; [by exists p|].
    destruct j as [|j]; [done|]. simpl in Hj.
    destruct (IH 0 j v Hj) as [p Hp]; [lia|]. exists p.
    destruct (bfill y); simplify_eq/=. done.
  - destruct j as [|j]; [lia|]. simpl in Hj.
    destruct (IH i j v Hj) as [p Hp]; [lia|]. exists p.
    destruct w; simpl; done.
Qed.

(** The valid points of a segment whose first position is [n]. *)
#[local] Abbreviation valid_from n y :=
  (omap (λ iv : nat * float, (λ v, (Z.of_nat iv.1, v)) <$> iv.2)
     (imap (λ i, pair (n + i)) y)).

Lemma valid_valid_from (y : list float) : valid y = valid_from 0 y.
Proof. done. Qed.

Lemma valid_from_app n (y1 y2 : list float) :
  valid_from n (y1 ++ y2) = valid_from n y1 ++ valid_from (n + length y1) y2.
Proof.
  rewrite imap_app, omap_app. do 2 f_equal.
  apply imap_ext. intros i x _. f_equal. lia.
Qed.

Lemma valid_from_nan n (y : list float) :
  Forall (λ v, v = nan) y → valid_from n y = [].
Proof.
  revert n. induction y as [|v y IH]; intros n Hy; [done|].
  apply Forall_cons in Hy as [-> Hy]. simpl.
  rewrite <- (IH (S n) Hy). f_equal. apply imap_ext. intros i x _. simpl. f_equal. lia.
Qed.

Lemma valid_from_bound n (y : list float) p :
  p ∈ valid_from n y → (Z.of_nat n ≤ p.1 < Z.of_nat (n + length y))%Z.
Proof.
  intros Hp. apply list_elem_of_omap in Hp as ([i w] & Hin & Hw).
  apply elem_of_lookup_imap in Hin as (j & w' & Heq & Hj). simplify_eq/=.
  apply lookup_lt_Some in Hj. destruct w'; simplify_eq/=. lia.
Qed.

(** Beyond the last point [np.interp] is constant. *)
Lemma interp_after (x : Z) (points : list (Z * Qc)) (xl : Z) (fl : Qc) :
  (∀ p, p ∈ points → (p.1 < x)%Z) → (xl < x)%Z →
  interp x (points ++ [(xl, fl)]) = fl.
Proof.
  induction points as [|[x0 f0] points IH]; intros Hall Hxl; [done|].
  cbn [app interp].
  destruct (points ++ [(xl, fl)]) as [|[x1 f1] rest] eqn:E.
  { by destruct points. }
  assert ((x0 < x)%Z) by (apply (Hall (x0, f0)); by left).
  assert ((x1 < x)%Z).
  { destruct points as [|[x1' f1'] points]; simplify_eq/=; [done|].
    apply (Hall (x1, f1)). right. by left. }
  rewrite !bool_decide_false by lia.
  apply IH; [|done]. intros p Hp. apply Hall. by right.
Qed.

(** A value followed by NaN only: interpolation and back-fill carry it to
    the end. *)
Lemma gap_fill_trailing (y : list float) (j : nat) (v : Qc) :
  y !! j = Some (Some v) →
  (∀ i, j < i → i < length y → y !! i = Some nan) →
  ∀ i, j ≤ i → i < length y → gap_fill y !! i = Some (Some v).
Proof.
  intros Hj Hnan i Hji Hi.
  assert (y = take j y ++ [Some v] ++ drop (S j) y) as Hy.
  { by rewrite <- (take_drop_middle _ _ _ Hj) at 1. }
  assert (Forall (λ w, w = nan) (drop (S j) y)) as Htail.
  { apply Forall_lookup. intros i' w Hw. rewrite lookup_drop in Hw.
    rewrite Hnan in Hw; [by simplify_eq|lia|].
    apply lookup_lt_Some in Hw. lia. }
  assert (length (take j y) = j) as Hlen.
  { apply lookup_lt_Some in Hj. rewrite length_take. lia. }
  assert (valid y = valid_from 0 (take j y) ++ [(Z.of_nat j, v)]) as Hvalid.
  { rewrite valid_valid_from. rewrite Hy at 1.
    rewrite !valid_from_app, (valid_from_nan _ _ Htail), app_nil_r.
    rewrite Hlen. simpl. by rewrite Nat.add_0_r. }
  assert (∀ p, p ∈ valid_from 0 (take j y) → (p.1 < Z.of_nat j)%Z) as Hbefore.
  { intros p Hp. apply valid_from_bound in Hp. rewrite Hlen in Hp. lia. }
  unfold gap_fill. apply bfill_valid.
  destruct (decide (i = j)) as [->|Hne].
  - unfold interpolate. rewrite Hvalid.
    destruct (valid_from 0 (take j y) ++ [(Z.of_nat j, v)]) as [|[] ?] eqn:E.
    { by destruct (valid_from 0 (take j y)). }
    by rewrite list_lookup_imap, Hj.
  - unfold interpolate. rewrite Hvalid.
    destruct (valid_from 0 (take j y) ++ [(Z.of_nat j, v)]) as [|[x0 f0] rest] eqn:E.
    { by destruct (valid_from 0 (take j y)). }
    rewrite list_lookup_imap, Hnan by lia. cbn [fmap option_fmap option_map].
    assert ((x0 ≤ Z.of_nat j)%Z) as Hx0.
    { destruct (valid_from 0 (take j y)) as [|p ps] eqn:E'; simplify_eq/=; [lia|].
      pose proof (Hbefore (x0, f0)) as H. simpl in H.
      assert ((x0 < Z.of_nat j)%Z); [|lia]. apply H. by left. }
    rewrite bool_decide_false by lia. do 2 f_equal.
    rewrite <- E. apply interp_after; [|lia].
    intros p Hp. apply Hbefore in Hp. lia.
Qed.

(** When some value is there, gap filling leaves no NaN. *)
Lemma gap_fill_full (y : list float) (j : nat) (v : Qc) :
  y !! j = Some (Some v) →
  ∀ i, i < length y → ∃ p, gap_fill y !! i = Some (Some p).
Proof.
  intros Hj i Hi.
  assert ((Z.of_nat j, v) ∈ valid y) as Hin.
  { apply list_elem_of_omap. exists (j, Some v). split; [|done].
    apply elem_of_lookup_imap. by exists j, (Some v). }
  destruct (valid y) as [|[x0 f0] rest] eqn:E; [by apply elem_of_nil in Hin|].
  assert ((x0, f0) ∈ valid y) as H0 by (rewrite E; by left).
  apply list_elem_of_omap in H0 as ([f w] & Hf & Hw).
  apply elem_of_lookup_imap in Hf as (f' & w' & Heq & Hf). simplify_eq/=.
  destruct w' as [w|]; simplify_eq/=.
  assert (∀ i', f' ≤ i' → i' < length y → ∃ p, interpolate y !! i' = Some (Some p))
    as Hafter.
  { intros i' Hle Hlt. unfold interpolate. rewrite E.
    destruct (lookup_lt_is_Some_2 y i' Hlt) as [[p|] Hp];
      rewrite list_lookup_imap, Hp; simpl; [by exists p|].
    rewrite bool_decide_false by lia. by eexists. }
  unfold gap_fill. destruct (decide (f' ≤ i)) as [Hle|Hgt].
  - destruct (Hafter i Hle Hi) as [p Hp]. exists p. by apply bfill_valid.
  - destruct (Hafter f') as [p Hp]; [lia|by eapply lookup_lt_Some|].
    eapply bfill_before; [exact Hp|lia].
Qed.

End gap_fill_facts.

Lemma interp_between (x x0 x1 : Z) (f0 f1 : Qc) (rest : list (Z * Qc)) :
  (x0 < x < x1)%Z →
  Resample.interp x ((x0, f0) :: (x1, f1) :: rest)
  = ((f1 - f0) / (Np.of_Z x1 - Np.of_Z x0) * (Np.of_Z x - Np.of_Z x0) + f0)%Qc.
Proof.
  intros H. cbn [Resample.interp]. rewrite bool_decide_false by lia.
  by rewrite bool_decide_true by lia.
Qed.

Lemma linear_step (a b p q : Qc) :
  (p / Q2Qc 4 = q → (b - a) / Q2Qc 4 * p + a = a + (b - a) * q)%Qc.
Proof. intros <-. field. apply (bool_decide_unpack _). by vm_compute. Qed.

(** C4.  With prices [a] and [b] at positions 0 and 4 and gaps at 1, 2, 3,
    gap filling gives [a + (b - a) * i / 4] at position [i]; had back-fill
    run before the interpolation, the three gaps would hold [b].  With a
    gap at position 0 and the first price at position 1, the interpolation
    leaves the gap and back-fill sets it to the price at position 1. *)
Theorem C4_interpolate_then_bfill (a b : Qc) (rest : list float) :
  Resample.gap_fill [Some a; None; None; None; Some b]
  = [Some a; Some (a + (b - a) * Q2Qc (1 # 4))%Qc; Some (a + (b - a) * Q2Qc (2 # 4))%Qc;
     Some (a + (b - a) * Q2Qc (3 # 4))%Qc; Some b]
  ∧ Resample.interpolate (Resample.bfill [Some a; None; None; None; Some b])
    = [Some a; Some b; Some b; Some b; Some b]
  ∧ ∃ tail,
      Resample.interpolate (None :: Some b :: rest) = None :: Some b :: tail
      ∧ Resample.gap_fill (None :: Some b :: rest)
        = Some b :: Some b :: Resample.bfill tail.
Proof.
  split; [|split].
  - change (Resample.gap_fill [Some a; None; None; None; Some b]) with
      [Some a; Some (Resample.interp 1 [(0%Z, a); (4%Z, b)]);
       Some (Resample.interp 2 [(0%Z, a); (4%Z, b)]);
       Some (Resample.interp 3 [(0%Z, a); (4%Z, b)]); Some b].
    rewrite !interp_between by lia.
    assert (Np.of_Z 4 - Np.of_Z 0 = Q2Qc 4)%Qc as ->
      by (apply Qc_is_canon; reflexivity).
    rewrite (linear_step a b _ (Q2Qc (1 # 4))) by (apply Qc_is_canon; reflexivity).
    rewrite (linear_step a b _ (Q2Qc (2 # 4))) by (apply Qc_is_canon; reflexivity).
    rewrite (linear_step a b _ (Q2Qc (3 # 4))) by (apply Qc_is_canon; reflexivity).
    done.
  - reflexivity.
  - eexists. unfold Resample.gap_fill, Resample.interpolate.
    cbn. rewrite !bool_decide_true by lia. split; reflexivity.
Qed.

(** ** The grid, the bins and the join *)

Section resample_facts.
Import Np Resample.

Lemma length_date_range (start end_ freq : Z) :
  length (date_range start end_ freq) = Z.to_nat ((end_ - start) / freq + 1).
Proof. unfold date_range. by rewrite length_fmap, length_seq. Qed.

Lemma lookup_date_range (start end_ freq : Z) (i : nat) (t : Z) :
  date_range start end_ freq !! i = Some t
  ↔ t = (start + Z.of_nat i * freq)%Z ∧ i < Z.to_nat ((end_ - start) / freq + 1).
Proof.
  unfold date_range. rewrite list_lookup_fmap. split.
  - intros H. destruct (seq 0 _ !! i) as [j|] eqn:E; simplify_eq/=.
    apply lookup_seq in E as [-> ?]. done.
  - intros [-> H]. by rewrite lookup_seq_lt.
Qed.

Lemma elem_of_date_range (start end_ freq t : Z) :
  (0 < freq)%Z →
  t ∈ date_range start end_ freq
  ↔ (start ≤ t ≤ end_)%Z ∧ ((t - start) mod freq = 0)%Z.
Proof.
  intros Hf. rewrite list_elem_of_lookup. split.
  - intros [i Hi]. apply lookup_date_range in Hi as [-> Hi].
    assert (Z.of_nat i ≤ (end_ - start) / freq)%Z as Hle by lia.
    pose proof (Z.mul_div_le (end_ - start) freq Hf).
    split; [nia|].
    replace (start + Z.of_nat i * freq - start)%Z with (Z.of_nat i * freq)%Z by lia.
    apply Z.mod_mul. lia.
  - intros [[Hs He] Hmod].
    apply Z.mod_divide in Hmod as [q Hq]; [|lia].
    assert (0 ≤ q)%Z by nia.
    exists (Z.to_nat q). apply lookup_date_range. split; [lia|].
    assert (q ≤ (end_ - start) / freq)%Z; [|lia].
    apply Z.div_le_lower_bound; [done|]. nia.
Qed.

(** The label of a bin is the multiple of [freq] at or after the time. *)
Lemma bin_label_spec (freq t : Z) :
  (0 < freq)%Z →
  (bin_label freq t mod freq = 0)%Z ∧ (t ≤ bin_label freq t < t + freq)%Z.
Proof.
  intros Hf. unfold bin_label, bin_edges. simpl.
  pose proof (Z.mod_pos_bound t freq Hf) as Hb.
  pose proof (Z.div_mod t freq ltac:(lia)) as Hd.
  case_bool_decide as Hoff.
  - split; [|lia].
    replace (t + (freq - t mod freq))%Z with ((t / freq + 1) * freq)%Z by nia.
    apply Z.mod_mul. lia.
  - split; [|lia]. lia.
Qed.

Lemma multiple_ge_label (freq t g : Z) :
  (0 < freq)%Z → (g mod freq = 0)%Z → (t ≤ g)%Z → (bin_label freq t ≤ g)%Z.
Proof.
  intros Hf Hg Hle. destruct (bin_label_spec freq t Hf) as [Hm Hb].
  apply Z.mod_divide in Hg as [q Hq]; [|lia].
  apply Z.mod_divide in Hm as [q' Hq']; [|lia].
  assert (q' ≤ q)%Z; [|nia].
  apply Z.lt_succ_r, (Z.mul_lt_mono_pos_r freq); lia.
Qed.

Lemma bin_label_mono (freq t t' : Z) :
  (0 < freq)%Z → (t ≤ t')%Z → (bin_label freq t ≤ bin_label freq t')%Z.
Proof.
  intros Hf Hle. destruct (bin_label_spec freq t' Hf) as [Hm Hb].
  apply multiple_ge_label; [done..|lia].
Qed.

Lemma in_bin_label (freq : Z) (r : Query.trade) :
  (0 < freq)%Z → in_bin freq (bin_label freq (Query.time_m r)) r.
Proof.
  intros Hf. destruct (bin_label_spec freq (Query.time_m r) Hf). unfold in_bin. lia.
Qed.

Lemma in_bin_unique (freq label : Z) (r : Query.trade) :
  (0 < freq)%Z → (label mod freq = 0)%Z → in_bin freq label r →
  label = bin_label freq (Query.time_m r).
Proof.
  intros Hf Hl Hin. unfold in_bin in Hin.
  destruct (bin_label_spec freq (Query.time_m r) Hf) as [Hm Hb].
  apply Z.mod_divide in Hl as [q Hq]; [|lia].
  apply Z.mod_divide in Hm as [q' Hq']; [|lia].
  assert (q ≤ q')%Z by (apply Z.lt_succ_r, (Z.mul_lt_mono_pos_r freq); lia).
  assert (q' ≤ q)%Z by (apply Z.lt_succ_r, (Z.mul_lt_mono_pos_r freq); lia).
  rewrite Hq, Hq'. f_equal. lia.
Qed.

Lemma minimum_spec (zs : list Z) :
  (∀ z, z ∈ zs → (minimum zs ≤ z)%Z) ∧ (zs ≠ [] → minimum zs ∈ zs).
Proof.
  unfold minimum. destruct zs as [|z0 zs]; [split; [by intros ? ?%elem_of_nil|done]|].
  change (default 0%Z (head (z0 :: zs))) with z0.
  assert (∀ d l, (foldr Z.min d l ≤ d)%Z
                 ∧ (∀ z, z ∈ l → (foldr Z.min d l ≤ z)%Z)
                 ∧ (foldr Z.min d l = d ∨ foldr Z.min d l ∈ l)) as H.
  { intros d l. induction l as [|a l (IH1 & IH2 & IH3)]; simpl.
    - split; [lia|]. split; [by intros ? ?%elem_of_nil|by left].
    - split; [lia|]. split.
      + intros z [->|Hz]%elem_of_cons; [lia|]. specialize (IH2 z Hz). lia.
      + destruct (Z.min_spec a (foldr Z.min d l)) as [[_ ->]|[_ ->]].
        * right. by left.
        * destruct IH3 as [->|?]; [by left|]. right. by right. }
  destruct (H z0 (z0 :: zs)) as (_ & H2 & H3). split; [done|].
  intros _. destruct H3 as [H3|H3]; [|done]. rewrite H3. by left.
Qed.

Lemma maximum_spec (zs : list Z) :
  (∀ z, z ∈ zs → (z ≤ maximum zs)%Z) ∧ (zs ≠ [] → maximum zs ∈ zs).
Proof.
  unfold maximum. destruct zs as [|z0 zs]; [split; [by intros ? ?%elem_of_nil|done]|].
  change (default 0%Z (head (z0 :: zs))) with z0.
  assert (∀ d l, (d ≤ foldr Z.max d l)%Z
                 ∧ (∀ z, z ∈ l → (z ≤ foldr Z.max d l)%Z)
                 ∧ (foldr Z.max d l = d ∨ foldr Z.max d l ∈ l)) as H.
  { intros d l. induction l as [|a l (IH1 & IH2 & IH3)]; simpl.
    - split; [lia|]. split; [by intros ? ?%elem_of_nil|by left].
    - split; [lia|]. split.
      + intros z [->|Hz]%elem_of_cons; [lia|]. specialize (IH2 z Hz). lia.
      + destruct (Z.max_spec a (foldr Z.max d l)) as [[_ ->]|[_ ->]].
        * destruct IH3 as [->|?]; [by left|]. right. by right.
        * right. by left. }
  destruct (H z0 (z0 :: zs)) as (_ & H2 & H3). split; [done|].
  intros _. destruct H3 as [H3|H3]; [|done]. rewrite H3. by left.
Qed.

(** The labels run from the bin of the earliest row to the bin of the
    latest. *)
Lemma labels_range (freq : Z) (df : list Query.trade) :
  df ≠ [] →
  labels freq df
  = date_range (bin_label freq (minimum (Query.time_m <$> df)))
      (bin_label freq (maximum (Query.time_m <$> df))) freq.
Proof.
  intros Hne. unfold labels, bin_label, bin_edges.
  destruct df as [|r df]; [done|]. simpl.
  f_equal. case_bool_decide; lia.
Qed.

Lemma elem_of_labels (freq : Z) (df : list Query.trade) (t : Z) :
  (0 < freq)%Z →
  t ∈ labels freq df
  ↔ df ≠ [] ∧ (t mod freq = 0)%Z
    ∧ (bin_label freq (minimum (Query.time_m <$> df)) ≤ t
       ≤ bin_label freq (maximum (Query.time_m <$> df)))%Z.
Proof.
  intros Hf. destruct (decide (df = [])) as [->|Hne].
  { simpl. split; [by intros ?%elem_of_nil|by intros [? _]]. }
  rewrite labels_range by done. rewrite elem_of_date_range by done.
  destruct (bin_label_spec freq (minimum (Query.time_m <$> df)) Hf) as [Hm _].
  apply Z.mod_divide in Hm as [q Hq]; [|lia]. rewrite Hq.
  split.
  - intros [Hb Hmod]. split; [done|]. split; [|lia].
    apply Z.mod_divide in Hmod as [q' Hq']; [|lia].
    apply Z.mod_divide; [lia|]. exists (q' + q)%Z. lia.
  - intros (_ & Hmod & Hb). split; [lia|].
    apply Z.mod_divide in Hmod as [q' Hq']; [|lia].
    apply Z.mod_divide; [lia|]. exists (q' - q)%Z. lia.
Qed.

Lemma join_joined (freq : Z) (df : list Query.trade) (grid : list Z) :
  join grid (resample freq df) = joined freq df <$> grid.
Proof.
  unfold join. apply list_fmap_ext. intros _ t _. unfold joined, resample.
  rewrite list_find_fmap.
  destruct (list_find _ (labels freq df)) as [[i l]|] eqn:E; simpl.
  - apply list_find_Some in E as (Hi & Hl & _). simpl in Hl. subst l.
    rewrite bool_decide_true; [done|]. by eapply list_elem_of_lookup_2.
  - apply list_find_None in E. rewrite bool_decide_false; [done|].
    intros Hin. by eapply (proj1 (Forall_forall _ _) E).
Qed.

End resample_facts.

Section resample_day_facts.
Import Np Resample.
Context (freq start_time end_time : Z) (df : list Query.trade).

#[local] Abbreviation grid := (date_range start_time end_time freq).
#[local] Abbreviation column := (price <$> (joined freq df <$> grid)).

Lemma resample_day_joined :
  resample_day freq start_time end_time df
  = zip_with (λ r p, {| index := index r; price := p; size := size r |})
      (joined freq df <$> grid) (gap_fill column).
Proof. unfold resample_day. by rewrite join_joined. Qed.

Lemma index_joined t : index (joined freq df t) = t.
Proof. unfold joined. by case_bool_decide. Qed.

Lemma lookup_column i :
  column !! i = (λ t, price (joined freq df t)) <$> grid !! i.
Proof. rewrite !list_lookup_fmap. by destruct (grid !! i). Qed.

Lemma length_column : length column = length grid.
Proof. by rewrite !length_fmap. Qed.

(** The row at position [i]: the grid timestamp, the gap-filled price, and
    the size of the join. *)
Lemma lookup_resample_day i r :
  resample_day freq start_time end_time df !! i = Some r
  ↔ ∃ t p, grid !! i = Some t ∧ gap_fill column !! i = Some p
           ∧ r = {| index := t; price := p; size := size (joined freq df t) |}.
Proof.
  rewrite resample_day_joined, lookup_zip_with_Some. split.
  - intros (x & p & -> & Hx & Hp).
    rewrite list_lookup_fmap in Hx. destruct (grid !! i) as [t|]; simplify_eq/=.
    exists t, p. by rewrite index_joined.
  - intros (t & p & Ht & Hp & ->). exists (joined freq df t), p.
    rewrite index_joined, list_lookup_fmap, Ht. done.
Qed.

Lemma length_resample_day :
  length (resample_day freq start_time end_time df) = length grid.
Proof.
  rewrite resample_day_joined, length_zip_with, length_gap_fill, length_column.
  rewrite length_fmap. lia.
Qed.

Lemma index_resample_day :
  index <$> resample_day freq start_time end_time df = grid.
Proof.
  apply list_eq. intros i. rewrite list_lookup_fmap.
  destruct (resample_day freq start_time end_time df !! i) as [r|] eqn:E; simpl.
  - apply lookup_resample_day in E as (t & p & Ht & _ & ->). by rewrite Ht.
  - apply lookup_ge_None in E. rewrite length_resample_day in E.
    symmetry. by apply lookup_ge_None.
Qed.

(** The price that the join puts at the label of the bin of a row is not
    NaN. *)
Lemma price_joined_label o :
  (0 < freq)%Z → o ∈ df →
  ∃ p, price (joined freq df (bin_label freq (Query.time_m o))) = Some p.
Proof.
  intros Hf Ho. unfold joined.
  destruct (minimum_spec (Query.time_m <$> df)) as [Hmin _].
  destruct (maximum_spec (Query.time_m <$> df)) as [Hmax _].
  assert (Query.time_m o ∈ Query.time_m <$> df) as Hin
    by (apply list_elem_of_fmap; by exists o).
  rewrite bool_decide_true.
  2:{ apply elem_of_labels; [done|]. split; [by intros ->; apply elem_of_nil in Ho|].
      split; [by apply bin_label_spec|].
      split; apply bin_label_mono; auto. }
  simpl. apply last_is_Some. intros Hnil.
  apply fmap_nil_inv in Hnil.
  assert (o ∈ filter (in_bin freq (bin_label freq (Query.time_m o))) df) as Hf'.
  { apply list_elem_of_filter. split; [by apply in_bin_label|done]. }
  rewrite Hnil in Hf'. by apply elem_of_nil in Hf'.
Qed.

End resample_day_facts.

(** On a grid that starts at a multiple of the step, the bin of an
    observation between the start and a grid timestamp is labelled by a
    grid timestamp. *)
Lemma label_on_aligned_grid (freq start_time end_time : Z) (o : Query.trade) (g : Z) :
  (0 < freq)%Z → (start_time mod freq = 0)%Z →
  g ∈ Resample.date_range start_time end_time freq →
  (start_time ≤ Query.time_m o ≤ g)%Z →
  Resample.bin_label freq (Query.time_m o)
    ∈ Resample.date_range start_time end_time freq.
Proof.
  intros Hf Hs Hg Ho.
  apply elem_of_date_range in Hg as [Hb Hm]; [|done].
  destruct (bin_label_spec freq (Query.time_m o) Hf) as [Hl Hlb].
  assert ((g mod freq = 0)%Z) as Hgm.
  { replace g with ((g - start_time) + start_time)%Z by lia.
    by rewrite Z.add_mod, Hm, Hs by lia. }
  pose proof (multiple_ge_label freq (Query.time_m o) g Hf Hgm ltac:(lia)).
  apply elem_of_date_range; [done|]. split; [lia|].
  by rewrite Zminus_mod, Hl, Hs.
Qed.

(** C1, as the script has it.  The resampled day has one row for each
    timestamp of the grid, [floor((end_time - start_time) / freq) + 1] of
    them, in the order of the grid.  After gap filling no price is missing
    when the bin of at least one aggregated observation is labelled by a
    timestamp of the grid; on a grid that starts at a multiple of the step
    this is the case of every observation between the start time and the
    last grid timestamp. *)
Theorem C1_grid_rows (freq start_time end_time : Z) (df : list Query.trade) :
  (0 < freq)%Z →
  (start_time ≤ end_time)%Z →
  length (Resample.resample_day freq start_time end_time df)
    = Z.to_nat ((end_time - start_time) / freq) + 1
  ∧ Resample.index <$> Resample.resample_day freq start_time end_time df
    = Resample.date_range start_time end_time freq
  ∧ ((∃ o, o ∈ df
           ∧ Resample.bin_label freq (Query.time_m o)
             ∈ Resample.date_range start_time end_time freq) →
     ∀ r, r ∈ Resample.resample_day freq start_time end_time df →
          ∃ p, Resample.price r = Some p)
  ∧ ((start_time mod freq = 0)%Z →
     ∀ o g, g ∈ Resample.date_range start_time end_time freq →
            (start_time ≤ Query.time_m o ≤ g)%Z →
            Resample.bin_label freq (Query.time_m o)
              ∈ Resample.date_range start_time end_time freq).
Proof.
  intros Hf Hse. split; [|split; [|split]];
    [| | |intros Hs o g; by apply label_on_aligned_grid].
  - rewrite length_resample_day, length_date_range.
    assert (0 ≤ (end_time - start_time) / freq)%Z by (apply Z.div_pos; lia). lia.
  - apply index_resample_day.
  - intros (o & Ho & Hgrid) r Hr.
    apply list_elem_of_lookup in Hgrid as [j Hj].
    destruct (price_joined_label freq df o Hf Ho) as [v Hv].
    apply list_elem_of_lookup in Hr as [i Hi].
    apply lookup_resample_day in Hi as (t & p & Ht & Hp & ->). simpl.
    destruct (gap_fill_full (Resample.price <$> (Resample.joined freq df <$>
                Resample.date_range start_time end_time freq)) j v) with (i := i)
      as [p' Hp'].
    + by rewrite lookup_column, Hj; simpl; rewrite Hv.
    + rewrite length_column. by eapply lookup_lt_Some.
    + exists p'. congruence.
Qed.

(** C1 on a grid from 09:30:00 to 09:30:10 and one observation at 09:30:04. *)
Lemma C1_grid_rows_witness :
  length (Resample.resample_day (2 * Resample.second) (34200 * Resample.second)
            (34210 * Resample.second) [Sample.trade_0930_04]) = 6
  ∧ ∀ r, r ∈ Resample.resample_day (2 * Resample.second) (34200 * Resample.second)
               (34210 * Resample.second) [Sample.trade_0930_04] →
         ∃ p, Resample.price r = Some p.
Proof.
  destruct (C1_grid_rows (2 * Resample.second) (34200 * Resample.second)
              (34210 * Resample.second) [Sample.trade_0930_04])
    as (Hlen & _ & Hprice & _).
  - reflexivity.
  - discriminate.
  - split; [exact Hlen|]. apply Hprice.
    exists Sample.trade_0930_04. split; [by left|].
    apply (bool_decide_unpack _). by vm_compute.
Defined.

(** C1 as stated fails: with a start time of 09:30:01 the grid is at the odd
    seconds, the bins of the 2-second resampling are labelled at the even
    seconds, and the observation of 09:30:02 is joined to no row: the day
    has three rows and all three prices are missing.  The time check lets
    such a request through. *)
Lemma C1_counterexample :
  Resample.resample_day (2 * Resample.second) (34201 * Resample.second)
    (34205 * Resample.second) [Sample.trade_0930_02]
  = [ {| Resample.index := 34201 * Resample.second; Resample.price := None;
         Resample.size := None |};
      {| Resample.index := 34203 * Resample.second; Resample.price := None;
         Resample.size := None |};
      {| Resample.index := 34205 * Resample.second; Resample.price := None;
         Resample.size := None |} ]
  ∧ Cli.check_times (Sample.request "2019-03-28" "2019-03-28" "09:30:01" "09:30:05")
    = Ok ().
Proof. split; reflexivity. Qed.

Lemma filter_none {A} (P : A → Prop) `{∀ x, Decision (P x)} (l : list A) :
  (∀ x, x ∈ l → ¬ P x) → filter P l = [].
Proof.
  induction l as [|x l IH]; intros Hl; [done|].
  rewrite filter_cons_False by (apply Hl; by left).
  apply IH. intros y Hy. apply Hl. by right.
Qed.

(** C3, as the script has it.  The size of a row of the resampled day is
    the sum of the sizes of its own interval when its timestamp labels a bin
    of the resampling, and is missing otherwise; no other row enters it.
    For an interval without aggregated trade: the size is 0 when the
    timestamp labels a bin, and it is missing, not 0, at a timestamp before
    all the trades of the day and at a timestamp after all of them. *)
Theorem C3_size_of_empty_interval (freq start_time end_time : Z)
    (df : list Query.trade) (r : Resample.row) :
  (0 < freq)%Z →
  r ∈ Resample.resample_day freq start_time end_time df →
  Resample.size r
    = (if bool_decide (Resample.index r ∈ Resample.labels freq df)
       then Some (Resample.volume_sum freq (Resample.index r) df) else None)
  ∧ ((∀ o, o ∈ df → ¬ Resample.in_bin freq (Resample.index r) o) →
     (Resample.index r ∈ Resample.labels freq df → Resample.size r = Some 0%Z)
     ∧ ((∀ o, o ∈ df → (Resample.index r < Query.time_m o)%Z) →
        Resample.size r = None)
     ∧ ((∀ o, o ∈ df → (Query.time_m o < Resample.index r)%Z) →
        Resample.size r = None)).
Proof.
  intros Hf Hr. apply list_elem_of_lookup in Hr as [i Hi].
  apply lookup_resample_day in Hi as (t & p & Ht & Hp & ->). simpl.
  assert (Resample.size (Resample.joined freq df t)
          = if bool_decide (t ∈ Resample.labels freq df)
            then Some (Resample.volume_sum freq t df) else None) as Hsize.
  { unfold Resample.joined. by case_bool_decide. }
  split; [done|]. intros Hempty.
  destruct (minimum_spec (Query.time_m <$> df)) as [_ Hmin].
  destruct (maximum_spec (Query.time_m <$> df)) as [_ Hmax].
  rewrite Hsize. split; [|split].
  - intros Hin. rewrite bool_decide_true by done.
    unfold Resample.volume_sum. by rewrite filter_none.
  - intros Hbefore. rewrite bool_decide_false; [done|].
    intros (Hne & _ & Hlo & _)%elem_of_labels; [|done].
    assert (Query.time_m <$> df ≠ []) as Hne' by (by destruct df).
    apply Hmin, list_elem_of_fmap in Hne' as (o & Ho & Hin).
    pose proof (Hbefore o Hin).
    destruct (bin_label_spec freq (Query.time_m o) Hf).
    rewrite Ho in Hlo. lia.
  - intros Hafter. rewrite bool_decide_false; [done|].
    intros (Hne & Hmod & _ & Hhi)%elem_of_labels; [|done].
    assert (Query.time_m <$> df ≠ []) as Hne' by (by destruct df).
    apply Hmax, list_elem_of_fmap in Hne' as (o & Ho & Hin).
    pose proof (Hafter o Hin).
    destruct (bin_label_spec freq (Query.time_m o) Hf).
    rewrite Ho in Hhi. apply (Hempty o Hin). unfold Resample.in_bin. lia.
Qed.

(** C3 on a grid from 09:30:00 to 09:30:10 with trades at 09:30:02 and
    09:30:08: the row of 09:30:06, the fourth, has no trade in its interval
    and labels a bin between the two. *)
Lemma C3_size_of_empty_interval_witness :
  (Resample.size
     <$> Resample.resample_day (2 * Resample.second) (34200 * Resample.second)
           (34210 * Resample.second)
           [Sample.trade_0930_02; Sample.trade_0930_08]) !! 3
  = Some (Some 0%Z).
Proof.
  rewrite list_lookup_fmap.
  destruct (Resample.resample_day (2 * Resample.second) (34200 * Resample.second)
              (34210 * Resample.second)
              [Sample.trade_0930_02; Sample.trade_0930_08] !! 3) as [r|] eqn:E;
    [|by vm_compute in E].
  assert (Resample.index r = 34206 * Resample.second)%Z as Hindex.
  { apply (f_equal (fmap Resample.index)) in E. vm_compute in E. vm_compute.
    congruence. }
  destruct (C3_size_of_empty_interval (2 * Resample.second) (34200 * Resample.second)
              (34210 * Resample.second)
              [Sample.trade_0930_02; Sample.trade_0930_08] r) as [_ Hempty].
  - reflexivity.
  - by eapply list_elem_of_lookup_2.
  - simpl. f_equal. apply Hempty; rewrite Hindex.
    + apply Forall_forall. apply (bool_decide_unpack _). by vm_compute.
    + apply (bool_decide_unpack _). by vm_compute.
Defined.

(** C3 as stated fails: on a grid from 09:30:00 to 09:30:10 with a single
    trade, at 09:30:04, the intervals of the five other rows hold no trade
    and their size is missing, not 0. *)
Lemma C3_counterexample :
  Resample.size <$> Resample.resample_day (2 * Resample.second)
                      (34200 * Resample.second) (34210 * Resample.second)
                      [Sample.trade_0930_04]
  = [None; None; Some 40%Z; None; None; None].
Proof. reflexivity. Qed.

(** C10, as the script has it.  Let the start time be a multiple of the
    step since midnight, and let the last row of the aggregated day be its
    latest observation, at or after the start time.  Then every row of the
    resampled day whose timestamp is at or after that observation has the
    price of that observation. *)
Theorem C10_trailing_rows_last_price (freq start_time end_time : Z)
    (front : list Query.trade) (last_obs : Query.trade) (r : Resample.row) :
  (0 < freq)%Z →
  (start_time mod freq = 0)%Z →
  (∀ o, o ∈ front → (Query.time_m o ≤ Query.time_m last_obs)%Z) →
  (start_time ≤ Query.time_m last_obs)%Z →
  r ∈ Resample.resample_day freq start_time end_time (front ++ [last_obs]) →
  (Query.time_m last_obs ≤ Resample.index r)%Z →
  Resample.price r = Some (Query.price last_obs).
Proof.
  intros Hf Hstart Hfront Hs Hr Hafter.
  set (df := front ++ [last_obs]) in *.
  set (L := Resample.bin_label freq (Query.time_m last_obs)).
  assert (last_obs ∈ df) as Hin by (apply elem_of_app; right; by left).
  (* the latest time is the one of the last row *)
  assert (Resample.maximum (Query.time_m <$> df) = Query.time_m last_obs) as Hmax.
  { destruct (maximum_spec (Query.time_m <$> df)) as [Hge Hmem].
    apply Z.le_antisymm.
    - assert (Query.time_m <$> df ≠ []) as Hne by (unfold df; by destruct front).
      apply Hmem, list_elem_of_fmap in Hne as (o & -> & Ho).
      apply elem_of_app in Ho as [Ho|Ho]; [by apply Hfront|].
      apply list_elem_of_singleton in Ho as ->. done.
    - apply Hge, list_elem_of_fmap. by exists last_obs. }
  destruct (bin_label_spec freq (Query.time_m last_obs) Hf) as [HLmod HLb]. fold L in HLmod, HLb.
  (* the row and its position on the grid *)
  apply list_elem_of_lookup in Hr as [i Hi].
  apply lookup_resample_day in Hi as (t & p & Ht & Hp & ->). simpl in *.
  pose proof (proj1 (lookup_date_range _ _ _ _ _) Ht) as [Hti Hilt].
  assert (t ∈ Resample.date_range start_time end_time freq) as Htg
    by by eapply list_elem_of_lookup_2.
  apply elem_of_date_range in Htg as [[_ Hte] Htmod]; [|done].
  assert ((t mod freq = 0)%Z) as Htm.
  { rewrite Hti. rewrite Z.add_mod, Hstart, Z.mod_mul by lia. done. }
  assert ((L ≤ t)%Z) as HLt by (by apply multiple_ge_label).
  (* the label of the last bin is on the grid, at a position [j ≤ i] *)
  assert (L ∈ Resample.date_range start_time end_time freq) as HLg.
  { apply elem_of_date_range; [done|]. split; [lia|].
    rewrite Zminus_mod, HLmod, Hstart. done. }
  apply list_elem_of_lookup in HLg as [j Hj].
  pose proof (proj1 (lookup_date_range _ _ _ _ _) Hj) as [HLj _].
  assert (j ≤ i) as Hji by nia.
  (* the column of prices: the last price at [j], NaN after it *)
  assert (L ∈ Resample.labels freq df) as HLl.
  { apply elem_of_labels; [done|]. split; [by intros E; rewrite E in Hin; apply elem_of_nil in Hin|].
    split; [done|]. rewrite Hmax. split; [|done].
    apply bin_label_mono; [done|].
    apply (proj1 (minimum_spec _)), list_elem_of_fmap. by exists last_obs. }
  assert (Resample.price (Resample.joined freq df L) = Some (Query.price last_obs))
    as HpL.
  { unfold Resample.joined. rewrite bool_decide_true by done. simpl.
    unfold Resample.price_last, df. rewrite filter_app, fmap_app.
    rewrite (filter_cons_True _ last_obs) by (by apply in_bin_label).
    rewrite filter_nil. simpl. by rewrite last_snoc. }
  assert (gap_fill_at : Resample.gap_fill
            (Resample.price <$> (Resample.joined freq df <$>
               Resample.date_range start_time end_time freq)) !! i
          = Some (Some (Query.price last_obs))).
  { apply (gap_fill_trailing _ j); [| |done|].
    - by rewrite lookup_column, Hj; simpl; rewrite HpL.
    - intros i' Hji' Hi'. rewrite length_column in Hi'.
      destruct (lookup_lt_is_Some_2 _ _ Hi') as [t' Ht'].
      rewrite lookup_column, Ht'. simpl. f_equal.
      pose proof (proj1 (lookup_date_range _ _ _ _ _) Ht') as [Hti' _].
      unfold Resample.joined. rewrite bool_decide_false; [done|].
      intros (_ & _ & _ & Hhi)%elem_of_labels; [|done].
      rewrite Hmax in Hhi. fold L in Hhi. nia.
    - rewrite length_column. by eapply lookup_lt_Some. }
  congruence.
Qed.

(** C10 on a grid from 09:30:00 to 09:30:10 with observations at 09:30:02
    and 09:30:04: the row of 09:30:08, the fifth, has the price of
    09:30:04. *)
Lemma C10_trailing_rows_last_price_witness :
  (Resample.price
     <$> Resample.resample_day (2 * Resample.second) (34200 * Resample.second)
           (34210 * Resample.second)
           [Sample.trade_0930_02; Sample.trade_0930_04]) !! 4
  = Some (Some (Query.price Sample.trade_0930_04)).
Proof.
  rewrite list_lookup_fmap.
  destruct (Resample.resample_day (2 * Resample.second) (34200 * Resample.second)
              (34210 * Resample.second)
              [Sample.trade_0930_02; Sample.trade_0930_04] !! 4) as [r|] eqn:E;
    [|by vm_compute in E].
  assert (Resample.index r = 34208 * Resample.second)%Z as Hindex.
  { apply (f_equal (fmap Resample.index)) in E. vm_compute in E. vm_compute.
    congruence. }
  simpl. f_equal.
  apply (C10_trailing_rows_last_price (2 * Resample.second) (34200 * Resample.second)
           (34210 * Resample.second) [Sample.trade_0930_02] Sample.trade_0930_04).
  - reflexivity.
  - reflexivity.
  - intros o Ho. apply list_elem_of_singleton in Ho as ->. by vm_compute.
  - by vm_compute.
  - by eapply list_elem_of_lookup_2.
  - rewrite Hindex. by vm_compute.
Defined.

(** C10 as stated fails: with a start time of 09:30:01 and an end time of
    09:30:05, the observation of 09:30:02 falls before the last grid
    timestamp, and the rows of 09:30:03 and 09:30:05 do not receive its
    price: their price is missing.  The time check lets such a request
    through. *)
Lemma C10_counterexample :
  (λ r, (Resample.index r, Resample.price r))
    <$> Resample.resample_day (2 * Resample.second) (34201 * Resample.second)
          (34205 * Resample.second) [Sample.trade_0930_02]
  = [(34201 * Resample.second, None); (34203 * Resample.second, None);
     (34205 * Resample.second, None)]%Z
  ∧ (Query.time_m Sample.trade_0930_02 < 34205 * Resample.second)%Z
  ∧ Cli.check_times (Sample.request "2019-03-28" "2019-03-28" "09:30:01" "09:30:05")
    = Ok ().
Proof. repeat split; reflexivity. Qed.

(** * Further properties of the script *)

(** ** The querying loop: calls, provenance, dates that stay *)

Section query_more.
Import Query.
Context (db : database) (start_time end_time : string).

#[local] Abbreviation visit' := (visit db start_time end_time).
#[local] Abbreviation query_sql' := (query_sql db start_time end_time).
#[local] Abbreviation symbols_loop' := (symbols_loop db start_time end_time).
#[local] Abbreviation has_table' := (has_table db).

Lemma raw_calls_app cs1 cs2 : raw_calls (cs1 ++ cs2) = raw_calls cs1 ++ raw_calls cs2.
Proof. apply omap_app. Qed.

(** What [query_attempts] returns and issues. *)
Lemma query_attempts_spec date symbol attempts :
  let '(r, ok, issued) := query_attempts db start_time end_time date symbol attempts in
  raw_calls issued = replicate (length issued) (date, symbol)
  ∧ length issued ≤ length attempts
  ∧ (issued = [] → attempts = [])
  ∧ match r with
    | Some rows => ok = true ∧ ∃ attempt, attempt ∈ attempts
                     ∧ raw_sql db date symbol start_time end_time attempt = Some rows
    | None => ok = false
              ∧ ∀ attempt, attempt ∈ attempts →
                  raw_sql db date symbol start_time end_time attempt = None
    end.
Proof.
  induction attempts as [|a attempts IH]; simpl.
  { repeat split; try done. by intros ? ?%elem_of_nil. }
  destruct (raw_sql db date symbol start_time end_time a) as [rows|] eqn:E.
  { repeat split; simpl; try done; try lia. exists a. split; [by left|done]. }
  destruct (query_attempts db start_time end_time date symbol attempts)
    as [[r ok] issued].
  destruct IH as (Hraw & Hlen & _ & Hr). simpl.
  split; [by rewrite Hraw|]. split; [lia|]. split; [done|].
  destruct r as [rows|].
  - destruct Hr as (-> & attempt & Hin & Hrows). split; [done|].
    exists attempt. split; [by right|done].
  - destruct Hr as [-> Hnone]. split; [done|].
    intros attempt [->|Hin]%elem_of_cons; [done|by apply Hnone].
Qed.

(** The rows of a successful [query_sql] are those of one of its
    executions. *)
Lemma query_sql_rows date symbol rows :
  (query_sql' date symbol).1.1 = Some rows →
  ∃ attempt, attempt < max_attempts
    ∧ raw_sql db date symbol start_time end_time attempt = Some rows.
Proof.
  intros E. pose proof (query_attempts_spec date symbol (seq 0 max_attempts)) as Hq.
  fold (query_sql' date symbol) in Hq.
  destruct (query_sql' date symbol) as [[r ok] issued]. simpl in E. subst r.
  destruct Hq as (_ & _ & _ & _ & attempt & Hin & Hrows).
  apply elem_of_seq in Hin. exists attempt. split; [lia|done].
Qed.

(** One visit: the query is executed only when the table of the date is
    listed, once or twice; the rows appended are those the query returned;
    the date is flagged only when its table is missing or the symbol did not
    trade. *)
Lemma visit_spec symbol st date :
  ∃ n,
    raw_calls (calls (visit' symbol st date))
      = raw_calls (calls st) ++ replicate n (date, symbol)
    ∧ n ≤ 2 ∧ (0 < n → has_table' date)
    ∧ output (visit' symbol st date)
      = output st ++ (if bool_decide (has_table' date)
                      then default [] (query_sql' date symbol).1.1 else [])
    ∧ (remove_dates (visit' symbol st date) = remove_dates st
       ∨ remove_dates (visit' symbol st date) = remove_dates st ++ [date]
         ∧ (¬ has_table' date ∨ did_not_trade db start_time end_time symbol date)).
Proof.
  unfold visit. destruct (decide (has_table' date)) as [Htable|Htable].
  - rewrite !bool_decide_true by exact Htable.
    pose proof (query_attempts_spec date symbol (seq 0 max_attempts)) as Hq.
    fold (query_sql' date symbol) in Hq.
    destruct (query_sql' date symbol) as [[r ok] issued] eqn:E.
    destruct Hq as (Hraw & Hlen & _ & Hr).
    destruct r as [rows|].
    + destruct Hr as (-> & attempt & Hin & Hrows).
      case_bool_decide as Hrows0.
      * exists (length issued). simpl.
        rewrite !raw_calls_app, Hraw, app_nil_r. simpl in *.
        repeat split; try done. by left.
      * exists (length issued). simpl.
        rewrite !raw_calls_app, Hraw, !app_nil_r. simpl in *.
        assert (rows = []) as -> by (destruct rows; [done|simpl in Hrows0; lia]).
        rewrite app_nil_r. repeat split; try done.
        right. split; [done|]. right. split; [done|]. by exists issued.
    + destruct Hr as [-> _]. exists (length issued). simpl.
      rewrite !raw_calls_app, Hraw, !app_nil_r. simpl in *.
      repeat split; try done. by left.
  - rewrite !bool_decide_false by exact Htable.
    exists 0. simpl. rewrite raw_calls_app, ?app_nil_r. simpl.
    rewrite ?app_nil_r. repeat split; try done; try lia.
    right. split; [done|by left].
Qed.

(** The loop over the dates of one symbol. *)
Lemma foldl_visit_spec symbol dates :
  ∀ st, ∃ extra rows,
    raw_calls (calls (foldl (visit' symbol) st dates)) = raw_calls (calls st) ++ extra
    ∧ length extra ≤ 2 * length dates
    ∧ (∀ d s, (d, s) ∈ extra → s = symbol ∧ d ∈ dates ∧ has_table' d)
    ∧ output (foldl (visit' symbol) st dates) = output st ++ rows
    ∧ (∀ r, r ∈ rows ↔ ∃ d rows',
          d ∈ dates ∧ has_table' d
          ∧ (query_sql' d symbol).1.1 = Some rows' ∧ r ∈ rows')
    ∧ (∀ d, d ∈ remove_dates st → d ∈ remove_dates (foldl (visit' symbol) st dates))
    ∧ (∀ d, d ∈ remove_dates (foldl (visit' symbol) st dates) →
          d ∈ remove_dates st
          ∨ d ∈ dates ∧ (¬ has_table' d ∨ did_not_trade db start_time end_time symbol d)).
Proof.
  induction dates as [|date dates IH]; intros st.
  { exists [], []. simpl. rewrite !app_nil_r.
    split; [done|]. split; [lia|]. split; [by intros ? ? ?%elem_of_nil|].
    split; [done|]. split.
    { intros r. split; [by intros ?%elem_of_nil|].
      by intros (? & ? & ?%elem_of_nil & _). }
    split; [done|]. intros; by left. }
  simpl.
  destruct (visit_spec symbol st date) as (n & Hc1 & Hn & Ht & Ho1 & Hd1).
  destruct (IH (visit' symbol st date))
    as (extra & rows & Hc & Hlen & Hex & Ho & Hr & Hmono & Hd).
  exists (replicate n (date, symbol) ++ extra),
    ((if bool_decide (has_table' date)
      then default [] (query_sql' date symbol).1.1 else []) ++ rows).
  split; [by rewrite Hc, Hc1, app_assoc|].
  split; [rewrite length_app, length_replicate; lia|].
  split.
  { intros d s [Hin|Hin]%elem_of_app.
    - apply elem_of_replicate in Hin as [Heq Hn0]. simplify_eq.
      split; [done|]. split; [by left|]. apply Ht. lia.
    - destruct (Hex d s Hin) as (? & ? & ?). split; [done|]. split; [by right|done]. }
  split; [by rewrite Ho, Ho1, app_assoc|].
  split.
  { intros r. rewrite elem_of_app, Hr. split.
    - intros [Hin|(d & rows' & ? & ? & ? & ?)].
      + case_bool_decide as Htable; [|by apply elem_of_nil in Hin].
        destruct ((query_sql' date symbol).1.1) as [rows'|] eqn:E;
          [|by apply elem_of_nil in Hin].
        exists date, rows'. split; [by left|done].
      + exists d, rows'. split; [by right|done].
    - intros (d & rows' & [->|Hin]%elem_of_cons & Htable & E & Hrow).
      + left. rewrite bool_decide_true by done. by rewrite E.
      + right. by exists d, rows'. }
  split.
  { intros d Hin. apply Hmono.
    destruct Hd1 as [->|[-> _]]; [done|]. apply elem_of_app. by left. }
  intros d Hin. apply Hd in Hin as [Hin|[Hin Hf]].
  - destruct Hd1 as [Heq|[Heq Hf]]; rewrite Heq in Hin; [by left|].
    apply elem_of_app in Hin as [Hin|Hin]; [by left|].
    apply list_elem_of_singleton in Hin as ->. right. split; [by left|done].
  - right. split; [by right|done].
Qed.

Lemma length_narrow dates removed : length (narrow dates removed) ≤ length dates.
Proof. apply length_filter. Qed.

(** The loop over the symbols. *)
Lemma symbols_loop_spec symbols :
  ∀ st dates, ∃ extra rows,
    let st' := (symbols_loop' symbols st dates).1.2 in
    raw_calls (calls st') = raw_calls (calls st) ++ extra
    ∧ length extra ≤ 2 * length symbols * length dates
    ∧ (∀ d s, (d, s) ∈ extra → s ∈ symbols ∧ d ∈ dates ∧ has_table' d)
    ∧ output st' = output st ++ rows
    ∧ (∀ r, r ∈ rows → ∃ s d rows',
          s ∈ symbols ∧ d ∈ dates ∧ has_table' d
          ∧ (query_sql' d s).1.1 = Some rows' ∧ r ∈ rows')
    ∧ (∀ d, d ∈ remove_dates st → d ∈ remove_dates st')
    ∧ (∀ d, d ∈ remove_dates st' →
          d ∈ remove_dates st
          ∨ d ∈ dates ∧ ∃ s, s ∈ symbols
              ∧ (¬ has_table' d ∨ did_not_trade db start_time end_time s d)).
Proof.
  induction symbols as [|symbol symbols IH]; intros st dates.
  { exists [], []. simpl. rewrite !app_nil_r.
    split; [done|]. split; [lia|]. split; [by intros ? ? ?%elem_of_nil|].
    split; [done|]. split; [by intros ? ?%elem_of_nil|]. split; [done|].
    intros; by left. }
  simpl.
  destruct (foldl_visit_spec symbol dates st)
    as (extra1 & rows1 & Hc1 & Hlen1 & Hex1 & Ho1 & Hr1 & Hmono1 & Hd1).
  set (st1 := foldl (visit' symbol) st dates) in *.
  set (dates1 := narrow dates (remove_dates st1)).
  assert (∀ d, d ∈ dates1 → d ∈ dates) as Hsub
    by (intros d Hd; by apply narrow_subseteq in Hd as [? _]).
  case_bool_decide as Hempty; simpl.
  - exists extra1, rows1. split; [done|]. split; [lia|].
    split; [intros d s Hin; destruct (Hex1 d s Hin) as (-> & ? & ?);
            split; [by left|done]|].
    split; [done|]. split.
    { intros r Hin. apply Hr1 in Hin as (d & rows' & ? & ? & ? & ?).
      exists symbol, d, rows'. split; [by left|done]. }
    split; [done|].
    intros d Hin. apply Hd1 in Hin as [?|[? ?]]; [by left|].
    right. split; [done|]. exists symbol. split; [by left|done].
  - destruct (IH st1 dates1) as (extra & rows & Hc & Hlen & Hex & Ho & Hr & Hmono & Hd).
    simpl in *. exists (extra1 ++ extra), (rows1 ++ rows).
    split; [by rewrite Hc, Hc1, app_assoc|].
    split.
    { rewrite length_app. pose proof (length_narrow dates (remove_dates st1)) as Hle.
      fold dates1 in Hle. nia. }
    split.
    { intros d s [Hin|Hin]%elem_of_app.
      - destruct (Hex1 d s Hin) as (-> & ? & ?). split; [by left|done].
      - destruct (Hex d s Hin) as (? & ? & ?). split; [by right|]. split; [auto|done]. }
    split; [by rewrite Ho, Ho1, app_assoc|].
    split.
    { intros r [Hin|Hin]%elem_of_app.
      - apply Hr1 in Hin as (d & rows' & ? & ? & ? & ?).
        exists symbol, d, rows'. split; [by left|done].
      - destruct (Hr r Hin) as (s & d & rows' & ? & ? & ? & ? & ?).
        exists s, d, rows'. split; [by right|]. split; [auto|done]. }
    split; [intros d Hin; by apply Hmono, Hmono1|].
    intros d Hin. apply Hd in Hin as [Hin|[Hin (s & Hs & Hf)]].
    + apply Hd1 in Hin as [?|[? ?]]; [by left|].
      right. split; [done|]. exists symbol. split; [by left|done].
    + right. split; [auto|]. exists s. split; [by right|done].
Qed.

(** A date that is never flagged stays, and the loop falls through. *)
Lemma symbols_loop_keeps symbols :
  ∀ st dates date,
    date ∈ dates →
    date ∉ remove_dates (symbols_loop' symbols st dates).1.2 →
    date ∈ (symbols_loop' symbols st dates).2
    ∧ (symbols_loop' symbols st dates).1.1 = Ok ().
Proof.
  induction symbols as [|symbol symbols IH]; intros st dates date Hin Hnot; [done|].
  simpl in *.
  set (st1 := foldl (visit' symbol) st dates) in *.
  assert (date ∈ narrow dates (remove_dates st1)) as Hin1.
  { apply list_elem_of_filter. split; [|done]. intros Hrem. apply Hnot.
    case_bool_decide; simpl; [done|].
    destruct (symbols_loop_spec symbols st1 (narrow dates (remove_dates st1)))
      as (? & ? & _ & _ & _ & _ & _ & Hmono & _). by apply Hmono. }
  case_bool_decide as Hempty.
  { apply nil_length_inv in Hempty. rewrite Hempty in Hin1.
    by apply elem_of_nil in Hin1. }
  by apply IH.
Qed.

(** A date whose table is missing is flagged by the first symbol. *)
Lemma no_table_foldl symbol dates :
  ∀ st date, ¬ has_table' date → date ∈ dates →
    date ∈ remove_dates (foldl (visit' symbol) st dates).
Proof.
  induction dates as [|d dates IH]; intros st date Hno Hin; simpl.
  { by apply elem_of_nil in Hin. }
  apply elem_of_cons in Hin as [->|Hin]; [|by apply IH].
  apply remove_dates_foldl. unfold visit.
  rewrite bool_decide_false by done. simpl. apply elem_of_app. right. in_list.
Qed.

Lemma symbols_loop_no_table symbols :
  ∀ st dates date, symbols ≠ [] → ¬ has_table' date →
    date ∉ (symbols_loop' symbols st dates).2.
Proof.
  destruct symbols as [|symbol symbols]; intros st dates date Hne Hno; [done|].
  simpl.
  assert (date ∉ narrow dates (remove_dates (foldl (visit' symbol) st dates))) as Hout.
  { intros Hin. apply narrow_subseteq in Hin as [Hin Hnot].
    apply Hnot. by apply no_table_foldl. }
  case_bool_decide; simpl; [done|].
  intros Hin. by apply symbols_loop_shrinks in Hin.
Qed.

(** When the loop falls through, the rows a symbol's query returned for a
    date that is left are in [output]. *)
Lemma symbols_loop_complete symbols :
  ∀ st dates symbol date rows r,
    symbol ∈ symbols →
    date ∈ (symbols_loop' symbols st dates).2 →
    has_table' date →
    (query_sql' date symbol).1.1 = Some rows → r ∈ rows →
    r ∈ output (symbols_loop' symbols st dates).1.2.
Proof.
  induction symbols as [|s symbols IH]; intros st dates symbol date rows r Hs Hd Ht E Hr.
  { by apply elem_of_nil in Hs. }
  simpl in *.
  destruct (foldl_visit_spec s dates st)
    as (_ & rows1 & _ & _ & _ & Ho1 & Hr1 & _ & _).
  set (st1 := foldl (visit' s) st dates) in *.
  case_bool_decide as Hempty; simpl in *.
  { apply nil_length_inv in Hempty. rewrite Hempty in Hd. by apply elem_of_nil in Hd. }
  destruct (symbols_loop_spec symbols st1 (narrow dates (remove_dates st1)))
    as (_ & rows2 & _ & _ & _ & Ho2 & _). simpl in Ho2.
  apply elem_of_cons in Hs as [->|Hs]; [|by eapply IH].
  rewrite Ho2, Ho1. apply elem_of_app. left. apply elem_of_app. right.
  apply Hr1. exists date, rows. split; [|done].
  apply symbols_loop_shrinks in Hd. by apply narrow_subseteq in Hd as [? _].
Qed.

(** With a symbol to query, a loop that falls through leaves a date. *)
Lemma symbols_loop_nonempty symbols :
  ∀ st dates, symbols ≠ [] →
    (symbols_loop' symbols st dates).1.1 = Ok () →
    (symbols_loop' symbols st dates).2 ≠ [].
Proof.
  induction symbols as [|s symbols IH]; intros st dates Hne; [done|]. simpl.
  case_bool_decide as Hempty; simpl; [done|].
  destruct symbols as [|s' symbols]; [|by apply IH].
  simpl. intros _ E. by rewrite E in Hempty.
Qed.

End query_more.

(** X1.  The querying stage executes the query only for a symbol of the
    run, a date of the date list and a date whose table [ctm_<date>] is in
    the list of tables of its library, and at most twice for each symbol
    and date. *)
Theorem X1_queries_issued (db : Query.database) (start_time end_time : string)
    (symbols date_list : list string) :
  let issued :=
    Query.raw_calls (Query.extract db start_time end_time symbols date_list).2 in
  length issued ≤ 2 * length symbols * length date_list
  ∧ ∀ d s, (d, s) ∈ issued → s ∈ symbols ∧ d ∈ date_list ∧ Query.has_table db d.
Proof.
  unfold Query.extract.
  destruct (symbols_loop_spec db start_time end_time symbols Query.init date_list)
    as (extra & rows & Hc & Hlen & Hex & _).
  destruct (Query.symbols_loop db start_time end_time symbols Query.init date_list)
    as [[r st] final_dates]. simpl in *. rewrite Hc. done.
Qed.

(** X2.  With at least one symbol, the dates the querying stage returns are
    exactly the dates of the date list whose table is listed and on which no
    symbol of the run did not trade (a query that fails at both attempts
    drops nothing); the run stops through [exit()] with the message of line
    326 exactly when there is no such date, and a returned list is never
    empty. *)
Theorem X2_dates_left (db : Query.database) (start_time end_time : string)
    (symbols date_list : list string) :
  symbols ≠ [] →
  match (Query.extract db start_time end_time symbols date_list).1 with
  | Ok (_, final_dates) =>
      final_dates ≠ []
      ∧ ∀ d, d ∈ final_dates ↔
             d ∈ date_list ∧ Query.has_table db d
             ∧ ∀ s, s ∈ symbols → ¬ Query.did_not_trade db start_time end_time s d
  | Exit msg status =>
      msg = Query.err_no_dates ∧ status = 0%Z
      ∧ ∀ d, d ∈ date_list →
          ¬ (Query.has_table db d
             ∧ ∀ s, s ∈ symbols → ¬ Query.did_not_trade db start_time end_time s d)
  | Raise _ => False
  end.
Proof.
  intros Hne. unfold Query.extract.
  pose proof (symbols_loop_keeps db start_time end_time symbols Query.init date_list)
    as Hkeep.
  pose proof (symbols_loop_nonempty db start_time end_time symbols Query.init
                date_list Hne) as Hnonempty.
  pose proof (symbols_loop_shrinks db start_time end_time symbols Query.init
                date_list) as Hshrink.
  pose proof (λ s d, symbols_loop_drops db start_time end_time symbols Query.init
                date_list s d) as Hdrop.
  pose proof (λ d, symbols_loop_no_table db start_time end_time symbols Query.init
                date_list d Hne) as Hno.
  destruct (symbols_loop_spec db start_time end_time symbols Query.init date_list)
    as (_ & _ & _ & _ & _ & _ & _ & _ & Hflag).
  assert (∀ d, d ∈ date_list → Query.has_table db d →
               (∀ s, s ∈ symbols → ¬ Query.did_not_trade db start_time end_time s d) →
               d ∉ Query.remove_dates
                     (Query.symbols_loop db start_time end_time symbols Query.init
                        date_list).1.2) as Hclean.
  { intros d Hd Ht Hs Hin. apply Hflag in Hin as [Hin|(_ & s & Hin & [?|?])].
    - by apply elem_of_nil in Hin.
    - done.
    - by apply (Hs s). }
  destruct (symbols_loop_ends db start_time end_time symbols Query.init date_list)
    as [Hok|Hexit];
    destruct (Query.symbols_loop db start_time end_time symbols Query.init date_list)
      as [[r st] final_dates]; simpl in *; subst r; simpl.
  - split; [by apply Hnonempty|]. intros d. split.
    + intros Hd. split; [by apply Hshrink|]. split.
      * destruct (decide (Query.has_table db d)) as [|Hmiss]; [done|].
        by destruct (Hno d Hmiss).
      * intros s Hs Hz. by apply (Hdrop s d).
    + intros (Hd & Ht & Hs). by apply Hkeep, Hclean.
  - split; [done|]. split; [done|]. intros d Hd [Ht Hs].
    by destruct (Hkeep d Hd (Hclean d Hd Ht Hs)) as [_ ?].
Qed.

(** X2 on a connection without the table of 2019-03-29 and on which the
    query for TSLA fails: 2019-03-28 is left, with the rows of AAPL. *)
Lemma X2_dates_left_witness :
  (Query.extract Sample.db_gap "09:30:00" "16:00:00" ["AAPL"; "TSLA"]
     ["20190328"; "20190329"]).1
  = Ok ([Sample.trade_at "20190328" "AAPL" (34200 * Resample.second) (Np.of_Z 188) 100;
         Sample.trade_at "20190328" "AAPL" (34201 * Resample.second) (Np.of_Z 189) 50],
        ["20190328"])
  ∧ match (Query.extract Sample.db_gap "09:30:00" "16:00:00" ["AAPL"; "TSLA"]
             ["20190328"; "20190329"]).1 with
    | Ok (_, final_dates) =>
        final_dates ≠ []
        ∧ ∀ d, d ∈ final_dates ↔
               d ∈ ["20190328"; "20190329"] ∧ Query.has_table Sample.db_gap d
               ∧ ∀ s, s ∈ ["AAPL"; "TSLA"] →
                   ¬ Query.did_not_trade Sample.db_gap "09:30:00" "16:00:00" s d
    | Exit msg status =>
        msg = Query.err_no_dates ∧ status = 0%Z
        ∧ ∀ d, d ∈ ["20190328"; "20190329"] →
            ¬ (Query.has_table Sample.db_gap d
               ∧ ∀ s, s ∈ ["AAPL"; "TSLA"] →
                   ¬ Query.did_not_trade Sample.db_gap "09:30:00" "16:00:00" s d)
    | Raise _ => False
    end.
Proof.
  split; [reflexivity|].
  apply (X2_dates_left Sample.db_gap "09:30:00" "16:00:00" ["AAPL"; "TSLA"]
           ["20190328"; "20190329"]).
  done.
Defined.

(** X3.  When each execution of the query returns rows of the date it is
    asked for, the frame the querying stage returns holds exactly the rows
    that the query for some symbol of the run returned for a date that is
    left in the date list: no row of such a date is lost, and no other row
    is kept. *)
Theorem X3_frame_rows (db : Query.database) (start_time end_time : string)
    (symbols date_list : list string) :
  (∀ d s attempt rows r,
      Query.raw_sql db d s start_time end_time attempt = Some rows →
      r ∈ rows → Query.date r = d) →
  match (Query.extract db start_time end_time symbols date_list).1 with
  | Ok (frame, final_dates) =>
      ∀ r, r ∈ frame ↔
           Query.date r ∈ final_dates
           ∧ ∃ s rows, s ∈ symbols
               ∧ (Query.query_sql db start_time end_time (Query.date r) s).1.1
                 = Some rows
               ∧ r ∈ rows
  | Exit _ _ | Raise _ => True
  end.
Proof.
  intros Hdated. unfold Query.extract.
  pose proof (symbols_loop_complete db start_time end_time symbols Query.init
                date_list) as Hcomplete.
  pose proof (symbols_loop_no_table db start_time end_time symbols Query.init
                date_list) as Hno.
  destruct (symbols_loop_spec db start_time end_time symbols Query.init date_list)
    as (_ & rows & _ & _ & _ & Hout & Hrows & _).
  destruct (Query.symbols_loop db start_time end_time symbols Query.init date_list)
    as [[result st] final_dates]; simpl in *.
  destruct result as [[]| |]; simpl; try done.
  intros r. unfold Query.keep_dates. rewrite list_elem_of_filter. split.
  - intros [Hd Hr]. split; [done|].
    rewrite Hout in Hr. apply Hrows in Hr as (s & d & rows' & Hs & _ & _ & E & Hin).
    destruct (query_sql_rows db start_time end_time d s rows' E) as (a & _ & Hraw).
    rewrite (Hdated d s a rows' r Hraw Hin). by exists s, rows'.
  - intros (Hd & s & rows' & Hs & E & Hin). split; [done|].
    apply (Hcomplete s (Query.date r) rows' r); try done.
    destruct (decide (Query.has_table db (Query.date r))) as [|Hmiss]; [done|].
    destruct (Hno (Query.date r)); [|done..]. by intros ->; apply elem_of_nil in Hs.
Qed.

(** X3 on the sample connection, whose rows carry the date asked for. *)
Lemma X3_frame_rows_witness :
  match (Query.extract Sample.db "09:30:00" "16:00:00" ["AAPL"; "TSLA"]
           ["20190328"; "20190329"]).1 with
  | Ok (frame, final_dates) =>
      ∀ r, r ∈ frame ↔
           Query.date r ∈ final_dates
           ∧ ∃ s rows, s ∈ ["AAPL"; "TSLA"]
               ∧ (Query.query_sql Sample.db "09:30:00" "16:00:00" (Query.date r) s).1.1
                 = Some rows
               ∧ r ∈ rows
  | Exit _ _ | Raise _ => True
  end.
Proof.
  apply (X3_frame_rows Sample.db "09:30:00" "16:00:00" ["AAPL"; "TSLA"]
           ["20190328"; "20190329"]).
  intros d s attempt rows r. cbn [Query.raw_sql Sample.db]. unfold Sample.rows.
  intros E Hin. repeat case_bool_decide; simplify_eq;
    repeat (apply elem_of_cons in Hin as [->|Hin]; [done|]);
    by apply elem_of_nil in Hin.
Defined.

(** ** The symbols queried instead of others *)

Section symbols_facts.
Import Symbols.

(** The number of times a symbol is given. *)
#[local] Abbreviation times x l := (length (filter (λ y : string, y = x) l)).

Lemma times_elem_of x l : 0 < times x l ↔ x ∈ l.
Proof.
  induction l as [|a l IH]; simpl.
  { split; [lia|by intros ?%elem_of_nil]. }
  rewrite filter_cons, elem_of_cons. destruct (decide (a = x)) as [->|Hne]; simpl.
  - split; [by left|lia].
  - rewrite IH. split; [by right|]. by intros [->|?].
Qed.

Lemma index_here x l : index x (x :: l) = 0.
Proof. unfold index. simpl. by rewrite decide_True. Qed.

Lemma index_further x a l : a ≠ x → x ∈ l → index x (a :: l) = S (index x l).
Proof.
  intros Hne Hin. unfold index. simpl. rewrite decide_False by done.
  destruct (list_find_elem_of (λ y, y = x) l x Hin eq_refl) as [[i y] E].
  by rewrite E.
Qed.

(** The assignment of line 122 replaces the first occurrence only. *)
Lemma times_replace_self x y l :
  x ∈ l → y ≠ x → times x (<[index x l := y]> l) = times x l - 1.
Proof.
  intros Hin Hy. induction l as [|a l IH]; [by apply elem_of_nil in Hin|].
  destruct (decide (a = x)) as [->|Hne].
  - rewrite index_here. simpl. rewrite !filter_cons, decide_False, decide_True by done.
    simpl. lia.
  - apply elem_of_cons in Hin as [->|Hin]; [done|].
    rewrite index_further by done. simpl.
    rewrite !filter_cons, !decide_False by done. by apply IH.
Qed.

Lemma times_replace_other x y z l :
  x ∈ l → z ≠ x → z ≠ y → times z (<[index x l := y]> l) = times z l.
Proof.
  intros Hin Hx Hy. induction l as [|a l IH]; [by apply elem_of_nil in Hin|].
  destruct (decide (a = x)) as [->|Hne].
  - rewrite index_here. simpl. rewrite !filter_cons.
    rewrite (decide_False (P := y = z)), (decide_False (P := x = z)) by done. done.
  - apply elem_of_cons in Hin as [->|Hin]; [done|].
    rewrite index_further by done. simpl. rewrite !filter_cons.
    destruct (decide (a = z)); simpl; by rewrite IH.
Qed.

Lemma replace_same x l : x ∈ l → <[index x l := x]> l = l.
Proof.
  intros Hin. induction l as [|a l IH]; [by apply elem_of_nil in Hin|].
  destruct (decide (a = x)) as [->|Hne].
  - by rewrite index_here.
  - apply elem_of_cons in Hin as [->|Hin]; [done|].
    rewrite index_further by done. simpl. by rewrite IH.
Qed.

(** When the symbol is given at most once, the assignment is a renaming. *)
Lemma replace_once x y l :
  times x l ≤ 1 →
  (if bool_decide (x ∈ l) then <[index x l := y]> l else l)
  = (λ s, if bool_decide (s = x) then y else s) <$> l.
Proof.
  induction l as [|a l IH]; intros Hle; [by rewrite bool_decide_false by apply not_elem_of_nil|].
  rewrite filter_cons in Hle. simpl.
  destruct (decide (a = x)) as [->|Hne]; simpl in Hle.
  - rewrite bool_decide_true by by left. rewrite index_here. simpl.
    rewrite (bool_decide_true (x = x)) by done. f_equal.
    assert (x ∉ l) as Hout by (rewrite <- times_elem_of; lia).
    rewrite bool_decide_false in IH by done. apply IH. lia.
  - rewrite (bool_decide_false (a = x)) by done.
    specialize (IH Hle). destruct (decide (x ∈ l)) as [Hin|Hin].
    + rewrite bool_decide_true in IH by done.
      rewrite (bool_decide_true (x ∈ a :: l)) by by right.
      rewrite index_further by done. simpl. f_equal. exact IH.
    + rewrite bool_decide_false in IH by done.
      rewrite (bool_decide_false (x ∈ a :: l)); [f_equal; exact IH|].
      by intros [->|?]%elem_of_cons.
Qed.

Lemma times_rename x y z l :
  z ≠ x → z ≠ y →
  times z ((λ s, if bool_decide (s = x) then y else s) <$> l) = times z l.
Proof.
  intros Hx Hy. induction l as [|a l IH]; [done|]. rewrite fmap_cons, !filter_cons.
  case_bool_decide as Ha.
  - subst a. rewrite (decide_False (P := y = z)), (decide_False (P := x = z)) by done.
    exact IH.
  - destruct (decide (a = z)); simpl; [f_equal|]; exact IH.
Qed.

(** The dictionary of line 115 has an entry for each symbol given, but for
    GOOG, LBTYA and FOX. *)
Lemma suffix_query_init_lookup l s :
  suffix_query_init l !! s
  = if bool_decide (s ∈ l ∧ s ∉ unwanted_symbols) then Some "is null" else None.
Proof.
  unfold suffix_query_init.
  assert (∀ d : gmap string string,
            foldl (λ d symbol,
                     if bool_decide (symbol ∉ unwanted_symbols)
                     then <[symbol := "is null"]> d else d) d l !! s
            = if bool_decide (s ∈ l ∧ s ∉ unwanted_symbols) then Some "is null"
              else d !! s) as Hgen.
  { induction l as [|a l IH]; intros d; cbn [foldl].
    { rewrite bool_decide_false; [done|]. by intros [?%elem_of_nil _]. }
    rewrite IH. case_bool_decide as Hl.
    - rewrite bool_decide_true; [done|]. destruct Hl. split; [by right|done].
    - case_bool_decide as Ha.
      + destruct (decide (a = s)) as [->|Hne].
        * rewrite lookup_insert_eq. rewrite bool_decide_true; [done|].
          split; [by left|done].
        * rewrite lookup_insert_ne by done. rewrite bool_decide_false; [done|].
          intros [[->|?]%elem_of_cons ?]; [done|]. by apply Hl.
      + case_bool_decide as Hal; [|done]. destruct Hal as [[->|?]%elem_of_cons ?];
          [done|]. by destruct Hl. }
  rewrite Hgen. by case_bool_decide.
Qed.

Lemma lookup_insert_when (P : Prop) `{Decision P} k v (m : gmap string string) s :
  (if bool_decide P then <[k := v]> m else m) !! s
  = if bool_decide (s = k ∧ P) then Some v else m !! s.
Proof.
  case_bool_decide as HP.
  - destruct (decide (s = k)) as [->|Hne].
    + by rewrite lookup_insert_eq, bool_decide_true.
    + rewrite lookup_insert_ne by done. rewrite bool_decide_false; [done|tauto].
  - rewrite bool_decide_false; [done|tauto].
Qed.

Lemma substitute_step pos unwanted wanted suffix rest l q :
  wanted_symbols !! pos = Some wanted →
  wanted_symbols_suffix !! wanted = Some suffix →
  substitute ((pos, unwanted) :: rest) l q
  = substitute rest
      (if bool_decide (unwanted ∈ l) then <[index unwanted l := wanted]> l else l)
      (if bool_decide (unwanted ∈ l) then <[wanted := suffix.2]> q else q).
Proof.
  intros Hw Hs. cbn [substitute]. unfold item, key. rewrite Hw. simpl. rewrite Hs.
  simpl. by case_bool_decide.
Qed.

(** Lines 109-126 never raise; the list they leave and the entries of the
    dictionary they leave. *)
Lemma normalise_spec l :
  let l2 := if bool_decide ("LBTYA" ∈ l) then <[index "LBTYA" l := "LBTY"]> l else l in
  let l3 := if bool_decide ("FOX" ∈ l) then <[index "FOX" l2 := "FOXA"]> l2 else l2 in
  ∃ q, normalise l = Ok (l3, q)
    ∧ ∀ s, q !! s =
        if bool_decide (s = "FOXA" ∧ "FOX" ∈ l) then Some "is null"
        else if bool_decide (s = "LBTY" ∧ "LBTYA" ∈ l) then Some "='K'"
        else if bool_decide (s = "GOOG" ∧ "GOOG" ∈ l) then Some "='L'"
        else if bool_decide (s ∈ l ∧ s ∉ unwanted_symbols) then Some "is null"
        else None.
Proof.
  intros l2 l3. unfold normalise.
  change (imap pair unwanted_symbols) with [(0, "GOOG"); (1, "LBTYA"); (2, "FOX")].
  rewrite (substitute_step 0 "GOOG" "GOOG" ("L", "='L'")) by reflexivity.
  assert ((if bool_decide ("GOOG" ∈ l) then <[index "GOOG" l := "GOOG"]> l else l) = l)
    as -> by (case_bool_decide; [by apply replace_same|done]).
  rewrite (substitute_step 1 "LBTYA" "LBTY" ("K", "='K'")) by reflexivity.
  fold l2.
  rewrite (substitute_step 2 "FOX" "FOXA" (EmptyString, "is null")) by reflexivity.
  assert ("FOX" ∈ l2 ↔ "FOX" ∈ l) as Hfox.
  { rewrite <- !times_elem_of. unfold l2. case_bool_decide; [|done].
    by rewrite times_replace_other. }
  rewrite (bool_decide_ext _ _ Hfox). fold l3. cbn [substitute snd].
  eexists. split; [done|]. intros s.
  by rewrite !lookup_insert_when, suffix_query_init_lookup.
Qed.

(** X4.  When LBTYA and FOX are each given at most once, lines 109-126
    leave the symbol list with LBTYA renamed to LBTY and FOX to FOXA, every
    other symbol in its place, and a dictionary with a condition on the
    suffix for every symbol of that list, so that the lookup of [query_sql]
    does not raise: ='L' for GOOG, ='K' for LBTY when LBTYA was given (also
    for an LBTY given beside it), and is null otherwise. *)
Theorem X4_symbols_renamed (symbol_list : list string) :
  length (filter (λ s, s = "LBTYA") symbol_list) ≤ 1 →
  length (filter (λ s, s = "FOX") symbol_list) ≤ 1 →
  let renamed :=
    (λ s, if bool_decide (s = "LBTYA") then "LBTY"
          else if bool_decide (s = "FOX") then "FOXA" else s) <$> symbol_list in
  ∃ suffix_query,
    normalise symbol_list = Ok (renamed, suffix_query)
    ∧ ∀ s, s ∈ renamed →
        key suffix_query s
        = Ok (if bool_decide (s = "GOOG") then "='L'"
              else if bool_decide (s = "LBTY" ∧ "LBTYA" ∈ symbol_list) then "='K'"
              else "is null").
Proof.
  intros Hl Hf renamed.
  destruct (normalise_spec symbol_list) as (q & Hnorm & Hq). simpl in Hnorm.
  pose proof (replace_once "LBTYA" "LBTY" symbol_list Hl) as Hl2.
  rewrite Hl2 in Hnorm.
  set (l2 := (λ s, if bool_decide (s = "LBTYA") then "LBTY" else s) <$> symbol_list) in *.
  assert (length (filter (λ s, s = "FOX") l2) ≤ 1) as Hf2
    by (unfold l2; by rewrite times_rename).
  pose proof (replace_once "FOX" "FOXA" l2 Hf2) as Hl3.
  assert ("FOX" ∈ l2 ↔ "FOX" ∈ symbol_list) as Hfox
    by (rewrite <- !times_elem_of; unfold l2; by rewrite times_rename).
  rewrite (bool_decide_ext _ _ Hfox) in Hl3. rewrite Hl3 in Hnorm.
  assert ((λ s, if bool_decide (s = "FOX") then "FOXA" else s) <$> l2 = renamed) as Hren.
  { unfold l2, renamed. rewrite <- list_fmap_compose. apply list_fmap_ext.
    intros _ s _. simpl. repeat case_bool_decide; simplify_eq; done. }
  rewrite Hren in Hnorm. exists q. split; [done|].
  intros s (s0 & -> & Hin)%list_elem_of_fmap. unfold key. rewrite Hq.
  assert (s0 = "FOX" → "FOX" ∈ symbol_list) by (by intros <-).
  assert (s0 = "LBTYA" → "LBTYA" ∈ symbol_list) by (by intros <-).
  assert (s0 = "GOOG" → "GOOG" ∈ symbol_list) by (by intros <-).
  assert (s0 ∈ unwanted_symbols → s0 = "GOOG" ∨ s0 = "LBTYA" ∨ s0 = "FOX") as Hun.
  { intros Hu. repeat (apply elem_of_cons in Hu as [->|Hu]; [tauto|]).
    by apply elem_of_nil in Hu. }
  assert (s0 ≠ "GOOG" → s0 ≠ "LBTYA" → s0 ≠ "FOX" → s0 ∉ unwanted_symbols)
    by (intros ? ? ? ?%Hun; tauto).
  repeat (case_bool_decide; destruct_and?; simplify_eq; try done); tauto.
Qed.

(** X4 on a list with GOOG, LBTYA and FOX, each once. *)
Lemma X4_symbols_renamed_witness :
  match normalise ["AAPL"; "FOX"; "GOOG"; "LBTYA"] with
  | Ok (queried, suffix_query) =>
      queried = ["AAPL"; "FOXA"; "GOOG"; "LBTY"]
      ∧ key suffix_query <$> queried
        = [Ok "is null"; Ok "is null"; Ok "='L'"; Ok "='K'"]
  | _ => False
  end
  ∧ let symbol_list := ["AAPL"; "FOX"; "GOOG"; "LBTYA"] in
    let renamed :=
      (λ s, if bool_decide (s = "LBTYA") then "LBTY"
            else if bool_decide (s = "FOX") then "FOXA" else s) <$> symbol_list in
    ∃ suffix_query,
      normalise symbol_list = Ok (renamed, suffix_query)
      ∧ ∀ s, s ∈ renamed →
          key suffix_query s
          = Ok (if bool_decide (s = "GOOG") then "='L'"
                else if bool_decide (s = "LBTY" ∧ "LBTYA" ∈ symbol_list) then "='K'"
                else "is null").
Proof.
  split; [by vm_compute|].
  apply (X4_symbols_renamed ["AAPL"; "FOX"; "GOOG"; "LBTYA"]); vm_compute; lia.
Defined.

(** X5.  When LBTYA, or FOX, is given twice or more, only its first
    occurrence is renamed: the symbol stays in the list that is queried and
    has no entry in the dictionary of suffix conditions, so that the lookup
    of [query_sql] for it raises [KeyError]. *)
Theorem X5_symbol_given_twice (symbol_list : list string) (symbol : string) :
  symbol ∈ ["LBTYA"; "FOX"] →
  2 ≤ length (filter (λ s, s = symbol) symbol_list) →
  ∃ queried suffix_query,
    normalise symbol_list = Ok (queried, suffix_query)
    ∧ length queried = length symbol_list
    ∧ symbol ∈ queried
    ∧ key suffix_query symbol = Raise KeyError.
Proof.
  intros Hs Htwice.
  destruct (normalise_spec symbol_list) as (q & Hnorm & Hq). simpl in Hnorm.
  eexists _, q. split; [exact Hnorm|]. split.
  { repeat case_bool_decide; by rewrite ?length_insert. }
  assert (symbol_list ≠ []) as Hne by (intros ->; simpl in Htwice; lia).
  split.
  - clear Hnorm Hq. apply times_elem_of.
    apply elem_of_cons in Hs as [->|Hs];
      [|apply elem_of_cons in Hs as [->|Hs]; [|by apply elem_of_nil in Hs]].
    + assert ("LBTYA" ∈ symbol_list) as Hin by (apply times_elem_of; lia).
      rewrite (bool_decide_true _ Hin).
      pose proof (times_replace_self "LBTYA" "LBTY" symbol_list Hin) as E.
      case_bool_decide as Hfox.
      * rewrite times_replace_other; [rewrite E by done; lia| |done..].
        apply times_elem_of. rewrite times_replace_other by done.
        by apply times_elem_of.
      * rewrite E by done. lia.
    + assert ("FOX" ∈ symbol_list) as Hin by (apply times_elem_of; lia).
      rewrite (bool_decide_true _ Hin).
      case_bool_decide as Hl.
      * assert (length (filter (λ s, s = "FOX")
                          (<[index "LBTYA" symbol_list := "LBTY"]> symbol_list))
                = length (filter (λ s, s = "FOX") symbol_list)) as E
          by (by apply times_replace_other).
        rewrite times_replace_self; [lia| |done].
        apply times_elem_of. lia.
      * rewrite times_replace_self by done. lia.
  - unfold key. rewrite Hq.
    apply elem_of_cons in Hs as [->|Hs];
      [|apply elem_of_cons in Hs as [->|Hs]; [|by apply elem_of_nil in Hs]].
    + rewrite !bool_decide_false; [done|..]; try by intros [? _].
      intros [_ Hun]. apply Hun. in_list.
    + rewrite !bool_decide_false; [done|..]; try by intros [? _].
      intros [_ Hun]. apply Hun. in_list.
Qed.

(** X5 on [-sl LBTYA AAPL LBTYA]. *)
Lemma X5_symbol_given_twice_witness :
  match normalise ["LBTYA"; "AAPL"; "LBTYA"] with
  | Ok (queried, suffix_query) =>
      queried = ["LBTY"; "AAPL"; "LBTYA"]
      ∧ key suffix_query <$> queried = [Ok "='K'"; Ok "is null"; Raise KeyError]
  | _ => False
  end
  ∧ ∃ queried suffix_query,
      normalise ["LBTYA"; "AAPL"; "LBTYA"] = Ok (queried, suffix_query)
      ∧ length queried = length ["LBTYA"; "AAPL"; "LBTYA"]
      ∧ "LBTYA" ∈ queried
      ∧ key suffix_query "LBTYA" = Raise KeyError.
Proof.
  split; [by vm_compute|].
  apply (X5_symbol_given_twice ["LBTYA"; "AAPL"; "LBTYA"] "LBTYA").
  - in_list.
  - vm_compute. lia.
Defined.

End symbols_facts.

(** ** The outlier filter: the series it returns *)

Section mask_facts.
Import Np Outlier.

Lemma length_fill {A} (a : list A) (b e : Z) (v : A) : length (fill a b e v) = length a.
Proof.
  unfold fill. rewrite !length_app, length_replicate, length_take, length_drop.
  pose proof (clip_le (length a) b). pose proof (clip_le (length a) e). lia.
Qed.

Lemma length_clamp cb ce (s s' : list float) :
  clamp cb ce s = Ok s' → length s' = length s.
Proof.
  unfold clamp. destruct (getitem s cb) as [first| |]; simpl; try done.
  destruct (getitem (fill s 0 cb first) (ce - 1)) as [last| |]; simpl; try done.
  intros [= <-]. by rewrite !length_fill.
Qed.

Lemma length_setitem {A} (a a' : list A) (i : Z) (v : A) :
  setitem a i v = Ok a' → length a' = length a.
Proof.
  unfold setitem. destruct (position (length a) i); simpl; try done.
  intros [= <-]. by rewrite length_insert.
Qed.

Lemma length_rolling {B} (stat : list Qc → B) prices cb ce positions :
  ∀ window rolled rolled',
    rolling stat prices cb ce positions window rolled = Ok rolled' →
    length rolled' = length rolled.
Proof.
  induction positions as [|i positions IH]; intros window rolled rolled'; simpl.
  { by intros [= <-]. }
  destruct (setitem rolled i (stat window)) as [rolled1| |] eqn:E; simpl; try done.
  apply length_setitem in E. rewrite <- E.
  destruct (if bool_decide (i < ce - 1)%Z then advance prices cb i window else Ok window)
    as [window1| |]; simpl; try done.
  apply IH.
Qed.

(** The comparisons of lines 436 and 437 never both hold. *)
Lemma count_gt_lt (l r : list float) :
  (count_true (zip_with gt l r) + count_true (zip_with lt l r)
   ≤ Z.of_nat (length (zip_with lt l r)))%Z.
Proof.
  unfold count_true. revert r. induction l as [|a l IH]; intros [|b r]; simpl; try lia.
  specialize (IH r). rewrite !filter_cons.
  assert (¬ (Is_true (gt a b) ∧ Is_true (lt a b))) as Hex.
  { unfold gt, lt. destruct a as [a|], b as [b|]; simpl; try tauto.
    rewrite !bool_decide_spec. intros [H1 H2].
    apply (Qclt_not_le _ _ H1). by apply Qclt_le_weak. }
  destruct (decide (Is_true (gt a b))), (decide (Is_true (lt a b))); simpl; try lia.
  tauto.
Qed.

Lemma count_true_bounds (m : list bool) : (0 ≤ count_true m ≤ Z.of_nat (length m))%Z.
Proof. unfold count_true. pose proof (length_filter Is_true m). lia. Qed.

Lemma count_true_app (m1 m2 : list bool) :
  count_true (m1 ++ m2) = (count_true m1 + count_true m2)%Z.
Proof. unfold count_true. rewrite filter_app, length_app. lia. Qed.

Context (sqrt : Qc → Qc).

Lemma length_rolling_stats k prices means stds :
  rolling_stats sqrt k prices = Ok (means, stds) →
  length means = length prices ∧ length stds = length prices.
Proof.
  unfold rolling_stats.
  destruct (rolling _ _ _ _ _ _ _) as [rolled| |] eqn:E; simpl; try done.
  apply length_rolling in E. rewrite length_replicate in E.
  destruct (clamp _ _ (rolled.*1)) as [ms| |] eqn:E1; simpl; try done.
  destruct (clamp _ _ (rolled.*2)) as [ss| |] eqn:E2; simpl; try done.
  intros [= <- <-]. apply length_clamp in E1, E2.
  rewrite length_fmap in E1, E2. lia.
Qed.

(** One day: a value of the series per trade; no trade is both counted as
    an outlier and kept. *)
Lemma filter_day_series k y prices n m :
  filter_day sqrt k y prices = Ok (n, m) →
  length m = length prices
  ∧ (0 ≤ n)%Z ∧ (n + count_true m ≤ Z.of_nat (length prices))%Z.
Proof.
  unfold filter_day.
  destruct (rolling_stats sqrt k prices) as [[means stds]| |] eqn:E; simpl; try done.
  apply length_rolling_stats in E as [Hm Hs]. intros [= <- <-].
  assert (length (zip_with lt (left_con prices means) (right_con y stds))
          = length prices) as Hlen.
  { unfold left_con, right_con. rewrite !length_zip_with, length_fmap. lia. }
  split; [done|]. split; [apply count_true_bounds|].
  rewrite <- Hlen. apply count_gt_lt.
Qed.

(** The days of a symbol in sequence. *)
Lemma dates_loop_series k y days :
  ∀ n0 m0 n m,
    dates_loop sqrt k y days n0 m0 = Ok (n, m) →
    length m = length m0 + sum_list (length <$> days)
    ∧ (n0 ≤ n)%Z
    ∧ ((n - n0) + (count_true m - count_true m0)
       ≤ Z.of_nat (sum_list (length <$> days)))%Z.
Proof.
  induction days as [|d days IH]; intros n0 m0 n m.
  { simpl. intros [= <- <-]. split; [lia|]. split; lia. }
  change (sum_list (length <$> d :: days))
    with (length d + sum_list (length <$> days)).
  cbn [dates_loop].
  destruct (filter_day sqrt k y d) as [[n1 m1]| |] eqn:E;
    cbn [mbind result_bind Py.bind]; try done.
  apply filter_day_series in E as (Hlen & Hn1 & Hcount).
  intros (Hl & Hn & Hc)%IH. rewrite length_app in Hl.
  rewrite count_true_app in Hc. split; [lia|]. split; lia.
Qed.

(** The row kept by the loop over the grid is the row of one of its
    points. *)
Lemma grid_loop_row days grid (P : choice → Prop) :
  (∀ k y n m, (k, y) ∈ grid → dates_loop sqrt k y days 0 [] = Ok (n, m) →
     P {| out_num := n; k_chosen := k; y_chosen := y; not_outlier_sym_f := m |}) →
  ∀ count row best,
    (∀ c, row = Some c → P c) →
    grid_loop sqrt days grid count row = Ok (Some best) → P best.
Proof.
  induction grid as [|[k y] grid IH]; intros HP count row best Hrow; simpl.
  { intros [= ->]. by apply Hrow. }
  destruct (dates_loop sqrt k y days 0 []) as [[n m]| |] eqn:E; simpl; try done.
  apply IH.
  - intros k' y' n' m' Hin. apply HP. by right.
  - intros c. case_bool_decide.
    + intros [= <-]. apply HP; [by left|done].
    + destruct row as [b|]; [|done]. case_bool_decide.
      * intros [= <-]. apply HP; [by left|done].
      * intros [= <-]. by apply Hrow.
Qed.

End mask_facts.

(** X6.  When the search over the grid returns a row for a symbol, the row
    is that of a point of the grid; its series [not_outlier_sym_f] has one
    value for each trade of the symbol on the dates of the date list, in
    their order; and the trades counted as outliers and the trades kept are
    disjoint: their numbers add up to at most the number of trades (a trade
    at equality, or with a NaN statistic, is in neither). *)
Theorem X6_series_of_search (sqrt : Qc → Qc) (grid : list (Qc * Qc))
    (output : list Query.trade) (date_list : list string) (symbol : string)
    (best : Outlier.choice) :
  Outlier.search sqrt grid output date_list symbol = Ok (Some best) →
  let trades := sum_list ((λ d, length (Outlier.price_sym_day output symbol d))
                            <$> date_list) in
  (Outlier.k_chosen best, Outlier.y_chosen best) ∈ grid
  ∧ length (Outlier.not_outlier_sym_f best) = trades
  ∧ (0 ≤ Outlier.out_num best)%Z
  ∧ (Outlier.out_num best + Outlier.count_true (Outlier.not_outlier_sym_f best)
     ≤ Z.of_nat trades)%Z.
Proof.
  intros Hsearch trades. unfold Outlier.search in Hsearch.
  eapply (grid_loop_row sqrt _ grid
            (λ c, (Outlier.k_chosen c, Outlier.y_chosen c) ∈ grid
                  ∧ length (Outlier.not_outlier_sym_f c) = trades
                  ∧ (0 ≤ Outlier.out_num c)%Z
                  ∧ (Outlier.out_num c
                     + Outlier.count_true (Outlier.not_outlier_sym_f c)
                     ≤ Z.of_nat trades)%Z)); [| |exact Hsearch].
  - intros k y n m Hin (Hl & Hn & Hc)%dates_loop_series. simpl in *.
    rewrite <- list_fmap_compose in Hl, Hc. fold trades in Hl, Hc.
    split; [done|]. split; [done|]. split; [exact Hn|].
    change (Outlier.count_true []) with 0%Z in Hc.
    change (Z.of_nat (sum_list _)) with (Z.of_nat trades) in Hc. lia.
  - done.
Qed.

(** X6 on the day of 120 trades with two spikes: 2 outliers and 118 trades
    kept. *)
Lemma X6_series_of_search_witness :
  ∃ best,
    Outlier.search Sample.sqrt Outlier.ky_array Sample.spiked_day ["20190328"] "AAPL"
    = Ok (Some best)
    ∧ Outlier.out_num best = 2%Z
    ∧ Outlier.count_true (Outlier.not_outlier_sym_f best) = 118%Z
    ∧ let trades := sum_list ((λ d, length (Outlier.price_sym_day Sample.spiked_day
                                              "AAPL" d)) <$> ["20190328"]) in
      (Outlier.k_chosen best, Outlier.y_chosen best) ∈ Outlier.ky_array
      ∧ length (Outlier.not_outlier_sym_f best) = trades
      ∧ (0 ≤ Outlier.out_num best)%Z
      ∧ (Outlier.out_num best + Outlier.count_true (Outlier.not_outlier_sym_f best)
         ≤ Z.of_nat trades)%Z.
Proof.
  eexists. split; [vm_compute; reflexivity|].
  split; [by vm_compute|]. split; [by vm_compute|].
  apply (X6_series_of_search Sample.sqrt Outlier.ky_array Sample.spiked_day
           ["20190328"] "AAPL").
  vm_compute. reflexivity.
Defined.

(** ** The outlier filter on a day with a full window *)

Section full_day_facts.
Import Np Outlier.

(** Lines 428-431 on a series that the loop filled between [c] and
    [c + length mid]. *)
Lemma clamp_edges (c : nat) (x f l : float) (mid : list float) :
  head mid = Some f → last mid = Some l →
  clamp (Z.of_nat c) (Z.of_nat (c + length mid))
    (replicate c x ++ mid ++ replicate c x)
  = Ok (replicate c f ++ mid ++ replicate c l).
Proof.
  intros Hf Hl.
  assert (0 < length mid) as Hm by (destruct mid; [done|simpl; lia]).
  set (s := replicate c x ++ mid ++ replicate c x).
  assert (length s = c + length mid + c) as Hs
    by (unfold s; rewrite !length_app, !length_replicate; lia).
  unfold clamp, getitem. rewrite position_in by lia.
  cbn [mbind result_bind Py.bind]. rewrite Nat2Z.id.
  assert (s !! c = Some f) as ->.
  { unfold s. rewrite lookup_app_r by (rewrite length_replicate; lia).
    rewrite length_replicate, Nat.sub_diag, lookup_app_l by lia.
    by rewrite <- head_lookup. }
  cbn [mbind result_bind Py.bind].
  assert (fill s 0 (Z.of_nat c) f = replicate c f ++ mid ++ replicate c x) as ->.
  { unfold fill, clip. rewrite !bool_decide_false by lia.
    rewrite Hs. replace (Z.to_nat (0 `min` Z.of_nat (c + length mid + c))) with 0 by lia.
    replace (Z.to_nat (Z.of_nat c `min` Z.of_nat (c + length mid + c))) with c by lia.
    rewrite take_0, Nat.sub_0_r. simpl. f_equal.
    unfold s. by rewrite drop_app_length' by by rewrite length_replicate. }
  set (s' := replicate c f ++ mid ++ replicate c x).
  assert (length s' = c + length mid + c) as Hs'
    by (unfold s'; rewrite !length_app, !length_replicate; lia).
  rewrite position_in by lia. cbn [mbind result_bind Py.bind].
  assert (s' !! Z.to_nat (Z.of_nat (c + length mid) - 1) = Some l) as ->.
  { replace (Z.to_nat (Z.of_nat (c + length mid) - 1)) with (c + (length mid - 1)) by lia.
    unfold s'. rewrite lookup_app_r by (rewrite length_replicate; lia).
    rewrite length_replicate. replace (c + (length mid - 1) - c) with (length mid - 1) by lia.
    rewrite lookup_app_l by lia. rewrite last_lookup in Hl.
    by replace (length mid - 1) with (pred (length mid)) by lia. }
  cbn [mbind result_bind Py.bind mret result_ret]. f_equal. unfold fill, clip. rewrite !bool_decide_false by lia.
  rewrite Hs'.
  replace (Z.to_nat (Z.of_nat (c + length mid) `min` Z.of_nat (c + length mid + c)))
    with (c + length mid) by lia.
  replace (Z.to_nat (Z.of_nat (c + length mid + c) `min` Z.of_nat (c + length mid + c)))
    with (c + length mid + c) by lia.
  replace (c + length mid + c - (c + length mid)) with c by lia.
  rewrite drop_ge by lia. rewrite app_nil_r.
  unfold s'. rewrite app_assoc, take_app_length' by (rewrite length_app, length_replicate; lia).
  by rewrite <- app_assoc.
Qed.

(** The value at a position of a series of that shape. *)
Lemma lookup_clamped {A} (c : nat) (f l : A) (mid : list A) (i : nat) :
  head mid = Some f → last mid = Some l →
  i < c + length mid + c →
  (replicate c f ++ mid ++ replicate c l) !! i
  = mid !! (Nat.max c (Nat.min i (c + length mid - 1)) - c).
Proof.
  intros Hf Hl Hi.
  assert (0 < length mid) as Hm by (destruct mid; [done|simpl; lia]).
  destruct (decide (i < c)) as [Hlt|Hge].
  - rewrite lookup_app_l by (rewrite length_replicate; lia).
    rewrite lookup_replicate_2 by lia.
    replace (c `max` (i `min` (c + length mid - 1)) - c) with 0 by lia.
    by rewrite <- head_lookup.
  - rewrite lookup_app_r by (rewrite length_replicate; lia).
    rewrite length_replicate.
    destruct (decide (i < c + length mid)) as [Hmid|Hend].
    + rewrite lookup_app_l by lia. f_equal. lia.
    + rewrite lookup_app_r by lia. rewrite lookup_replicate_2 by lia.
      replace (c `max` (i `min` (c + length mid - 1)) - c) with (pred (length mid)) by lia.
      by rewrite <- last_lookup.
Qed.

Lemma lookup_range (a b : Z) (j : nat) :
  j < Z.to_nat (b - a) → range a b !! j = Some (a + Z.of_nat j)%Z.
Proof.
  intros Hj. unfold range. rewrite list_lookup_fmap, lookup_seq_lt by done. done.
Qed.

Lemma length_range (a b : Z) : length (range a b) = Z.to_nat (b - a).
Proof. unfold range. by rewrite length_fmap, length_seq. Qed.

Lemma length_sort (a : list Qc) : length (sort a) = length a.
Proof. by rewrite sort_permutation. Qed.

Lemma length_slice {A} (a : list A) (b e : Z) :
  (0 ≤ b ≤ e)%Z → (e ≤ Z.of_nat (length a))%Z →
  length (slice a b e) = Z.to_nat (e - b).
Proof.
  intros Hb He. rewrite slice_take_drop by done.
  rewrite length_take, length_drop. lia.
Qed.

(** The trimmed part of a window of the grid is not empty. *)
Lemma k_list_trimmed :
  Forall (λ k, (0 ≤ perc_b k < perc_t k)%Z ∧ (perc_t k ≤ int k)%Z) k_list.
Proof. apply (bool_decide_unpack _). by vm_compute. Qed.

Context (sqrt : Qc → Qc).

(** On a window of [k] prices the trimmed mean and standard deviation are
    numbers. *)
Lemma stats_number k (window : list Qc) :
  k ∈ k_list → Z.of_nat (length window) = int k →
  ∃ m s, stats sqrt k window = (Some m, Some s).
Proof.
  intros Hk Hlen.
  destruct (proj1 (Forall_forall _ _) k_list_trimmed _ Hk) as [Hb Ht].
  unfold stats.
  assert (0 < length (slice window (perc_b k) (perc_t k))) as Hpos
    by (rewrite length_slice by lia; lia).
  destruct (slice window (perc_b k) (perc_t k)) as [|t trimmed]; [simpl in Hpos; lia|].
  by eexists _, _.
Qed.

(** The statistics of a day of at least [k] trades: at each position those
    of the sorted window centred at the position, moved into
    [center_beg, center_end) when the position is outside. *)
Lemma rolling_stats_full k (prices : list Qc) :
  k ∈ k_list → (int k ≤ Z.of_nat (length prices))%Z →
  ∃ means stds,
    rolling_stats sqrt k prices = Ok (means, stds)
    ∧ ∀ i, i < length prices →
        let centre := (center_beg k `max`
                       (Z.of_nat i `min` (Z.of_nat (length prices) - center_beg k - 1)))%Z in
        let window := sort (slice prices (centre - center_beg k)
                              (centre + center_beg k + 1)) in
        Z.of_nat (length window) = int k
        ∧ means !! i = Some (stats sqrt k window).1
        ∧ stds !! i = Some (stats sqrt k window).2.
Proof.
  intros Hk Hn.
  destruct (proj1 (Forall_forall _ _) k_list_odd _ Hk) as [Hc Hodd].
  remember (Z.to_nat (center_beg k)) as c eqn:Hceq.
  assert (center_beg k = Z.of_nat c) as Hcb by lia.
  assert (int k = Z.of_nat (2 * c + 1)) as Hint by lia.
  set (n := length prices) in *.
  set (F := λ i : Z, stats sqrt k (sort (slice prices (i - Z.of_nat c)
                                            (i - Z.of_nat c + Z.of_nat (2 * c + 1))))).
  set (positions := range (Z.of_nat c) (Z.of_nat n - Z.of_nat c)).
  assert (length positions = n - 2 * c) as Hpos
    by (unfold positions; rewrite length_range; lia).
  assert (∀ j, j < n - 2 * c → positions !! j = Some (Z.of_nat (c + j))) as Hlook.
  { intros j Hj. unfold positions. rewrite lookup_range by lia. f_equal. lia. }
  assert (∀ (g : float * float → float),
            clamp (Z.of_nat c) (Z.of_nat n - Z.of_nat c)
              (g <$> (replicate c (nan, nan) ++ (F <$> positions)
                      ++ replicate c (nan, nan)))
            = Ok (replicate c (g (F (Z.of_nat c))) ++ (g ∘ F <$> positions)
                  ++ replicate c (g (F (Z.of_nat (n - c - 1)))))) as Hclamp.
  { intros g. rewrite !fmap_app, !fmap_replicate, <- list_fmap_compose.
    replace (Z.of_nat n - Z.of_nat c)%Z
      with (Z.of_nat (c + length (g ∘ F <$> positions)))
      by (rewrite length_fmap, Hpos; lia).
    apply clamp_edges.
    - rewrite head_lookup, list_lookup_fmap, Hlook by lia. simpl.
      by rewrite Nat.add_0_r.
    - rewrite last_lookup, list_lookup_fmap, length_fmap, Hpos, Hlook by lia. simpl.
      do 3 f_equal. lia. }
  unfold rolling_stats. cbv zeta. rewrite Hcb, Hint. fold n.
  rewrite rolling_sorted_slices by (fold n; lia). fold n. fold F. fold positions.
  cbn [mbind result_bind Py.bind].
  rewrite (Hclamp fst). cbn [mbind result_bind Py.bind].
  rewrite (Hclamp snd). cbn [mbind result_bind Py.bind mret result_ret].
  eexists _, _. split; [done|].
  intros i Hi.
  set (centre := (Z.of_nat c `max` (Z.of_nat i `min` (Z.of_nat n - Z.of_nat c - 1)))%Z).
  set (window := sort (slice prices (centre - Z.of_nat c) (centre + Z.of_nat c + 1))).
  set (p := Nat.max c (Nat.min i (c + (n - 2 * c) - 1))).
  assert (centre = Z.of_nat p) as Hcentre by (unfold centre, p; lia).
  assert (window = sort (slice prices (Z.of_nat p - Z.of_nat c)
                           (Z.of_nat p - Z.of_nat c + Z.of_nat (2 * c + 1)))) as Hwin.
  { unfold window. rewrite Hcentre. do 2 f_equal. lia. }
  split.
  { rewrite Hwin, length_sort, length_slice by (fold n; lia). lia. }
  assert (∀ g : float * float → float,
            (replicate c (g (F (Z.of_nat c))) ++ (g ∘ F <$> positions)
             ++ replicate c (g (F (Z.of_nat (n - c - 1))))) !! i
            = Some (g (stats sqrt k window))) as Hi'.
  { intros g. rewrite lookup_clamped.
    - rewrite length_fmap, Hpos. fold p.
      rewrite list_lookup_fmap, Hlook by (unfold p; lia). simpl.
      replace (c + (p - c)) with p by (unfold p; lia).
      unfold F. by rewrite <- Hwin.
    - rewrite head_lookup, list_lookup_fmap, Hlook by lia. simpl.
      by rewrite Nat.add_0_r.
    - rewrite last_lookup, list_lookup_fmap, length_fmap, Hpos, Hlook by lia. simpl.
      do 3 f_equal. lia.
    - rewrite length_fmap, Hpos. lia. }
  split; [apply (Hi' fst)|apply (Hi' snd)].
Qed.

End full_day_facts.

(** X7.  For a window size [k] of the grid and a day of at least [k]
    trades, the filter returns, with a value of each series per trade.  The
    trade at position [i] is compared with the trimmed mean [m] and standard
    deviation [s] of the sorted window of [k] prices centred at [i], or, for
    the first and last [center_beg] positions, centred at the nearest
    position with a full window; [m] and [s] are numbers; the trade is
    counted as an outlier when [3 s + y < |p - m|] and kept when
    [|p - m| < 3 s + y]. *)
Theorem X7_full_day_filter (sqrt : Qc → Qc) (k y : Qc) (prices : list Qc) :
  k ∈ Outlier.k_list →
  (Py.int k ≤ Z.of_nat (length prices))%Z →
  ∃ outliers kept,
    Outlier.filter_day sqrt k y prices = Ok (Outlier.count_true outliers, kept)
    ∧ length outliers = length prices ∧ length kept = length prices
    ∧ ∀ i p, prices !! i = Some p →
        let centre :=
          (Outlier.center_beg k
           `max` (Z.of_nat i
                  `min` (Z.of_nat (length prices) - Outlier.center_beg k - 1)))%Z in
        let window :=
          Np.sort (Np.slice prices (centre - Outlier.center_beg k)
                     (centre + Outlier.center_beg k + 1)) in
        ∃ m s,
          Outlier.stats sqrt k window = (Some m, Some s)
          ∧ outliers !! i = Some (bool_decide (Np.of_Z 3 * s + y < Qcabs (p - m))%Qc)
          ∧ kept !! i = Some (bool_decide (Qcabs (p - m) < Np.of_Z 3 * s + y)%Qc).
Proof.
  intros Hk Hn.
  destruct (rolling_stats_full sqrt k prices Hk Hn) as (means & stds & Hstats & Hat).
  assert (length means = length prices ∧ length stds = length prices) as [Hlm Hls]
    by by apply (length_rolling_stats sqrt k).
  unfold Outlier.filter_day. rewrite Hstats. cbn [mbind result_bind Py.bind].
  eexists _, _. split; [done|].
  unfold Outlier.left_con, Outlier.right_con.
  split; [rewrite !length_zip_with, length_fmap; lia|].
  split; [rewrite !length_zip_with, length_fmap; lia|].
  intros i p Hp. cbv zeta.
  pose proof (Hat i (lookup_lt_Some _ _ _ Hp)) as Hi. cbv zeta in Hi.
  destruct Hi as (Hlen & Hm & Hs).
  destruct (stats_number sqrt k _ Hk Hlen) as (m & s & Hms).
  rewrite Hms in Hm, Hs. exists m, s. split; [done|].
  rewrite !lookup_zip_with, list_lookup_fmap, Hp, Hm, Hs. done.
Qed.

(** X7 on the day of 120 trades with two spikes, for k = 41 and y = 0.02:
    its first trade is kept. *)
Lemma X7_full_day_filter_witness :
  let prices := Outlier.price_sym_day Sample.spiked_day "AAPL" "20190328" in
  let k := Np.of_Z 41 in
  let y := Sample.cents 2 in
  ∃ outliers kept,
    Outlier.filter_day Sample.sqrt k y prices = Ok (Outlier.count_true outliers, kept)
    ∧ length outliers = length prices ∧ length kept = length prices
    ∧ ∀ i p, prices !! i = Some p →
        let centre :=
          (Outlier.center_beg k
           `max` (Z.of_nat i
                  `min` (Z.of_nat (length prices) - Outlier.center_beg k - 1)))%Z in
        let window :=
          Np.sort (Np.slice prices (centre - Outlier.center_beg k)
                     (centre + Outlier.center_beg k + 1)) in
        ∃ m s,
          Outlier.stats Sample.sqrt k window = (Some m, Some s)
          ∧ outliers !! i = Some (bool_decide (Np.of_Z 3 * s + y < Qcabs (p - m))%Qc)
          ∧ kept !! i = Some (bool_decide (Qcabs (p - m) < Np.of_Z 3 * s + y)%Qc).
Proof.
  intros prices k y. apply (X7_full_day_filter Sample.sqrt k y prices).
  - apply (bool_decide_unpack _). by vm_compute.
  - apply (bool_decide_unpack _). by vm_compute.
Defined.

(** ** The resampled day: sizes and prices *)

Section resample_more.
Import Np Resample.

#[local] Abbreviation total zs := (foldr Z.add 0%Z zs).

Lemma total_app (xs ys : list Z) : total (xs ++ ys) = (total xs + total ys)%Z.
Proof. induction xs as [|x xs IH]; simpl; lia. Qed.

(** A sum over the bins, each bin summing its own rows, is the sum over
    the rows when each row is in exactly one bin. *)
Lemma total_zero {T} (f : T → Z) (ts : list T) :
  (∀ t, t ∈ ts → f t = 0%Z) → total (f <$> ts) = 0%Z.
Proof.
  induction ts as [|t ts IH]; intros Hf; [done|].
  rewrite fmap_cons. cbn [foldr]. rewrite IH by (intros; apply Hf; by right).
  rewrite Hf by by left. done.
Qed.

Lemma total_indicator {T} `{EqDecision T} (ts : list T) (t0 : T) (x : Z) :
  NoDup ts → t0 ∈ ts →
  total ((λ t, if decide (t = t0) then x else 0%Z) <$> ts) = x.
Proof.
  induction 1 as [|t ts Hnot Hnd IH]; intros Hin; [by apply elem_of_nil in Hin|].
  rewrite fmap_cons. cbn [foldr]. destruct (decide (t = t0)) as [->|Hne].
  - rewrite total_zero; [lia|]. intros t Ht. rewrite decide_False; [done|].
    by intros ->.
  - apply elem_of_cons in Hin as [->|Hin]; [done|]. by rewrite IH.
Qed.

Lemma total_partition {A T} `{EqDecision T} (w : A → Z) (bin : A → T)
    (ts : list T) (l : list A) :
  NoDup ts → (∀ a, a ∈ l → bin a ∈ ts) →
  total ((λ t, total (w <$> filter (λ a, bin a = t) l)) <$> ts) = total (w <$> l).
Proof.
  intros Hnd. induction l as [|a l IH]; intros Hin.
  { by apply total_zero. }
  rewrite fmap_cons. cbn [foldr]. rewrite <- IH by (intros; apply Hin; by right).
  rewrite <- (total_indicator ts (bin a) (w a) Hnd) at 1 by (apply Hin; by left).
  clear IH Hin Hnd. induction ts as [|t ts IHts]; [done|].
  rewrite !fmap_cons. cbn [foldr]. rewrite IHts, filter_cons.
  destruct (decide (bin a = t)) as [->|Hne].
  - rewrite decide_True by done. rewrite fmap_cons. cbn [foldr]. lia.
  - rewrite decide_False by (by intros ->). lia.
Qed.

Lemma NoDup_date_range (start end_ freq : Z) :
  (0 < freq)%Z → NoDup (date_range start end_ freq).
Proof.
  intros Hf. unfold date_range. apply NoDup_fmap_2; [|apply NoDup_seq].
  intros i j Hij. nia.
Qed.

(** The bin of a row of the day is one of the bins of the day. *)
Lemma label_in_labels (freq : Z) (df : list Query.trade) (o : Query.trade) :
  (0 < freq)%Z → o ∈ df → bin_label freq (Query.time_m o) ∈ labels freq df.
Proof.
  intros Hf Ho.
  destruct (minimum_spec (Query.time_m <$> df)) as [Hmin _].
  destruct (maximum_spec (Query.time_m <$> df)) as [Hmax _].
  assert (Query.time_m o ∈ Query.time_m <$> df) as Hin
    by (apply list_elem_of_fmap; by exists o).
  apply elem_of_labels; [done|]. split; [by intros ->; apply elem_of_nil in Ho|].
  split; [by apply bin_label_spec|].
  split; apply bin_label_mono; auto.
Qed.

(** The rows of a bin are the rows whose bin has its label. *)
Lemma filter_in_bin (freq t : Z) (df : list Query.trade) :
  (0 < freq)%Z → (t mod freq = 0)%Z →
  filter (in_bin freq t) df
  = filter (λ o, bin_label freq (Query.time_m o) = t) df.
Proof.
  intros Hf Ht. apply list_filter_iff. intros o. split.
  - intros Hin. symmetry. by apply in_bin_unique.
  - intros <-. by apply in_bin_label.
Qed.

(** A NaN in [size] stands for a bin without rows. *)
Lemma size_joined (freq t : Z) (df : list Query.trade) :
  (0 < freq)%Z → (t mod freq = 0)%Z →
  default 0%Z (size (joined freq df t)) = volume_sum freq t df.
Proof.
  intros Hf Ht. unfold joined. case_bool_decide as Hin; [done|]. simpl.
  unfold volume_sum. rewrite filter_none; [done|].
  intros o Ho Hbin. apply Hin.
  rewrite (in_bin_unique freq t o Hf Ht Hbin). by apply label_in_labels.
Qed.

Lemma size_resample_day (freq start_time end_time : Z) (df : list Query.trade) :
  size <$> resample_day freq start_time end_time df
  = (λ t, size (joined freq df t)) <$> date_range start_time end_time freq.
Proof.
  apply list_eq. intros i. rewrite !list_lookup_fmap.
  destruct (resample_day freq start_time end_time df !! i) as [r|] eqn:E; simpl.
  - apply lookup_resample_day in E as (t & p & Ht & _ & ->). by rewrite Ht.
  - apply lookup_ge_None in E. rewrite length_resample_day in E.
    by rewrite (proj2 (lookup_ge_None _ _) E).
Qed.

End resample_more.

(** Resampling on a grid whose ends are multiples of the step loses no
    volume. *)
Lemma resample_volume (freq start_time end_time : Z) (df : list Query.trade) :
  (0 < freq)%Z →
  (start_time mod freq = 0)%Z → (end_time mod freq = 0)%Z →
  (∀ o, o ∈ df → (start_time ≤ Query.time_m o ≤ end_time)%Z) →
  foldr Z.add 0%Z ((λ r, default 0%Z (Resample.size r))
                     <$> Resample.resample_day freq start_time end_time df)
  = foldr Z.add 0%Z (Query.size <$> df).
Proof.
  intros Hf Hs He Hdf.
  rewrite (list_fmap_compose Resample.size (default 0%Z)), size_resample_day.
  rewrite <- list_fmap_compose.
  assert (∀ t, t ∈ Resample.date_range start_time end_time freq → (t mod freq = 0)%Z)
    as Hgrid.
  { intros t [Hb Hm]%elem_of_date_range; [|done].
    rewrite <- (Z.sub_add start_time t), Z.add_mod, Hm, Hs by lia. done. }
  rewrite <- (total_partition Query.size (λ o, Resample.bin_label freq (Query.time_m o))
                (Resample.date_range start_time end_time freq) df).
  - apply (f_equal (foldr Z.add 0%Z)). apply list_fmap_ext. intros _ t Ht%list_elem_of_lookup_2.
    simpl. rewrite size_joined by auto. unfold Resample.volume_sum.
    by rewrite filter_in_bin by auto.
  - by apply NoDup_date_range.
  - intros o Ho. apply (label_on_aligned_grid freq start_time end_time o end_time);
      [done..| |by apply Hdf].
    apply elem_of_date_range; [done|]. specialize (Hdf o Ho). split; [lia|].
    rewrite Zminus_mod, He, Hs. done.
Qed.

(** X8.  When the start and the end time are whole multiples of the step
    since midnight and the rows of the day are between them, resampling
    loses no volume: the sizes of the resampled rows of the day (a missing
    size counting for nothing) add up to the sizes of the rows of the
    day. *)
Theorem X8_volume_conserved (freq start_time end_time : Z) (df : list Query.trade) :
  (0 < freq)%Z →
  (start_time mod freq = 0)%Z → (end_time mod freq = 0)%Z →
  (∀ o, o ∈ df → (start_time ≤ Query.time_m o ≤ end_time)%Z) →
  foldr Z.add 0%Z ((λ r, default 0%Z (Resample.size r))
                     <$> Resample.resample_day freq start_time end_time df)
  = foldr Z.add 0%Z (Query.size <$> df).
Proof. apply resample_volume. Qed.

(** X8 on three trades of a morning resampled at two seconds between
    09:30:00 and 09:30:10. *)
Lemma X8_volume_conserved_witness :
  let df := [Sample.trade_0930_02; Sample.trade_0930_04; Sample.trade_0930_08] in
  Resample.size <$> Resample.resample_day (2 * Resample.second)
                      (34200 * Resample.second) (34210 * Resample.second) df
  = [None; Some 100; Some 40; Some 0; Some 30; None]%Z
  ∧ foldr Z.add 0%Z ((λ r, default 0%Z (Resample.size r))
                       <$> Resample.resample_day (2 * Resample.second)
                             (34200 * Resample.second) (34210 * Resample.second) df)
    = foldr Z.add 0%Z (Query.size <$> df).
Proof.
  intros df. split; [by vm_compute|].
  apply (X8_volume_conserved (2 * Resample.second) (34200 * Resample.second)
           (34210 * Resample.second) df); [done..|].
  intros o Ho. repeat (apply elem_of_cons in Ho as [->|Ho]; [by vm_compute|]).
  by apply elem_of_nil in Ho.
Defined.

Section prices_more.
Import Np Resample.

Lemma of_Z_sub a b : (of_Z a - of_Z b)%Qc = of_Z (a - b).
Proof.
  apply Qc_is_canon. unfold of_Z, Qcminus, Qcplus, Qcopp. simpl.
  rewrite !Qred_correct. unfold Z.sub. rewrite inject_Z_plus, inject_Z_opp. reflexivity.
Qed.

Lemma of_Z_pos z : (0 < z)%Z → (0 < of_Z z)%Qc.
Proof.
  intros H. unfold Qclt, of_Z. simpl. rewrite !Qred_correct.
  change (inject_Z 0 < inject_Z z)%Q. by rewrite <- Zlt_Qlt.
Qed.

(** A value on the segment between two points is between their values. *)
Lemma linear_bounds (lo hi f0 f1 : Qc) (x0 x x1 : Z) :
  (x0 < x < x1)%Z → (lo ≤ f0 ≤ hi)%Qc → (lo ≤ f1 ≤ hi)%Qc →
  (lo ≤ (f1 - f0) / (of_Z x1 - of_Z x0) * (of_Z x - of_Z x0) + f0 ≤ hi)%Qc.
Proof.
  intros Hx [Hl0 Hh0] [Hl1 Hh1]. rewrite !of_Z_sub.
  set (d := of_Z (x1 - x0)). set (e := of_Z (x - x0)).
  assert (0 < d)%Qc as Hd by (apply of_Z_pos; lia).
  assert (0 < e)%Qc as He by (apply of_Z_pos; lia).
  assert (0 < d - e)%Qc as Hde.
  { unfold d, e. rewrite of_Z_sub. apply of_Z_pos. lia. }
  assert (d ≠ 0%Qc) as Hd0 by (intros E; rewrite E in Hd; by apply (Qclt_not_le _ _ Hd)).
  assert (((f1 - f0) / d * e + f0) * d = f1 * e + f0 * (d - e))%Qc as Hval
    by (field; done).
  split.
  - apply (Qcmult_lt_0_le_reg_r _ _ d Hd). rewrite Hval.
    replace (lo * d)%Qc with (lo * e + lo * (d - e))%Qc by ring.
    apply Qcplus_le_compat; apply Qcmult_le_compat_r; try done; by apply Qclt_le_weak.
  - apply (Qcmult_lt_0_le_reg_r _ _ d Hd). rewrite Hval.
    replace (hi * d)%Qc with (hi * e + hi * (d - e))%Qc by ring.
    apply Qcplus_le_compat; apply Qcmult_le_compat_r; try done; by apply Qclt_le_weak.
Qed.

Lemma interp_bounds (lo hi : Qc) (x : Z) (points : list (Z * Qc)) :
  points ≠ [] → (∀ p, p ∈ points → (lo ≤ p.2 ≤ hi)%Qc) →
  (lo ≤ interp x points ≤ hi)%Qc.
Proof.
  induction points as [|[x0 f0] rest IH]; intros Hne Hin; [done|].
  assert (lo ≤ f0 ≤ hi)%Qc as H0 by (apply (Hin (x0, f0)); by left).
  destruct rest as [|[x1 f1] rest]; [done|]. cbn [interp].
  case_bool_decide; [done|]. case_bool_decide.
  - apply linear_bounds; [lia|done|]. apply (Hin (x1, f1)). right. by left.
  - apply IH; [done|]. intros p Hp. apply Hin. by right.
Qed.

Lemma elem_of_valid (y : list float) (j : Z) (v : Qc) :
  (j, v) ∈ valid y ↔ ∃ i, j = Z.of_nat i ∧ y !! i = Some (Some v).
Proof.
  unfold valid. rewrite list_elem_of_omap. split.
  - intros ([i w] & Hin & Hw). apply elem_of_lookup_imap in Hin as (i' & w' & Heq & Hi).
    simplify_eq/=. destruct w' as [w|]; simplify_eq/=. by exists i'.
  - intros (i & -> & Hi). exists (i, Some v). split; [|done].
    apply elem_of_lookup_imap. by exists i, (Some v).
Qed.

(** Interpolation and back-fill keep the values that are there, and what
    they put in a gap is between values that are there. *)
Lemma interpolate_valid (y : list float) i v :
  y !! i = Some (Some v) → interpolate y !! i = Some (Some v).
Proof.
  intros Hi. unfold interpolate. destruct (valid y) as [|[x0 f0] rest]; [done|].
  by rewrite list_lookup_imap, Hi.
Qed.

Lemma gap_fill_valid (y : list float) i v :
  y !! i = Some (Some v) → gap_fill y !! i = Some (Some v).
Proof. intros Hi. by apply bfill_valid, interpolate_valid. Qed.

Lemma interpolate_bounds (lo hi : Qc) (y : list float) i p :
  (∀ j v, y !! j = Some (Some v) → (lo ≤ v ≤ hi)%Qc) →
  interpolate y !! i = Some (Some p) → (lo ≤ p ≤ hi)%Qc.
Proof.
  intros Hy. unfold interpolate.
  destruct (valid y) as [|[x0 f0] rest] eqn:E; [by apply Hy|].
  rewrite list_lookup_imap.
  destruct (y !! i) as [[v|]|] eqn:Hi; cbn [fmap option_fmap option_map]; try done.
  - intros [= <-]. by eapply Hy.
  - case_bool_decide; [done|]. intros [= <-].
    apply (interp_bounds lo hi (Z.of_nat i) ((x0, f0) :: rest)); [done|].
    intros [j v] Hp. rewrite <- E in Hp.
    apply elem_of_valid in Hp as (j' & _ & Hj). by eapply Hy.
Qed.

Lemma bfill_values (y : list float) :
  ∀ i p, bfill y !! i = Some (Some p) → ∃ j, y !! j = Some (Some p).
Proof.
  induction y as [|w y IH]; intros i p Hi; [done|]. cbn [bfill] in Hi.
  assert (∀ q, head (bfill y) = Some (Some q) → ∃ j, y !! j = Some (Some q)) as Hhead.
  { intros q Hq. rewrite head_lookup in Hq. by apply IH in Hq. }
  destruct i as [|i].
  - destruct w as [v|]; simpl in Hi.
    + exists 0. by simplify_eq.
    + destruct (head (bfill y)) as [[q|]|] eqn:Hq; simplify_eq/=.
      destruct (Hhead p eq_refl) as [j Hj]. by exists (S j).
  - assert (bfill y !! i = Some (Some p)) as Hi' by (by destruct w).
    apply IH in Hi' as [j Hj]. by exists (S j).
Qed.

Lemma gap_fill_bounds (lo hi : Qc) (y : list float) i p :
  (∀ j v, y !! j = Some (Some v) → (lo ≤ v ≤ hi)%Qc) →
  gap_fill y !! i = Some (Some p) → (lo ≤ p ≤ hi)%Qc.
Proof.
  intros Hy [j Hj]%bfill_values. by eapply interpolate_bounds.
Qed.

(** A column without a value is left as it is. *)
Lemma gap_fill_nan (y : list float) : Forall (λ v, v = nan) y → gap_fill y = y.
Proof.
  intros Hy. unfold gap_fill, interpolate.
  rewrite valid_valid_from, valid_from_nan by done.
  induction Hy as [|v y -> Hy IH]; [done|]. simpl. rewrite IH.
  by destruct Hy as [|? ? ->].
Qed.

(** The price that the join puts at a grid timestamp is the price of a row
    of its bin, or NaN. *)
Lemma price_joined (freq : Z) (df : list Query.trade) (t : Z) (p : Qc) :
  price (joined freq df t) = Some p →
  ∃ o, o ∈ df ∧ in_bin freq t o ∧ Query.price o = p.
Proof.
  unfold joined. case_bool_decide; [|done]. simpl. unfold price_last.
  rewrite last_lookup, list_lookup_fmap.
  destruct (filter (in_bin freq t) df !! _) as [o|] eqn:E; [|done].
  intros [= <-]. apply list_elem_of_lookup_2, list_elem_of_filter in E as [? ?].
  by exists o.
Qed.

End prices_more.

(** X9.  A resampled row whose timestamp is a whole multiple of the step
    since midnight and whose interval holds rows of the day carries the
    price of the last of them, untouched by the gap filling, and the sum of
    their sizes. *)
Theorem X9_row_of_occupied_bin (freq start_time end_time : Z) (df : list Query.trade)
    (r : Resample.row) (front : list Query.trade) (o : Query.trade) :
  (0 < freq)%Z →
  (Resample.index r mod freq = 0)%Z →
  r ∈ Resample.resample_day freq start_time end_time df →
  filter (Resample.in_bin freq (Resample.index r)) df = front ++ [o] →
  Resample.price r = Some (Query.price o)
  ∧ Resample.size r = Some (foldr Z.add 0%Z (Query.size <$> front ++ [o])).
Proof.
  intros Hf Hmod [i Hi]%list_elem_of_lookup Hbin.
  apply lookup_resample_day in Hi as (t & p & Ht & Hp & ->).
  cbn [Resample.index Resample.price Resample.size] in *.
  assert (o ∈ filter (Resample.in_bin freq t) df) as [Hin Ho]%list_elem_of_filter
    by (rewrite Hbin, elem_of_app; right; by left).
  assert (t ∈ Resample.labels freq df) as Hlabel.
  { rewrite (in_bin_unique freq t o Hf Hmod Hin). by apply label_in_labels. }
  assert (Resample.joined freq df t
          = {| Resample.index := t; Resample.price := Some (Query.price o);
               Resample.size := Some (foldr Z.add 0%Z (Query.size <$> front ++ [o])) |})
    as Hjoined.
  { unfold Resample.joined, Resample.price_last, Resample.volume_sum.
    rewrite bool_decide_true by done.
    assert (@filter _ _ _ (Resample.in_bin freq t) (Resample.in_bin_dec freq t) df
            = front ++ [o]) as -> by exact Hbin.
    f_equal. rewrite fmap_app. cbn [fmap list_fmap]. by rewrite last_snoc. }
  rewrite Hjoined. simpl. split; [|done].
  assert (Resample.gap_fill
            (Resample.price
               <$> (Resample.joined freq df
                      <$> Resample.date_range start_time end_time freq)) !! i
          = Some (Some (Query.price o))) as Hfilled.
  { apply gap_fill_valid. rewrite !list_lookup_fmap, Ht.
    cbn [fmap option_fmap option_map]. by rewrite Hjoined. }
  by simplify_eq.
Qed.

(** X9 on three trades: the row of 09:30:04 has the price and the size of
    the trade of 09:30:04. *)
Lemma X9_row_of_occupied_bin_witness :
  let rows := Resample.resample_day (2 * Resample.second) (34200 * Resample.second)
                (34210 * Resample.second)
                [Sample.trade_0930_02; Sample.trade_0930_04; Sample.trade_0930_08] in
  (λ r, (Resample.price r, Resample.size r)) <$> rows !! 2
  = Some (Some (Query.price Sample.trade_0930_04),
          Some (foldr Z.add 0%Z (Query.size <$> [] ++ [Sample.trade_0930_04]))).
Proof.
  intros rows. destruct (rows !! 2) as [r|] eqn:E; [|by vm_compute in E].
  assert (Resample.index r = 34204 * Resample.second)%Z as Hindex.
  { apply (f_equal (fmap Resample.index)) in E. vm_compute in E. vm_compute.
    congruence. }
  destruct (X9_row_of_occupied_bin (2 * Resample.second) (34200 * Resample.second)
              (34210 * Resample.second)
              [Sample.trade_0930_02; Sample.trade_0930_04; Sample.trade_0930_08]
              r [] Sample.trade_0930_04) as [Hp Hs].
  - reflexivity.
  - rewrite Hindex. reflexivity.
  - by eapply list_elem_of_lookup_2.
  - rewrite Hindex. by vm_compute.
  - simpl. by rewrite Hp, Hs.
Defined.

(** X10.  The gap filling stays within the prices of the day: when the
    prices of the rows of the day are between two bounds, so is every price
    of the resampled day. *)
Theorem X10_prices_within_range (freq start_time end_time : Z) (df : list Query.trade)
    (lo hi : Qc) :
  (∀ o, o ∈ df → (lo ≤ Query.price o ≤ hi)%Qc) →
  Forall (λ r, ∀ p, Resample.price r = Some p → (lo ≤ p ≤ hi)%Qc)
    (Resample.resample_day freq start_time end_time df).
Proof.
  intros Hdf. apply Forall_forall. intros r [i Hi]%list_elem_of_lookup p Hp.
  apply lookup_resample_day in Hi as (t & q & Ht & Hq & ->). simpl in Hp. subst q.
  apply (gap_fill_bounds lo hi _ _ _) in Hq; [done|].
  intros j v Hj. rewrite !list_lookup_fmap in Hj.
  destruct (Resample.date_range start_time end_time freq !! j) as [t'|]; [|done].
  simpl in Hj. injection Hj as Hj.
  apply price_joined in Hj as (o & Ho & _ & <-). by apply Hdf.
Qed.

(** X10 on three trades between 188.00 and 188.20; the price put at
    09:30:06, where there is no trade, is 188.15. *)
Lemma X10_prices_within_range_witness :
  let rows := Resample.resample_day (2 * Resample.second) (34200 * Resample.second)
                (34210 * Resample.second)
                [Sample.trade_0930_02; Sample.trade_0930_04; Sample.trade_0930_08] in
  (λ r, this <$> Resample.price r) <$> rows
  = Some <$> [188 # 1; 188 # 1; 1881 # 10; 3763 # 20; 941 # 5; 941 # 5]
  ∧ Forall (λ r, ∀ p, Resample.price r = Some p
                      → (Sample.cents 18800 ≤ p ≤ Sample.cents 18820)%Qc) rows.
Proof.
  intros rows. split; [by vm_compute|].
  apply (X10_prices_within_range (2 * Resample.second) (34200 * Resample.second)
           (34210 * Resample.second)
           [Sample.trade_0930_02; Sample.trade_0930_04; Sample.trade_0930_08]).
  intros o Ho. repeat (apply elem_of_cons in Ho as [->|Ho]; [by vm_compute|]).
  by apply elem_of_nil in Ho.
Defined.

(** X11.  The price column of a resampled day is filled entirely or not at
    all: every row has a price when the bin of some row of the day is
    labelled by a grid timestamp, and every price is missing otherwise. *)
Theorem X11_prices_all_or_none (freq start_time end_time : Z) (df : list Query.trade) :
  (0 < freq)%Z →
  let on_grid o := Resample.bin_label freq (Query.time_m o)
                   ∈ Resample.date_range start_time end_time freq in
  let rows := Resample.resample_day freq start_time end_time df in
  (Exists on_grid df ∧ Forall (λ r, ∃ p, Resample.price r = Some p) rows)
  ∨ (Forall (λ o, ¬ on_grid o) df ∧ Forall (λ r, Resample.price r = None) rows).
Proof.
  intros Hf on_grid rows. subst rows.
  destruct (decide (Exists on_grid df)) as [Hex|Hnone]; [left|right].
  - split; [done|]. apply Exists_exists in Hex as (o & Ho & Hgrid).
    apply list_elem_of_lookup in Hgrid as [j Hj].
    destruct (price_joined_label freq df o Hf Ho) as [v Hv].
    apply Forall_forall. intros r [i Hi]%list_elem_of_lookup.
    pose proof (lookup_lt_Some _ _ _ Hi) as Hlen. rewrite length_resample_day in Hlen.
    apply lookup_resample_day in Hi as (t & q & Ht & Hq & ->). simpl.
    destruct (gap_fill_full
                (Resample.price
                   <$> (Resample.joined freq df
                          <$> Resample.date_range start_time end_time freq)) j v)
      with (i := i) as [p Hp].
    + by rewrite !list_lookup_fmap, Hj; simpl; rewrite Hv.
    + by rewrite !length_fmap.
    + exists p. by simplify_eq.
  - apply not_Exists_Forall in Hnone; [|apply _]. split; [done|].
    assert (Forall (λ v, v = None)
              (Resample.price
                 <$> (Resample.joined freq df
                        <$> Resample.date_range start_time end_time freq))) as Hnan.
    { apply Forall_fmap, Forall_fmap, Forall_forall. intros t Ht. simpl.
      unfold Resample.joined. case_bool_decide as Hl; [|done]. simpl.
      unfold Resample.price_last. rewrite filter_none; [done|].
      intros o Ho Hbin.
      apply elem_of_labels in Hl as (_ & Hmod & _); [|done].
      apply (proj1 (Forall_forall _ _) Hnone o Ho). unfold on_grid.
      by rewrite <- (in_bin_unique freq t o Hf Hmod Hbin). }
    apply Forall_forall. intros r [i Hi]%list_elem_of_lookup.
    apply lookup_resample_day in Hi as (t & q & Ht & Hq & ->). simpl.
    rewrite (gap_fill_nan _ Hnan) in Hq.
    by apply (proj1 (Forall_lookup _ _) Hnan i q).
Qed.

(** X11 on a request that starts at 09:30:01: the bins of the trade are
    labelled at even seconds, the grid is at odd seconds, and no row has a
    price. *)
Lemma X11_prices_all_or_none_witness :
  let df := [Sample.trade_0930_02] in
  let freq := (2 * Resample.second)%Z in
  let start_time := (34201 * Resample.second)%Z in
  let end_time := (34205 * Resample.second)%Z in
  Resample.price <$> Resample.resample_day freq start_time end_time df
  = [None; None; None]
  ∧ let on_grid o := Resample.bin_label freq (Query.time_m o)
                     ∈ Resample.date_range start_time end_time freq in
    let rows := Resample.resample_day freq start_time end_time df in
    (Exists on_grid df ∧ Forall (λ r, ∃ p, Resample.price r = Some p) rows)
    ∨ (Forall (λ o, ¬ on_grid o) df ∧ Forall (λ r, Resample.price r = None) rows).
Proof.
  intros df freq start_time end_time. split; [by vm_compute|].
  apply (X11_prices_all_or_none freq start_time end_time df). reflexivity.
Defined.

(** ** The aggregation of simultaneous trades *)

Section aggregate_facts.
Import Np Aggregate.

Lemma str_lt_trans a b c : str_lt a b = true → str_lt b c = true → str_lt a c = true.
Proof.
  unfold str_lt, String.ltb.
  destruct (String.compare a b) eqn:E1; try done.
  destruct (String.compare b c) eqn:E2; try done. intros _ _.
  apply String_as_OT.cmp_lt in E1, E2.
  pose proof (String_as_OT.lt_trans _ _ _ E1 E2) as H.
  apply String_as_OT.cmp_lt in H. unfold String_as_OT.cmp in H. by rewrite H.
Qed.

Lemma str_lt_irrefl a : str_lt a a = false.
Proof.
  unfold str_lt, String.ltb.
  pose proof (proj2 (String_as_OT.cmp_eq a a) eq_refl) as H.
  unfold String_as_OT.cmp in H. by rewrite H.
Qed.

Lemma str_lt_total a b : str_lt a b = true ∨ a = b ∨ str_lt b a = true.
Proof.
  destruct (str_lt a b) eqn:E; [by left|]. right.
  destruct (decide (a = b)) as [|Hne]; [by left|]. right.
  by apply (str_trichotomy a b).
Qed.

Lemma key_lt_irrefl a : ¬ key_lt a a.
Proof.
  unfold key_lt. rewrite !str_lt_irrefl. intros [?|[_ [?|[_ ?]]]]; try done. lia.
Qed.

Lemma key_lt_trans a b c : key_lt a b → key_lt b c → key_lt a c.
Proof.
  destruct a as [[s1 d1] t1], b as [[s2 d2] t2], c as [[s3 d3] t3].
  unfold key_lt. simpl.
  intros [H1|[-> [H1|[-> H1]]]] [H2|[-> [H2|[-> H2]]]].
  - left. by eapply str_lt_trans.
  - by left.
  - by left.
  - by left.
  - right. split; [done|]. left. by eapply str_lt_trans.
  - right. split; [done|]. by left.
  - by left.
  - right. split; [done|]. by left.
  - right. split; [done|]. right. split; [done|]. lia.
Qed.

Lemma key_lt_total a b : key_lt a b ∨ a = b ∨ key_lt b a.
Proof.
  destruct a as [[s1 d1] t1], b as [[s2 d2] t2]. unfold key_lt. simpl.
  destruct (str_lt_total s1 s2) as [?|[->|?]];
    [by left; left| |by right; right; left].
  destruct (str_lt_total d1 d2) as [?|[->|?]].
  - left. right. split; [done|]. by left.
  - destruct (Z.lt_trichotomy t1 t2) as [?|[->|?]].
    + left. right. split; [done|]. right. done.
    + right. by left.
    + right. right. right. split; [done|]. right. done.
  - right. right. right. split; [done|]. by left.
Qed.

#[local] Instance key_le_trans : Transitive key_le.
Proof.
  intros a b c [H1| ->] [H2| ->]; unfold key_le; eauto using key_lt_trans.
Qed.

#[local] Instance key_le_total : Total key_le.
Proof.
  intros a b. unfold key_le. destruct (key_lt_total a b) as [?|[?|?]]; auto.
Qed.

Lemma sorted_strict (l : list (string * string * Z)) :
  StronglySorted key_le l → NoDup l → StronglySorted key_lt l.
Proof.
  induction 1 as [|k l Hs IH Hall]; intros Hnd; [constructor|].
  apply NoDup_cons in Hnd as [Hnot Hnd]. constructor; [by apply IH|].
  apply Forall_forall. intros k' Hk'.
  destruct (proj1 (Forall_forall _ _) Hall k' Hk') as [?| ->]; done.
Qed.

Lemma strongly_sorted_filter {A} (R : relation A) (P : A → Prop)
    `{∀ x, Decision (P x)} (l : list A) :
  StronglySorted R l → StronglySorted R (filter P l).
Proof.
  induction 1 as [|x l Hs IH Hall]; [constructor|].
  rewrite filter_cons. destruct (decide (P x)); [|done].
  constructor; [done|]. apply Forall_forall. intros y [_ Hy]%list_elem_of_filter.
  by apply (proj1 (Forall_forall _ _) Hall).
Qed.

(** The keys: those of the rows, each once, in strictly increasing order. *)
Lemma elem_of_keys (out : list trade) k :
  k ∈ keys out ↔ ∃ r, r ∈ out ∧ group_key r = k.
Proof.
  unfold keys. rewrite merge_sort_Permutation, elem_of_remove_dups, list_elem_of_fmap.
  split; [intros (r & -> & Hr)|intros (r & Hr & <-)]; by exists r.
Qed.

Lemma NoDup_keys (out : list trade) : NoDup (keys out).
Proof. unfold keys. rewrite merge_sort_Permutation. apply NoDup_remove_dups. Qed.

Lemma keys_sorted (out : list trade) : StronglySorted key_lt (keys out).
Proof.
  apply sorted_strict; [|apply NoDup_keys].
  apply StronglySorted_merge_sort; apply _.
Qed.

(** The median of values that are there is one of them or the mean of two
    of them. *)
Lemma half_bounds (lo hi x y : Qc) :
  (lo ≤ x ≤ hi)%Qc → (lo ≤ y ≤ hi)%Qc → (lo ≤ (x + y) / of_Z 2 ≤ hi)%Qc.
Proof.
  intros [Hlx Hxh] [Hly Hyh].
  assert (0 < of_Z 2)%Qc as H2 by by apply of_Z_pos.
  assert (of_Z 2 ≠ 0%Qc) as H20 by (intros E; rewrite E in H2; by apply (Qclt_not_le _ _ H2)).
  assert ((x + y) / of_Z 2 * of_Z 2 = x + y)%Qc as Hval by (field; done).
  assert (∀ z : Qc, z * of_Z 2 = z + z)%Qc as Hdouble.
  { intros z. change (of_Z 2) with (1 + 1)%Qc. ring. }
  split; apply (Qcmult_lt_0_le_reg_r _ _ (of_Z 2) H2); rewrite Hval, Hdouble;
    by apply Qcplus_le_compat.
Qed.

Lemma median_bounds (lo hi : Qc) (a : list Qc) (p : Qc) :
  (∀ x, x ∈ a → (lo ≤ x ≤ hi)%Qc) → median a = Some p → (lo ≤ p ≤ hi)%Qc.
Proof.
  intros Ha. unfold median.
  assert (∀ i x, sort a !! i = Some x → (lo ≤ x ≤ hi)%Qc) as Hs.
  { intros i x Hx. apply Ha. rewrite <- (sort_permutation a).
    by eapply list_elem_of_lookup_2. }
  cbv zeta. case_bool_decide; [done|]. destruct (Nat.odd _); [by apply Hs|].
  destruct (sort a !! (length (sort a) / 2 - 1)) as [x|] eqn:Ex; [|by simpl].
  destruct (sort a !! (length (sort a) / 2)) as [y|] eqn:Ey; [|by simpl].
  simpl. intros [= <-]. apply half_bounds; by eapply Hs.
Qed.

Lemma median_is_Some (a : list Qc) : a ≠ [] → ∃ p, median a = Some p.
Proof.
  intros Hne. unfold median.
  assert (0 < length (sort a)) as Hlen.
  { rewrite length_sort. destruct a; [done|simpl; lia]. }
  cbv zeta. rewrite bool_decide_false by lia.
  pose proof (Nat.Div0.div_lt_upper_bound (length (sort a)) 2 (length (sort a))) as Hhalf.
  destruct (Nat.odd _).
  - apply lookup_lt_is_Some_2. apply Hhalf. lia.
  - destruct (lookup_lt_is_Some_2 (sort a) (length (sort a) / 2 - 1)) as [x ->]; [lia|].
    destruct (lookup_lt_is_Some_2 (sort a) (length (sort a) / 2)) as [y ->];
      [apply Hhalf; lia|].
    by eexists.
Qed.

Lemma group_nonempty (out : list trade) k : k ∈ keys out → group out k ≠ [].
Proof.
  intros (r & Hr & Hk)%elem_of_keys Hnil.
  assert (r ∈ group out k) as Hin by by apply list_elem_of_filter.
  rewrite Hnil in Hin. by apply elem_of_nil in Hin.
Qed.

(** A row per group: no key is dropped. *)
Lemma elem_of_output_aggregate (out : list trade) (r : trade) :
  r ∈ output_aggregate out
  ↔ group_key r ∈ keys out
    ∧ median (price <$> group out (group_key r)) = Some (price r)
    ∧ size r = foldr Z.add 0%Z (size <$> group out (group_key r)).
Proof.
  unfold output_aggregate. rewrite list_elem_of_omap. split.
  - intros ([[s d] t] & Hk & Hr).
    destruct (median _) as [p|] eqn:E; simplify_eq/=. done.
  - intros (Hk & Hm & Hs). exists (group_key r). split; [done|].
    rewrite Hm. simpl. rewrite <- Hs. by destruct r.
Qed.

Lemma keys_output_aggregate (out : list trade) :
  group_key <$> output_aggregate out = keys out.
Proof.
  unfold output_aggregate. rewrite list_fmap_omap.
  assert (∀ l : list (string * string * Z), (∀ k, k ∈ l → k ∈ keys out) →
            omap (λ k, group_key <$>
                       (price_median ← median (price <$> group out k);
                        Some {| date := k.1.2; time_m := k.2; sym_root := k.1.1;
                                size := foldr Z.add 0%Z (size <$> group out k);
                                price := price_median |})) l = l) as Hall.
  { induction l as [|k l IH]; intros Hl; [done|]. cbn [omap list_omap].
    destruct (median_is_Some (price <$> group out k)) as [p Hp].
    { intros Hnil%fmap_nil_inv. by apply (group_nonempty out k); [apply Hl; left|]. }
    rewrite Hp. simpl. rewrite IH by (intros; apply Hl; by right).
    by destruct k as [[s d] t]. }
  by apply Hall.
Qed.

(** The row of a key. *)
#[local] Abbreviation row_of out k :=
  {| date := k.1.2; time_m := k.2; sym_root := k.1.1;
     size := foldr Z.add 0%Z (size <$> group out k);
     price := default 0%Qc (median (price <$> group out k)) |}.

Lemma output_aggregate_rows (out : list trade) :
  output_aggregate out = (λ k, row_of out k) <$> keys out.
Proof.
  unfold output_aggregate.
  assert (∀ l : list (string * string * Z), (∀ k, k ∈ l → k ∈ keys out) →
            omap (λ k, price_median ← median (price <$> group out k);
                       Some {| date := k.1.2; time_m := k.2; sym_root := k.1.1;
                               size := foldr Z.add 0%Z (size <$> group out k);
                               price := price_median |}) l
            = (λ k, row_of out k) <$> l) as Hall.
  { induction l as [|k l IH]; intros Hl; [done|]. cbn [omap list_omap].
    destruct (median_is_Some (price <$> group out k)) as [p Hp].
    { intros Hnil%fmap_nil_inv. by apply (group_nonempty out k); [apply Hl; left|]. }
    rewrite fmap_cons, Hp. cbn [mbind option_bind default]. f_equal.
    apply IH. intros; apply Hl; by right. }
  by apply Hall.
Qed.

Lemma filter_fmap {A B} (f : A → B) (P : B → Prop) `{∀ x, Decision (P x)} (l : list A) :
  filter P (f <$> l) = f <$> filter (λ x, P (f x)) l.
Proof.
  induction l as [|x l IH]; [done|]. rewrite fmap_cons, !filter_cons.
  destruct (decide (P (f x))); by rewrite IH.
Qed.

(** The rows of a symbol and date are the rows of the keys of that symbol
    and date. *)
Lemma df_sym_day_rows (out : list trade) (symbol date_ : string) :
  df_sym_day (output_aggregate out) symbol date_
  = (λ k, row_of out k) <$> filter (λ k, k.1.1 = symbol ∧ k.1.2 = date_) (keys out).
Proof. unfold df_sym_day. by rewrite output_aggregate_rows, filter_fmap. Qed.

Lemma times_increasing (l : list (string * string * Z)) (symbol date_ : string) :
  StronglySorted key_lt l →
  (∀ k, k ∈ l → k.1.1 = symbol ∧ k.1.2 = date_) →
  StronglySorted Z.lt (snd <$> l).
Proof.
  induction 1 as [|k l Hs IH Hall]; intros Hin; [constructor|].
  rewrite fmap_cons. constructor; [apply IH; intros; apply Hin; by right|].
  apply Forall_fmap, Forall_forall. intros k' Hk'. simpl.
  destruct (Hin k) as [Hs1 Hd1]; [by left|].
  destruct (Hin k') as [Hs2 Hd2]; [by right|].
  pose proof (proj1 (Forall_forall _ _) Hall k' Hk') as Hlt.
  unfold key_lt in Hlt. rewrite Hs1, Hs2, Hd1, Hd2, !str_lt_irrefl in Hlt.
  by destruct Hlt as [?|[_ [?|[_ ?]]]].
Qed.

(** The sizes of the rows of a symbol and date add up to those of its
    trades. *)
Lemma aggregate_volume (out : list trade) (symbol date_ : string) :
  foldr Z.add 0%Z (size <$> df_sym_day (output_aggregate out) symbol date_)
  = foldr Z.add 0%Z (size <$> filter (λ r, sym_root r = symbol ∧ date r = date_) out).
Proof.
  rewrite df_sym_day_rows, <- list_fmap_compose.
  set (ts := filter (λ k : string * string * Z, k.1.1 = symbol ∧ k.1.2 = date_) (keys out)).
  set (l := filter (λ r, sym_root r = symbol ∧ date r = date_) out).
  rewrite <- (total_partition size group_key ts l).
  - apply (f_equal (foldr Z.add 0%Z)). apply list_fmap_ext.
    intros _ k [[Hs Hd] _]%list_elem_of_lookup_2%list_elem_of_filter. simpl.
    do 2 f_equal. unfold group, l. rewrite list_filter_filter.
    apply list_filter_iff. intros r. split; [|tauto].
    intros <-. done.
  - apply NoDup_filter, NoDup_keys.
  - intros r [Hr Hin]%list_elem_of_filter. apply list_elem_of_filter. split; [done|].
    apply elem_of_keys. by exists r.
Qed.

End aggregate_facts.

(** X12.  The aggregated frame has one row for each (symbol, date, time)
    of the filtered frame and no other, in strictly increasing order of
    symbol, then date, then time; so the rows of a symbol and date, which
    the resampler reads, are in strictly increasing order of time. *)
Theorem X12_aggregate_one_row_per_key (output_filtered : list Query.trade) :
  let aggregated := Aggregate.output_aggregate output_filtered in
  StronglySorted Aggregate.key_lt (Aggregate.group_key <$> aggregated)
  ∧ (∀ k, k ∈ Aggregate.group_key <$> aggregated
          ↔ k ∈ Aggregate.group_key <$> output_filtered)
  ∧ ∀ symbol date_,
      StronglySorted Z.lt
        (Query.time_m <$> Aggregate.df_sym_day aggregated symbol date_).
Proof.
  intros aggregated. unfold aggregated. rewrite keys_output_aggregate.
  split; [apply keys_sorted|]. split.
  - intros k. rewrite elem_of_keys, list_elem_of_fmap.
    split; [intros (r & Hr & <-)|intros (r & -> & Hr)]; by exists r.
  - intros symbol date_. rewrite df_sym_day_rows, <- list_fmap_compose.
    apply (times_increasing _ symbol date_).
    + apply strongly_sorted_filter, keys_sorted.
    + by intros k [? _]%list_elem_of_filter.
Qed.

(** The aggregation of five trades, three of them of AAPL at 09:30:02. *)
Example aggregate_simultaneous :
  (λ r, (Query.sym_root r, Query.time_m r, this (Query.price r), Query.size r))
    <$> Aggregate.output_aggregate Sample.simultaneous
  = [("AAPL", 34202 * Resample.second, 1881 # 10, 170);
     ("AAPL", 34208 * Resample.second, 941 # 5, 30);
     ("TSLA", 34204 * Resample.second, 278 # 1, 10)]%Z.
Proof. by vm_compute. Qed.

(** X13.  The price of an aggregated row lies between any two bounds of the
    prices of the trades of its group, and a trade that is alone in its
    group is carried over unchanged. *)
Theorem X13_aggregate_price (output_filtered : list Query.trade) (r : Query.trade)
    (lo hi : Qc) :
  r ∈ Aggregate.output_aggregate output_filtered →
  (∀ r0, r0 ∈ output_filtered → Aggregate.group_key r0 = Aggregate.group_key r →
         (lo ≤ Query.price r0 ≤ hi)%Qc) →
  (lo ≤ Query.price r ≤ hi)%Qc
  ∧ ∀ r0, Aggregate.group output_filtered (Aggregate.group_key r) = [r0] → r = r0.
Proof.
  intros (Hk & Hm & Hs)%elem_of_output_aggregate Hbounds. split.
  - apply (median_bounds lo hi _ _) in Hm; [done|].
    intros x (r0 & -> & [Hkey Hin]%list_elem_of_filter)%list_elem_of_fmap.
    by apply Hbounds.
  - intros r0 Hgroup. rewrite Hgroup in Hm, Hs.
    assert (r0 ∈ Aggregate.group output_filtered (Aggregate.group_key r))
      as [Hkey _]%list_elem_of_filter by (rewrite Hgroup; by left).
    assert (Aggregate.median [Query.price r0] = Some (Query.price r0)) as Hone
      by reflexivity.
    simpl in Hm, Hs. rewrite Hone in Hm. injection Hm as Hp.
    unfold Aggregate.group_key in Hkey. destruct r, r0. simpl in *.
    simplify_eq. f_equal. lia.
Qed.

(** X13 on the five trades: the trade of TSLA is alone in its group. *)
Lemma X13_aggregate_price_witness :
  let r := Sample.trade_at "20190328" "TSLA" (34204 * Resample.second)
             (Sample.cents 27800) 10 in
  r ∈ Aggregate.output_aggregate Sample.simultaneous
  ∧ (Sample.cents 27800 ≤ Query.price r ≤ Sample.cents 27800)%Qc
  ∧ ∀ r0, Aggregate.group Sample.simultaneous (Aggregate.group_key r) = [r0] → r = r0.
Proof.
  intros r.
  assert (r ∈ Aggregate.output_aggregate Sample.simultaneous) as Hin.
  { apply elem_of_output_aggregate. split; [|split; by vm_compute].
    apply elem_of_keys. exists r. split; [|done]. unfold Sample.simultaneous. by left. }
  split; [done|].
  apply (X13_aggregate_price Sample.simultaneous r); [done|].
  intros r0 Hr0 Hkey. unfold Sample.simultaneous in Hr0.
  repeat (apply elem_of_cons in Hr0 as [->|Hr0];
          [first [by vm_compute in Hkey|by vm_compute]|]).
  by apply elem_of_nil in Hr0.
Defined.

(** X14.  Aggregation loses no volume: the sizes of the aggregated rows
    add up to the sizes of the filtered trades, over the frame and for each
    symbol and date. *)
Theorem X14_aggregate_volume (output_filtered : list Query.trade) :
  let aggregated := Aggregate.output_aggregate output_filtered in
  foldr Z.add 0%Z (Query.size <$> aggregated)
  = foldr Z.add 0%Z (Query.size <$> output_filtered)
  ∧ ∀ symbol date_,
      foldr Z.add 0%Z (Query.size <$> Aggregate.df_sym_day aggregated symbol date_)
      = foldr Z.add 0%Z
          (Query.size <$> filter (λ r, Query.sym_root r = symbol ∧ Query.date r = date_)
                             output_filtered).
Proof.
  intros aggregated. split; [|apply aggregate_volume].
  unfold aggregated. rewrite output_aggregate_rows, <- list_fmap_compose.
  rewrite <- (total_partition Query.size Aggregate.group_key
                (Aggregate.keys output_filtered) output_filtered).
  - done.
  - apply NoDup_keys.
  - intros r Hr. apply elem_of_keys. by exists r.
Qed.

(** X15.  Aggregation and resampling in sequence: when the start and the
    end time are whole multiples of the step since midnight and the
    filtered trades of a symbol and date are between them, the sizes of the
    resampled rows of that symbol and date add up to the sizes of those
    trades. *)
Theorem X15_volume_end_to_end (freq start_time end_time : Z)
    (output_filtered : list Query.trade) (symbol date_ : string) :
  (0 < freq)%Z →
  (start_time mod freq = 0)%Z → (end_time mod freq = 0)%Z →
  (∀ r, r ∈ output_filtered → Query.sym_root r = symbol → Query.date r = date_ →
        (start_time ≤ Query.time_m r ≤ end_time)%Z) →
  foldr Z.add 0%Z
    ((λ r, default 0%Z (Resample.size r))
       <$> Resample.resample_day freq start_time end_time
             (Aggregate.df_sym_day (Aggregate.output_aggregate output_filtered)
                symbol date_))
  = foldr Z.add 0%Z
      (Query.size <$> filter (λ r, Query.sym_root r = symbol ∧ Query.date r = date_)
                         output_filtered).
Proof.
  intros Hf Hs He Hin. rewrite resample_volume; [apply aggregate_volume|done..|].
  intros r [[Hsym Hdate] (Hk & _)%elem_of_output_aggregate]%list_elem_of_filter.
  apply elem_of_keys in Hk as (r0 & Hr0 & Hkey).
  unfold Aggregate.group_key in Hkey. simplify_eq.
  replace (Query.time_m r) with (Query.time_m r0) by congruence.
  apply Hin; [done|congruence..].
Qed.

(** X15 on the five trades, for AAPL between 09:30:00 and 09:30:10. *)
Lemma X15_volume_end_to_end_witness :
  let rows := Resample.resample_day (2 * Resample.second) (34200 * Resample.second)
                (34210 * Resample.second)
                (Aggregate.df_sym_day (Aggregate.output_aggregate Sample.simultaneous)
                   "AAPL" "20190328") in
  Resample.size <$> rows = [None; Some 170; Some 0; Some 0; Some 30; None]%Z
  ∧ foldr Z.add 0%Z ((λ r, default 0%Z (Resample.size r)) <$> rows)
    = foldr Z.add 0%Z
        (Query.size <$> filter (λ r, Query.sym_root r = "AAPL"
                                     ∧ Query.date r = "20190328")
                           Sample.simultaneous).
Proof.
  intros rows. split; [by vm_compute|].
  apply (X15_volume_end_to_end (2 * Resample.second) (34200 * Resample.second)
           (34210 * Resample.second) Sample.simultaneous "AAPL" "20190328");
    [done..|].
  intros r Hr _ _. unfold Sample.simultaneous in Hr.
  repeat (apply elem_of_cons in Hr as [->|Hr]; [by vm_compute|]).
  by apply elem_of_nil in Hr.
Defined.

(** ** The requests that pass the checks *)

Section cli_more.
Import Cli.

Lemma str_cases a b :
  str_lt a b = true ∧ str_gt a b = false ∧ a ≠ b
  ∨ str_lt a b = false ∧ str_gt a b = false ∧ a = b
  ∨ str_lt a b = false ∧ str_gt a b = true ∧ a ≠ b.
Proof.
  destruct (str_lt a b) eqn:E.
  - left. split; [done|]. split; [by apply str_lt_gt|].
    intros ->. by rewrite str_lt_irrefl in E.
  - right. destruct (decide (a = b)) as [->|Hne].
    + left. split; [done|]. split; [|done]. unfold str_gt. apply str_lt_irrefl.
    + right. split; [done|]. split; [by apply str_trichotomy|done].
Qed.

(** The four tests of lines 131-149 and of lines 159-177. *)
Lemma tests_pass (lo hi a b : string) :
  (if str_gt a b then false
   else if str_lt a lo && str_lt b hi then false
   else if str_gt a lo && str_gt b hi then false
   else if str_lt a lo && str_gt b hi then false
   else true) = true
  ↔ str_gt a b = false
    ∧ (str_lt a lo = false ∧ str_gt b hi = false ∨ a = lo ∨ b = hi).
Proof.
  destruct (str_gt a b); [by split; [|intros [? _]]|].
  destruct (str_cases a lo) as [(-> & -> & ?)|[(-> & -> & ?)|(-> & -> & ?)]],
           (str_cases b hi) as [(-> & -> & ?)|[(-> & -> & ?)|(-> & -> & ?)]];
    simpl; split; try done; try tauto; intros [_ [[? ?]|[?|?]]]; done.
Qed.

End cli_more.

(** X16.  The requests that pass the checks.  The check on the dates passes
    exactly when the start date is not after the end date and the range is
    within [2003-09-10, 2020-03-31], or starts exactly on 2003-09-10, or
    ends exactly on 2020-03-31: a range that ends on the last day passes
    however early it starts, and a range that starts on the first day
    passes however late it ends.  The check on the times is the same with
    09:30:00 and 16:00:00. *)
Theorem X16_requests_accepted (a : Cli.args) :
  (Cli.check_dates a = Ok ()
   ↔ str_gt (Cli.start_date a) (Cli.end_date a) = false
     ∧ (str_lt (Cli.start_date a) Cli.min_start_date = false
        ∧ str_gt (Cli.end_date a) Cli.max_end_date = false
        ∨ Cli.start_date a = Cli.min_start_date
        ∨ Cli.end_date a = Cli.max_end_date))
  ∧ (Cli.check_times a = Ok ()
     ↔ str_gt (Cli.start_time a) (Cli.end_time a) = false
       ∧ (str_lt (Cli.start_time a) Cli.min_start_time = false
          ∧ str_gt (Cli.end_time a) Cli.max_end_time = false
          ∨ Cli.start_time a = Cli.min_start_time
          ∨ Cli.end_time a = Cli.max_end_time)).
Proof.
  split.
  - rewrite <- tests_pass. unfold Cli.check_dates.
    repeat (match goal with |- context [if ?b then _ else _] => destruct b end;
            try done).
  - rewrite <- tests_pass. unfold Cli.check_times.
    repeat (match goal with |- context [if ?b then _ else _] => destruct b end;
            try done).
Qed.

(** A request for the hours from 04:00:00 to 16:00:00 passes the check on
    the times, and so does one for the years from 1999 to 2020-03-31. *)
Example early_start_accepted :
  Cli.check_times (Sample.request "2019-03-28" "2019-03-29" "04:00:00" "16:00:00") = Ok ()
  ∧ Cli.check_dates (Sample.request "1999-01-01" "2020-03-31" "09:30:00" "16:00:00")
    = Ok ().
Proof. split; reflexivity. Qed.

(** ** The table of the number of observations *)

Section n_obs_facts.
Import NObs.

Lemma calls_snoc (observed : list (Z * string)) (c : Z * string) :
  calls (observed ++ [c]) = calls observed ≫= n_obs c.1 c.2.
Proof. unfold calls. by rewrite foldl_app. Qed.

(** X17.  The calls of [n_obs] for a symbol never compare with [None]; after
    at least one call the row of the symbol holds the least and the greatest
    number of rows among the frames seen, each with the day of the first
    frame that has that number, and [count_2] is the number of calls. *)
Theorem X17_n_obs_extremes (observed : list (Z * string)) :
  observed ≠ [] → ∃ st, calls observed = Some st ∧ extremes observed st.
Proof.
  induction observed as [|[obs date_] observed IH] using rev_ind; [done|]. intros _.
  rewrite calls_snoc. destruct observed as [|c observed].
  { eexists. split; [reflexivity|]. exists 0, 0, obs, obs, date_, date_. simpl.
    repeat split; try done; intros; destruct n; simplify_eq/=; lia. }
  destruct IH as (st & -> & i & j & lowest & highest & d_min & d_max
                  & Hcount & Hmin & Hmind & Hi & Hmax & Hmaxd & Hj & Hall); [done|].
  set (seen := c :: observed) in *.
  assert (0 < length seen) as Hlen by (unfold seen; simpl; lia).
  clearbody seen.
  pose proof (lookup_lt_Some _ _ _ Hi) as Hilt.
  pose proof (lookup_lt_Some _ _ _ Hj) as Hjlt.
  assert (∀ n o d, (seen ++ [(obs, date_)]) !! n = Some (o, d) →
            seen !! n = Some (o, d) ∨ n = length seen ∧ o = obs ∧ d = date_) as Hsnoc.
  { intros n o d Hn. apply lookup_app_Some in Hn as [?|[Hge Hn]]; [by left|]. right.
    destruct (n - length seen) as [|?] eqn:E; simplify_eq/=. split; [lia|done]. }
  cbn [mbind option_bind]. unfold n_obs. cbn [fst snd].
  rewrite bool_decide_false by lia. rewrite Hmin. cbn [mbind option_bind].
  case_bool_decide as Hlow.
  - eexists. split; [reflexivity|].
    exists (length seen), j, obs, highest, date_, d_max. simpl.
    rewrite length_app, Hcount. simpl.
    split; [lia|]. split; [done|]. split; [done|].
    split; [by rewrite lookup_app_r, Nat.sub_diag by lia|].
    split; [done|]. split; [done|]. split; [by rewrite lookup_app_l by lia|].
    intros n o d [Hn|(-> & -> & ->)]%Hsnoc.
    + destruct (Hall n o d Hn) as (? & ? & ?). split; [lia|]. split; [lia|done].
    + destruct (Hall i lowest d_min Hi) as (? & _ & _). split; [lia|]. split; lia.
  - rewrite Hmax. cbn [mbind option_bind]. case_bool_decide as Hhigh.
    + eexists. split; [reflexivity|].
      exists i, (length seen), lowest, obs, d_min, date_. simpl.
      rewrite length_app, Hcount. simpl.
      split; [lia|]. split; [done|]. split; [done|].
      split; [by rewrite lookup_app_l by lia|].
      split; [done|]. split; [done|].
      split; [by rewrite lookup_app_r, Nat.sub_diag by lia|].
      intros n o d [Hn|(-> & -> & ->)]%Hsnoc.
      * destruct (Hall n o d Hn) as (? & ? & ?). split; [lia|]. split; [done|lia].
      * split; [lia|]. split; lia.
    + eexists. split; [reflexivity|].
      exists i, j, lowest, highest, d_min, d_max. simpl.
      rewrite length_app, Hcount. simpl.
      split; [lia|]. split; [done|]. split; [done|].
      split; [by rewrite lookup_app_l by lia|].
      split; [done|]. split; [done|]. split; [by rewrite lookup_app_l by lia|].
      intros n o d [Hn|(-> & -> & ->)]%Hsnoc.
      * by apply (Hall n o d).
      * split; [lia|]. split; lia.
Qed.

End n_obs_facts.

(** X17 on four frames, of 5, 3, 3 and 7 rows, and on the sample
    connection for AAPL. *)
Lemma X17_n_obs_extremes_witness :
  NObs.calls [(5, "20190328"); (3, "20190329"); (3, "20190401"); (7, "20190402")]%Z
  = Some {| NObs.count_2 := 4;
            NObs.min_n_obs := Some 3%Z; NObs.min_n_obs_day := Some "2019-03-29";
            NObs.max_n_obs := Some 7%Z; NObs.max_n_obs_day := Some "2019-04-02" |}
  ∧ NObs.row Sample.db "09:30:00" "16:00:00" "TSLA" ["20190328"; "20190329"]
    = Some {| NObs.count_2 := 1;
              NObs.min_n_obs := Some 1%Z; NObs.min_n_obs_day := Some "2019-03-28";
              NObs.max_n_obs := Some 1%Z; NObs.max_n_obs_day := Some "2019-03-28" |}
  ∧ ∃ st,
      NObs.calls [(5, "20190328"); (3, "20190329"); (3, "20190401"); (7, "20190402")]%Z
      = Some st
      ∧ NObs.extremes
          [(5, "20190328"); (3, "20190329"); (3, "20190401"); (7, "20190402")]%Z st.
Proof.
  split; [reflexivity|]. split; [reflexivity|].
  apply (X17_n_obs_extremes
           [(5, "20190328"); (3, "20190329"); (3, "20190401"); (7, "20190402")]%Z).
  done.
Defined.

(** ** The queried frame and the series of the outlier filter *)

Section frame_facts.
Import Query.
Context (db : database) (start_time end_time : string).

(** The rows appended for a symbol and a date. *)
#[local] Abbreviation rows_of symbol date_ :=
  (if bool_decide (has_table db date_)
   then default [] (query_sql db start_time end_time date_ symbol).1.1 else []).

Lemma foldl_visit_output symbol dates :
  ∀ st, output (foldl (visit db start_time end_time symbol) st dates)
        = output st ++ (dates ≫= λ d, rows_of symbol d).
Proof.
  induction dates as [|d dates IH]; intros st; simpl; [by rewrite app_nil_r|].
  rewrite IH. destruct (visit_spec db start_time end_time symbol st d)
    as (_ & _ & _ & _ & -> & _).
  by rewrite <- app_assoc.
Qed.

Lemma filter_bind {A B} (P : B → Prop) `{∀ x, Decision (P x)} (f : A → list B)
    (l : list A) :
  filter P (l ≫= f) = l ≫= (λ x, filter P (f x)).
Proof.
  induction l as [|x l IH]; [done|]. by rewrite !bind_cons, filter_app, IH.
Qed.

Lemma bind_ext_in {A B} (f g : A → list B) (l : list A) :
  (∀ x, x ∈ l → f x = g x) → l ≫= f = l ≫= g.
Proof.
  induction l as [|x l IH]; intros Hfg; [done|].
  rewrite !bind_cons, Hfg, IH; [done| |by left]. intros; apply Hfg; by right.
Qed.

Lemma bind_nil_in {A B} (f : A → list B) (l : list A) :
  (∀ x, x ∈ l → f x = []) → l ≫= f = [].
Proof.
  induction l as [|x l IH]; intros Hf; [done|].
  rewrite bind_cons, Hf, IH; [done| |by left]. intros; apply Hf; by right.
Qed.

(** In a list without duplicates, a bind that is empty but at [k] is its
    value at [k]. *)
Lemma bind_only {A B} (f : A → list B) (l : list A) (k : A) :
  NoDup l → k ∈ l → (∀ x, x ∈ l → x ≠ k → f x = []) → l ≫= f = f k.
Proof.
  induction 1 as [|x l Hnot Hnd IH]; intros Hk Hf; [by apply elem_of_nil in Hk|].
  rewrite bind_cons. apply elem_of_cons in Hk as [<-|Hk].
  - rewrite bind_nil_in; [by rewrite app_nil_r|].
    intros x Hx. apply Hf; [by right|]. by intros ->.
  - rewrite Hf, IH; [done|done| |by left|by intros ->].
    intros; apply Hf; [by right|done].
Qed.

Lemma bind_filter_in {A B} (f : A → list B) (final l : list A) `{EqDecision A} :
  l ≫= (λ x, if bool_decide (x ∈ final) then f x else [])
  = filter (λ x, x ∈ final) l ≫= f.
Proof.
  induction l as [|x l IH]; [done|]. rewrite bind_cons, filter_cons, IH.
  case_bool_decide; [by rewrite decide_True, bind_cons by done|].
  by rewrite decide_False by done.
Qed.

Lemma filter_ext_in {A} (P Q : A → Prop) `{∀ x, Decision (P x)}
    `{∀ x, Decision (Q x)} (l : list A) :
  (∀ x, x ∈ l → P x ↔ Q x) → filter P l = filter Q l.
Proof.
  induction l as [|x l IH]; intros HPQ; [done|]. rewrite !filter_cons.
  rewrite IH by (intros; apply HPQ; by right).
  destruct (decide (P x)) as [HP|HP], (decide (Q x)) as [HQ|HQ]; try done.
  - destruct HQ. by apply (HPQ x); [left|].
  - destruct HP. by apply (HPQ x); [left|].
Qed.

Lemma filter_all {A} (P : A → Prop) `{∀ x, Decision (P x)} (l : list A) :
  (∀ x, x ∈ l → P x) → filter P l = l.
Proof.
  induction l as [|x l IH]; intros HP; [done|]. rewrite filter_cons.
  rewrite decide_True by (apply HP; by left). f_equal. apply IH.
  intros; apply HP; by right.
Qed.

Lemma sublist_filter_id {A} `{EqDecision A} (l1 l2 : list A) :
  l1 `sublist_of` l2 → NoDup l2 → filter (λ x, x ∈ l1) l2 = l1.
Proof.
  induction 1 as [|x l1 l2 Hsub IH|x l1 l2 Hsub IH]; intros Hnd; [done|..];
    apply NoDup_cons in Hnd as [Hnot Hnd]; rewrite filter_cons.
  - rewrite decide_True by by left. f_equal.
    transitivity (filter (λ y, y ∈ l1) l2); [|by apply IH].
    apply filter_ext_in. intros y Hy. split; [|by right].
    intros [->|?]%elem_of_cons; done.
  - rewrite decide_False; [by apply IH|].
    intros Hx. apply Hnot. by eapply elem_of_sublist.
Qed.

(** The rows that the query returns carry the date and the symbol asked
    for. *)
#[local] Abbreviation well_formed :=
  (∀ d s attempt rows r,
     raw_sql db d s start_time end_time attempt = Some rows → r ∈ rows →
     date r = d ∧ sym_root r = s).

Lemma rows_of_spec symbol date_ r :
  well_formed → r ∈ rows_of symbol date_ → date r = date_ ∧ sym_root r = symbol.
Proof.
  intros Hwf Hr. case_bool_decide; [|by apply elem_of_nil in Hr].
  destruct ((query_sql db start_time end_time date_ symbol).1.1) as [rows|] eqn:E;
    [|by apply elem_of_nil in Hr].
  destruct (query_sql_rows db start_time end_time date_ symbol rows E) as (a & _ & Hraw).
  by eapply Hwf.
Qed.

Lemma symbols_loop_sublist symbols :
  ∀ st dates, (symbols_loop db start_time end_time symbols st dates).2 `sublist_of` dates.
Proof.
  induction symbols as [|s symbols IH]; intros st dates; simpl; [done|].
  case_bool_decide; simpl; [apply sublist_filter|].
  etrans; [apply IH|apply sublist_filter].
Qed.

(** The rows of the dates that are left, symbol by symbol and date by
    date. *)
Lemma filter_dates_rows symbol (final dates : list string) :
  well_formed → final `sublist_of` dates → NoDup dates →
  filter (λ r, date r ∈ final) (dates ≫= λ d, rows_of symbol d)
  = final ≫= λ d, rows_of symbol d.
Proof.
  intros Hwf Hsub Hnd. rewrite filter_bind.
  transitivity (filter (λ x, x ∈ final) dates ≫= λ d, rows_of symbol d);
    [|by rewrite sublist_filter_id].
  rewrite <- bind_filter_in. apply bind_ext_in. intros d _.
  destruct (decide (d ∈ final)) as [Hd|Hd].
  - rewrite (bool_decide_true (d ∈ final)) by done.
    apply filter_all. intros r [-> _]%rows_of_spec; done.
  - rewrite (bool_decide_false (d ∈ final)) by done.
    apply filter_none. intros r [-> _]%rows_of_spec; done.
Qed.

Lemma symbols_loop_frame symbols :
  well_formed →
  ∀ st dates, NoDup dates →
    (symbols_loop db start_time end_time symbols st dates).1.1 = Ok () →
    let final := (symbols_loop db start_time end_time symbols st dates).2 in
    filter (λ r, date r ∈ final)
      (output (symbols_loop db start_time end_time symbols st dates).1.2)
    = filter (λ r, date r ∈ final) (output st)
      ++ (symbols ≫= λ s, final ≫= λ d, rows_of s d).
Proof.
  intros Hwf. induction symbols as [|s symbols IH]; intros st dates Hnd;
    cbn [symbols_loop fst snd].
  { intros _. by rewrite app_nil_r. }
  set (st1 := foldl (visit db start_time end_time s) st dates).
  set (dates1 := narrow dates (remove_dates st1)).
  case_bool_decide; [done|]. intros Hok.
  assert (NoDup dates1) as Hnd1 by by apply NoDup_filter.
  rewrite (IH st1 dates1 Hnd1 Hok).
  set (final := (symbols_loop db start_time end_time symbols st1 dates1).2).
  unfold st1 at 1. rewrite foldl_visit_output, filter_app, filter_dates_rows; [|done| |done].
  - by rewrite bind_cons, app_assoc.
  - etrans; [apply symbols_loop_sublist|apply sublist_filter].
Qed.

Lemma extract_frame symbols date_list frame final issued :
  well_formed → NoDup date_list →
  extract db start_time end_time symbols date_list = (Ok (frame, final), issued) →
  frame = (symbols ≫= λ s, final ≫= λ d, rows_of s d) ∧ NoDup final.
Proof.
  intros Hwf Hnd. unfold extract.
  pose proof (symbols_loop_frame symbols Hwf init date_list Hnd) as Hframe.
  pose proof (symbols_loop_sublist symbols init date_list) as Hsub.
  destruct (symbols_loop db start_time end_time symbols init date_list)
    as [[r st] final']. simpl in *.
  destruct r as [[]| |]; simpl; try done. intros [= <- <- <-].
  split; [|by eapply sublist_NoDup]. unfold keep_dates. by rewrite Hframe.
Qed.

(** The rows of a symbol and a date in the frame. *)
Lemma frame_symbol_day (symbols final : list string) symbol date_ :
  well_formed → NoDup symbols → NoDup final → symbol ∈ symbols → date_ ∈ final →
  filter (λ r, sym_root r = symbol ∧ date r = date_)
    (symbols ≫= λ s, final ≫= λ d, rows_of s d)
  = rows_of symbol date_.
Proof.
  intros Hwf Hns Hnf Hs Hd. rewrite filter_bind.
  rewrite (bind_only _ symbols symbol Hns Hs).
  - rewrite filter_bind. rewrite (bind_only _ final date_ Hnf Hd).
    + apply filter_all. intros r [-> ->]%rows_of_spec; done.
    + intros d _ Hne. apply filter_none. intros r [-> _]%rows_of_spec [_ ?]; done.
  - intros s _ Hne. rewrite filter_bind. apply bind_nil_in. intros d _.
    apply filter_none. intros r [_ ->]%rows_of_spec [? _]; done.
Qed.

End frame_facts.

(** ** The series of the filter and the rows of the frame *)

Section series_facts.
Import Np Outlier.
Context (sqrt : Qc → Qc).

Lemma fmap_bind {A B C} (f : B → C) (g : A → list B) (l : list A) :
  f <$> (l ≫= g) = l ≫= λ x, f <$> g x.
Proof.
  induction l as [|x l IH]; [done|]. by rewrite !bind_cons, fmap_app, IH.
Qed.

Lemma length_bind {A B} (g : A → list B) (l : list A) :
  length (l ≫= g) = sum_list ((λ x, length (g x)) <$> l).
Proof.
  induction l as [|x l IH]; [done|].
  rewrite bind_cons, length_app, IH. done.
Qed.

Lemma ky_array_cons : ∃ ky grid, ky_array = ky :: grid.
Proof. by eexists _, _; vm_compute. Qed.

(** Once the row is filled it stays filled. *)
Lemma grid_loop_filled days grid :
  ∀ count row r, row ≠ None → grid_loop sqrt days grid count row = Ok r → r ≠ None.
Proof.
  induction grid as [|[k y] grid IH]; intros count row r Hrow; cbn [grid_loop].
  { by intros [= <-]. }
  destruct (dates_loop sqrt k y days 0 []) as [[n m]| |];
    cbn [mbind result_bind Py.bind]; try done.
  apply IH. case_bool_decide; [done|]. destruct row; [|done]. by case_bool_decide.
Qed.

(** The search over a grid that is not empty fills the row, with a series
    of one value for each trade of the symbol. *)
Lemma search_series (grid : list (Qc * Qc)) (output : list trade)
    (date_list : list string) (symbol : string) row :
  grid ≠ [] →
  search sqrt grid output date_list symbol = Ok row →
  ∃ best, row = Some best
    ∧ length (not_outlier_sym_f best)
      = length (date_list ≫= λ d, price_sym_day output symbol d).
Proof.
  intros Hgrid Hsearch. unfold search in Hsearch.
  assert (row ≠ None) as Hrow.
  { destruct grid as [|[k y] grid]; [done|]. cbn [grid_loop] in Hsearch.
    destruct (dates_loop sqrt k y _ 0 []) as [[n m]| |];
      cbn [mbind result_bind Py.bind] in Hsearch; try done.
    by apply grid_loop_filled in Hsearch. }
  destruct row as [best|]; [|done]. exists best. split; [done|].
  rewrite length_bind.
  eapply (grid_loop_row sqrt _ grid
            (λ c, length (not_outlier_sym_f c)
                  = sum_list ((λ d, length (price_sym_day output symbol d))
                                <$> date_list))); [| |exact Hsearch]; [|done].
  intros k y n m _ (Hl & _)%dates_loop_series. simpl in *.
  by rewrite <- list_fmap_compose in Hl.
Qed.

Lemma symbols_loop_series (output : list trade) (date_list : list string) symbols :
  ∀ outlier_frame series outlier_frame' series',
    Outlier.symbols_loop sqrt output date_list symbols outlier_frame series
    = Ok (outlier_frame', series') →
    length series'
    = length series
      + length (symbols ≫= λ s, date_list ≫= λ d, price_sym_day output s d)
    ∧ length outlier_frame' = length outlier_frame + length symbols.
Proof.
  induction symbols as [|s symbols IH]; intros outlier_frame series outlier_frame' series';
    cbn [Outlier.symbols_loop].
  { intros [= <- <-]. cbn. lia. }
  destruct (search sqrt ky_array output date_list s) as [row| |] eqn:E;
    cbn [mbind result_bind Py.bind]; try done.
  apply search_series in E as (best & -> & Hbest).
  2:{ destruct ky_array_cons as (ky & grid & ->). done. }
  intros (Hs & Hf)%IH. rewrite !length_app in Hs, Hf.
  rewrite bind_cons, length_app, <- Hbest. split; [|simpl in *; lia].
  rewrite Hs. symmetry. apply Nat.add_assoc.
Qed.

End series_facts.

(** X18.  The series of the outlier filter lines up with the frame it
    masks.  When the rows that the query returns carry the date and the
    symbol asked for and no symbol and no date is given twice, the frame
    that the querying stage returns holds the rows symbol by symbol and,
    within a symbol, date by date, in the order in which the filter reads
    them; if the filter returns, its series has exactly one value for each
    row of the frame, and its table one row for each symbol. *)
Theorem X18_series_matches_frame (sqrt : Qc → Qc) (db : Query.database)
    (start_time end_time : string) (symbols date_list : list string)
    (frame : list Query.trade) (final : list string) (issued : list Query.db_call)
    (outlier_frame : list Outlier.choice) (series : list bool) :
  (∀ d s attempt rows r,
     Query.raw_sql db d s start_time end_time attempt = Some rows → r ∈ rows →
     Query.date r = d ∧ Query.sym_root r = s) →
  NoDup symbols → NoDup date_list →
  Query.extract db start_time end_time symbols date_list = (Ok (frame, final), issued) →
  Outlier.symbols_loop sqrt frame final symbols [] [] = Ok (outlier_frame, series) →
  (symbols ≫= λ s, final ≫= λ d, Outlier.price_sym_day frame s d)
  = Query.price <$> frame
  ∧ length series = length frame
  ∧ length outlier_frame = length symbols.
Proof.
  intros Hwf Hsym Hdates Hextract Hfilter.
  destruct (extract_frame db start_time end_time symbols date_list frame final issued
              Hwf Hdates Hextract) as [Hframe Hfinal].
  assert ((symbols ≫= λ s, final ≫= λ d, Outlier.price_sym_day frame s d)
          = Query.price <$> frame) as Hprices.
  { rewrite Hframe at 1. rewrite fmap_bind. apply bind_ext_in. intros s Hs.
    rewrite fmap_bind. apply bind_ext_in. intros d Hd.
    unfold Outlier.price_sym_day. f_equal. rewrite Hframe.
    by apply frame_symbol_day. }
  split; [done|].
  apply symbols_loop_series in Hfilter as [Hs Hf]. simpl in Hs, Hf.
  rewrite Hprices, length_fmap in Hs. done.
Qed.

(** X18 for two symbols and two dates on the connection on which every
    symbol has 52 trades on each date. *)
Lemma X18_series_matches_frame_witness :
  ∃ frame final issued outlier_frame series,
    Query.extract Sample.db_busy "09:30:00" "16:00:00" ["AAPL"; "TSLA"]
      ["20190328"; "20190329"] = (Ok (frame, final), issued)
    ∧ Outlier.symbols_loop Sample.sqrt frame final ["AAPL"; "TSLA"] [] []
      = Ok (outlier_frame, series)
    ∧ length frame = 208
    ∧ (["AAPL"; "TSLA"] ≫= λ s, final ≫= λ d, Outlier.price_sym_day frame s d)
      = Query.price <$> frame
    ∧ length series = length frame
    ∧ length outlier_frame = length ["AAPL"; "TSLA"].
Proof.
  eexists _, _, _, _, _.
  split; [vm_compute; reflexivity|]. split; [vm_compute; reflexivity|].
  split; [reflexivity|].
  eapply (X18_series_matches_frame Sample.sqrt Sample.db_busy "09:30:00" "16:00:00"
            ["AAPL"; "TSLA"] ["20190328"; "20190329"]).
  - intros d s attempt rows r [= <-] Hr. unfold Sample.busy_day in Hr.
    by apply list_elem_of_fmap in Hr as (t & -> & _).
  - apply (bool_decide_unpack _). by vm_compute.
  - apply (bool_decide_unpack _). by vm_compute.
  - vm_compute. reflexivity.
  - vm_compute. reflexivity.
Defined.

(** ** The shape of the filled gaps *)

Section gap_shape.
Import Np Resample.

#[local] Abbreviation valid_from n y :=
  (omap (λ iv : nat * float, (λ v, (Z.of_nat iv.1, v)) <$> iv.2)
     (imap (λ i, pair (n + i)) y)).

(** [np.interp] passes over the points before the position. *)
Lemma interp_skip (x : Z) (pre : list (Z * Qc)) (x0 : Z) (f0 : Qc)
    (rest : list (Z * Qc)) :
  (∀ p, p ∈ pre → (p.1 < x)%Z) → (x0 < x)%Z →
  interp x (pre ++ (x0, f0) :: rest) = interp x ((x0, f0) :: rest).
Proof.
  induction pre as [|[a fa] pre IH]; intros Hall Hx0; [done|].
  transitivity (interp x (pre ++ (x0, f0) :: rest));
    [|apply IH; [intros p Hp; apply Hall; by right|done]].
  cbn [app].
  destruct (pre ++ (x0, f0) :: rest) as [|[x1 f1] tail] eqn:E.
  { by destruct pre. }
  assert ((a < x)%Z) by (apply (Hall (a, fa)); by left).
  assert ((x1 < x)%Z).
  { destruct pre as [|[x1' f1'] pre]; simplify_eq/=; [done|].
    apply (Hall (x1, f1)). right. by left. }
  cbn [interp]. by rewrite !bool_decide_false by lia.
Qed.

Lemma replicate_nan n : Forall (λ v : float, v = nan) (replicate n nan).
Proof. apply Forall_replicate. done. Qed.

(** Back-fill carries the first value to the positions before it. *)
Lemma bfill_leading (gap : nat) :
  ∀ (y : list float) (f : Qc),
    (∀ i, i < gap → y !! i = Some nan) → y !! gap = Some (Some f) →
    ∀ j, j ≤ gap → bfill y !! j = Some (Some f).
Proof.
  induction gap as [|gap IH]; intros y f Hnan Hf j Hj.
  { replace j with 0 by lia. by apply bfill_valid. }
  destruct y as [|v y]; [done|].
  assert (v = nan) as -> by (specialize (Hnan 0 ltac:(lia)); by simplify_eq/=).
  assert (∀ j, j ≤ gap → bfill y !! j = Some (Some f)) as Hrest.
  { apply IH; [|done]. intros i Hi. apply (Hnan (S i)). lia. }
  cbn [bfill]. destruct j as [|j]; [|apply Hrest; lia].
  simpl. rewrite head_lookup, (Hrest 0) by lia. done.
Qed.

End gap_shape.

(** X19.  The shape of the filled gaps.  A run of missing prices between
    two known prices is filled on the straight line between them, in equal
    steps; a run of missing prices at the head of the column takes the
    first known price. *)
Theorem X19_gaps_filled (before after : list float) (f0 f1 : Qc) (gap j : nat) :
  j < gap →
  Resample.gap_fill (before ++ Some f0 :: replicate gap None ++ Some f1 :: after)
    !! (length before + 1 + j)
  = Some (Some ((f1 - f0) / Np.of_nat (gap + 1) * Np.of_nat (j + 1) + f0)%Qc)
  ∧ Resample.gap_fill (replicate gap None ++ Some f1 :: after) !! j = Some (Some f1).
Proof.
  intros Hj. split.
  - set (b := length before).
    set (y := before ++ Some f0 :: replicate gap None ++ Some f1 :: after).
    assert (y !! (b + 1 + j) = Some None) as Hy.
    { unfold y. rewrite lookup_app_r by (fold b; lia).
      replace (b + 1 + j - length before) with (S j) by (fold b; lia). simpl.
      rewrite lookup_app_l by (rewrite length_replicate; lia).
      by apply lookup_replicate_2. }
    assert (Resample.valid y
            = omap (λ iv : nat * float, (λ v, (Z.of_nat iv.1, v)) <$> iv.2)
                (imap (λ i, pair (0 + i)) before)
              ++ (Z.of_nat b, f0) :: (Z.of_nat (b + 1 + gap), f1)
              :: omap (λ iv : nat * float, (λ v, (Z.of_nat iv.1, v)) <$> iv.2)
                   (imap (λ i, pair (b + 1 + gap + 1 + i)) after)) as Hvalid.
    { rewrite valid_valid_from. unfold y.
      change (Some f0 :: replicate gap None ++ Some f1 :: after)
        with ([Some f0] ++ replicate gap None ++ [Some f1] ++ after).
      rewrite !valid_from_app, (valid_from_nan _ _ (replicate_nan gap)).
      rewrite length_replicate. simpl. fold b. rewrite !Nat.add_0_r.
      do 3 f_equal. }
    unfold Resample.gap_fill. apply bfill_valid. unfold Resample.interpolate.
    rewrite Hvalid.
    set (pre := omap _ (imap (λ i, pair (0 + i)) before)).
    set (post := omap _ (imap _ after)).
    assert (∀ p, p ∈ pre → (p.1 < Z.of_nat b)%Z) as Hpre.
    { intros p Hp. apply valid_from_bound in Hp. fold b in Hp. lia. }
    destruct (pre ++ (Z.of_nat b, f0) :: (Z.of_nat (b + 1 + gap), f1) :: post)
      as [|[x0 g0] rest] eqn:E; [by destruct pre|].
    assert ((x0 ≤ Z.of_nat b)%Z) as Hx0.
    { destruct pre as [|p ps]; simplify_eq/=; [lia|].
      specialize (Hpre (x0, g0) ltac:(by left)). simpl in Hpre. lia. }
    rewrite list_lookup_imap. fold y. rewrite Hy.
    cbn [fmap option_fmap option_map]. rewrite bool_decide_false by lia.
    do 2 f_equal. rewrite <- E.
    rewrite interp_skip by (try lia; intros p Hp; apply Hpre in Hp; lia).
    rewrite interp_between by lia. rewrite !of_Z_sub. unfold Np.of_nat.
    do 2 f_equal; [do 2 f_equal; lia|f_equal; lia].
  - unfold Resample.gap_fill.
    set (y := replicate gap None ++ Some f1 :: after).
    assert (∀ i, i < gap → y !! i = Some None) as Hnan.
    { intros i Hi. unfold y. rewrite lookup_app_l by (rewrite length_replicate; lia).
      by apply lookup_replicate_2. }
    assert (y !! gap = Some (Some f1)) as Hf.
    { unfold y. rewrite lookup_app_r by (rewrite length_replicate; lia).
      by rewrite length_replicate, Nat.sub_diag. }
    assert (Resample.valid y
            = (Z.of_nat gap, f1)
              :: omap (λ iv : nat * float, (λ v, (Z.of_nat iv.1, v)) <$> iv.2)
                   (imap (λ i, pair (gap + 1 + i)) after)) as Hvalid.
    { rewrite valid_valid_from. unfold y.
      change (Some f1 :: after) with ([Some f1] ++ after).
      rewrite !valid_from_app, (valid_from_nan _ _ (replicate_nan gap)).
      rewrite length_replicate. simpl. by rewrite !Nat.add_0_r. }
    apply (bfill_leading gap); [| |lia].
    + intros i Hi. unfold Resample.interpolate. rewrite Hvalid.
      rewrite list_lookup_imap, Hnan by done. simpl.
      by rewrite bool_decide_true by lia.
    + by apply interpolate_valid.
Qed.

(** X19 on a column with a gap of three between 188.00 and 188.40 and a
    gap of two at its head. *)
Lemma X19_gaps_filled_witness :
  (λ v, this <$> v)
    <$> Resample.gap_fill
          ([None; None; Some (Sample.cents 18800)] ++ replicate 3 None
           ++ [Some (Sample.cents 18840)])
  = Some <$> [188 # 1; 188 # 1; 188 # 1; 1881 # 10; 941 # 5; 1883 # 10; 942 # 5]
  ∧ Resample.gap_fill
      ([None; None] ++ Some (Sample.cents 18800) :: replicate 3 None
       ++ Some (Sample.cents 18840) :: []) !! (length [@None Qc; None] + 1 + 1)
    = Some (Some ((Sample.cents 18840 - Sample.cents 18800) / Np.of_nat (3 + 1)
                  * Np.of_nat (1 + 1) + Sample.cents 18800)%Qc)
  ∧ Resample.gap_fill (replicate 3 None ++ Some (Sample.cents 18840) :: []) !! 1
    = Some (Some (Sample.cents 18840)).
Proof.
  split; [by vm_compute|].
  apply (X19_gaps_filled [None; None] [] (Sample.cents 18800) (Sample.cents 18840) 3 1).
  lia.
Defined.

(** ** The rows that the filter drops *)

Section dropped_facts.
Import Np Outlier.
Context (sqrt : Qc → Qc).

#[local] Abbreviation counted outlier_frame :=
  (foldr Z.add 0%Z (out_num <$> outlier_frame)).

Lemma counted_app (f1 f2 : list choice) :
  counted (f1 ++ f2) = (counted f1 + counted f2)%Z.
Proof. rewrite fmap_app. induction (out_num <$> f1) as [|x xs IH]; simpl; lia. Qed.

(** The search over a grid that is not empty: the outliers counted and the
    trades kept are at most the trades of the symbol. *)
Lemma search_counts (grid : list (Qc * Qc)) (output : list trade)
    (date_list : list string) (symbol : string) best :
  search sqrt grid output date_list symbol = Ok (Some best) →
  (0 ≤ out_num best)%Z
  ∧ (out_num best + count_true (not_outlier_sym_f best)
     ≤ Z.of_nat (length (date_list ≫= λ d, price_sym_day output symbol d)))%Z.
Proof.
  intros Hsearch. unfold search in Hsearch. rewrite length_bind.
  eapply (grid_loop_row sqrt _ grid
            (λ c, (0 ≤ out_num c)%Z
                  ∧ (out_num c + count_true (not_outlier_sym_f c)
                     ≤ Z.of_nat (sum_list ((λ d, length (price_sym_day output symbol d))
                                             <$> date_list)))%Z));
    [| |exact Hsearch]; [|done].
  intros k y n m _ (_ & Hn & Hc)%dates_loop_series. simpl in *.
  rewrite <- list_fmap_compose in Hc.
  change (count_true []) with 0%Z in Hc.
  split; [done|]. etrans; [|exact Hc]. lia.
Qed.

Lemma symbols_loop_counts (output : list trade) (date_list : list string) symbols :
  ∀ outlier_frame series outlier_frame' series',
    Outlier.symbols_loop sqrt output date_list symbols outlier_frame series
    = Ok (outlier_frame', series') →
    (counted outlier_frame ≤ counted outlier_frame')%Z
    ∧ (counted outlier_frame' - counted outlier_frame
       + (count_true series' - count_true series)
       ≤ Z.of_nat (length series') - Z.of_nat (length series))%Z.
Proof.
  induction symbols as [|s symbols IH]; intros outlier_frame series outlier_frame' series';
    cbn [Outlier.symbols_loop].
  { intros [= <- <-]. lia. }
  destruct (search sqrt ky_array output date_list s) as [row| |] eqn:E;
    cbn [mbind result_bind Py.bind]; try done.
  pose proof E as E'. apply search_series in E' as (best & -> & Hbest).
  2:{ destruct ky_array_cons as (ky & grid & ->). done. }
  apply search_counts in E as [Hn Hc].
  intros Hloop. pose proof Hloop as [Hlen _]%symbols_loop_series.
  apply IH in Hloop as [Hle Hsum].
  rewrite counted_app, count_true_app in *. rewrite length_app in *.
  change (counted [best]) with (out_num best + 0)%Z in *. lia.
Qed.

Lemma length_mask {A} (rows : list A) :
  ∀ keep, length keep = length rows →
    Z.of_nat (length (mask rows keep)) = count_true keep.
Proof.
  unfold mask, count_true. induction rows as [|r rows IH]; intros [|b keep] Hlen;
    simplify_eq/=; [done|].
  rewrite !filter_cons. specialize (IH keep Hlen). simpl.
  destruct (decide (Is_true b)); simpl; rewrite ?length_fmap in *; lia.
Qed.

Lemma mask_sublist {A} (rows : list A) : ∀ keep, mask rows keep `sublist_of` rows.
Proof.
  unfold mask. induction rows as [|r rows IH]; intros [|b keep]; simpl;
    try apply sublist_nil_l.
  rewrite filter_cons. simpl. destruct (decide (Is_true b)); simpl.
  - by apply sublist_skip.
  - by apply sublist_cons.
Qed.

End dropped_facts.

(** X20.  The filtered frame and the table of outliers.  When the series of
    the filter has one value for each row of the frame, the filtered frame
    holds rows of the frame, in their order, one for each [True] of the
    series; the rows dropped are at least as many as the outliers that the
    table reports for the symbols, and may be more. *)
Theorem X20_dropped_at_least_counted (sqrt : Qc → Qc) (output : list Query.trade)
    (date_list symbols : list string) (outlier_frame : list Outlier.choice)
    (series : list bool) :
  Outlier.symbols_loop sqrt output date_list symbols [] [] = Ok (outlier_frame, series) →
  length series = length output →
  let output_filtered := Outlier.mask output series in
  Outlier.output_filtered sqrt output date_list symbols = Ok output_filtered
  ∧ output_filtered `sublist_of` output
  ∧ Z.of_nat (length output_filtered) = Outlier.count_true series
  ∧ (0 ≤ foldr Z.add 0%Z (Outlier.out_num <$> outlier_frame)
     ≤ Z.of_nat (length output) - Z.of_nat (length output_filtered))%Z.
Proof.
  intros Hloop Hlen output_filtered.
  split; [unfold Outlier.output_filtered; by rewrite Hloop|].
  split; [apply mask_sublist|].
  pose proof (length_mask output series Hlen) as Hmask. split; [done|].
  apply symbols_loop_counts in Hloop as [Hle Hsum].
  change (Outlier.count_true []) with 0%Z in Hsum.
  change (foldr Z.add 0%Z (Outlier.out_num <$> [])) with 0%Z in Hle, Hsum.
  simpl in Hsum. fold output_filtered in Hmask. lia.
Qed.

(** X20 on a day of 60 trades, the last at 100.02 and the others at
    100.00: the table reports no outlier, and one row is dropped. *)
Lemma X20_dropped_at_least_counted_witness :
  let output := (λ t : Z, Sample.trade_at "20190328" "AAPL"
                            (34200 * Resample.second + t)
                            (if bool_decide (t = 59)%Z then Sample.cents 10002
                             else Sample.cents 10000) 100) <$> Py.range 0 60 in
  ∃ outlier_frame series,
    Outlier.symbols_loop Sample.sqrt output ["20190328"] ["AAPL"] [] []
    = Ok (outlier_frame, series)
    ∧ Outlier.out_num <$> outlier_frame = [0%Z]
    ∧ length (Outlier.mask output series) = 59
    ∧ let output_filtered := Outlier.mask output series in
      Outlier.output_filtered Sample.sqrt output ["20190328"] ["AAPL"]
      = Ok output_filtered
      ∧ output_filtered `sublist_of` output
      ∧ Z.of_nat (length output_filtered) = Outlier.count_true series
      ∧ (0 ≤ foldr Z.add 0%Z (Outlier.out_num <$> outlier_frame)
         ≤ Z.of_nat (length output) - Z.of_nat (length output_filtered))%Z.
Proof.
  intros output. eexists _, _.
  split; [vm_compute; reflexivity|]. split; [by vm_compute|]. split; [by vm_compute|].
  apply (X20_dropped_at_least_counted Sample.sqrt output ["20190328"] ["AAPL"]).
  - vm_compute. reflexivity.
  - by vm_compute.
Defined.
